(** * Ember: feed aggregation, pagination and the query endpoints

    A shallow embedding of the aggregation and query code of the site:

    - [src/pages/api/articles.ts]: [getAllArticles] and the articles
      [handler] (filters, pagination);
    - the feed generator [generateFeedJson] with [fetchFeedWithRetry];
    - the users [handler] with [getAllUsers];
    - the manual refresh [handler] of [src/pages/api/refresh-feed.ts];
    - [getStaticPaths] and [getStaticProps] of the user, tag and home
      pages, the request of the refresh button of the development
      tools, and the state of the timeline that the pages scroll.

    Conventions of the model.

    - JavaScript numbers that the code computes with are integers here
      ([Z]); [NaN] is explicit where the code can meet it ([JsNumber], and
      [option Z] for time values, [None] being the time value of an
      invalid date).  Fractional and infinite request parameters are not
      part of the model.
    - The network, the clock, the configuration file, the environment
      variable and the date parser of the JavaScript runtime are the
      fields of an environment [Env]; the files under [public/data], the
      module-level caches and the history of effects form the [World]
      that the code reads and writes.
    - Asynchronous code is run to completion in program order:
      [Promise.all] keeps the order of its inputs, so the articles that a
      run collects do not depend on the interleaving of the requests. *)

From Stdlib Require Import ZArith List String Ascii Bool Lia Permutation Sorted.
Import ListNotations.

Local Open Scope string_scope.
Local Open Scope list_scope.
Local Open Scope Z_scope.

(** ** JavaScript primitives used by the code *)

Module Js.

(** The result of [Number(x)] on a request parameter: [NaN] for a
    missing or malformed one, a whole number otherwise.  [Number] can
    also give a fraction or an infinity; these are floating-point values
    outside the model, and what is proved of the handler is proved for
    requests whose parameters are whole numbers or malformed. *)
Inductive JsNumber : Type :=
| NaN
| Num (z : Z).

(** [n || d] on numbers: [NaN] and [0] are falsy. *)
Definition or_default (n : JsNumber) (d : Z) : Z :=
  match n with
  | NaN => d
  | Num Z0 => d
  | Num z => z
  end.

(** A property that may be missing ([undefined]), [null], or hold a
    value. *)
Inductive Nullable (A : Type) : Type :=
| JUndefined
| JNull
| JValue (a : A).
Arguments JUndefined {A}.
Arguments JNull {A}.
Arguments JValue {A} a.

(** Truthiness of a string: the empty string is falsy. *)
Definition truthy_string (s : string) : bool :=
  negb (String.eqb s "").

(** Truthiness of a string-valued property that may be absent. *)
Definition truthy (o : option string) : bool :=
  match o with
  | Some s => truthy_string s
  | None => false
  end.

(** [a || b] on possibly absent strings. *)
Definition or_else (a b : option string) : option string :=
  if truthy a then a else b.

(** [x === s] for a possibly absent string [x] and a string [s]. *)
Definition strict_eq (x : option string) (s : string) : bool :=
  match x with
  | Some t => String.eqb t s
  | None => false
  end.

(** [arr.includes(s)] on an array of strings. *)
Definition includes (arr : list string) (s : string) : bool :=
  existsb (String.eqb s) arr.

(** [Math.ceil(a / b)] for integers [a] and [b <> 0]: the ceiling of
    the exact quotient. *)
Definition Math_ceil_div (a b : Z) : Z := - ((- a) / b).

(** [Array.prototype.slice]: a negative index counts from the end, and
    both indices are clamped into [[0, len]]. *)
Definition relative_index (len i : Z) : Z :=
  if i <? 0 then Z.max (len + i) 0 else Z.min i len.

Definition slice {A : Type} (l : list A) (start end_ : Z) : list A :=
  let len := Z.of_nat (List.length l) in
  let k := relative_index len start in
  let final := relative_index len end_ in
  firstn (Z.to_nat (Z.max (final - k) 0)) (skipn (Z.to_nat k) l).

(** *** Time values

    A time value is a number of milliseconds since the epoch, or [NaN]
    ([None]).  The day arithmetic follows ECMAScript's [MakeDay]. *)

Definition msPerDay : Z := 86400000.
Definition maxTime : Z := 8640000000000000.

Definition DayFromYear (y : Z) : Z :=
  365 * (y - 1970) + (y - 1969) / 4 - (y - 1901) / 100 + (y - 1601) / 400.

Definition InLeapYear (y : Z) : bool :=
  ((y mod 4 =? 0) && negb (y mod 100 =? 0)) || (y mod 400 =? 0).

Definition DaysInMonth (y mn : Z) : Z :=
  match mn with
  | 1 => if InLeapYear y then 29 else 28
  | 3 | 5 | 8 | 10 => 30
  | _ => 31
  end.

(** Days from the first of January to the first of month [mn]
    (0-based). *)
Definition DayWithinYear (y mn : Z) : Z :=
  let leap := if InLeapYear y then 1 else 0 in
  match mn with
  | 0 => 0
  | 1 => 31
  | 2 => 59 + leap
  | 3 => 90 + leap
  | 4 => 120 + leap
  | 5 => 151 + leap
  | 6 => 181 + leap
  | 7 => 212 + leap
  | 8 => 243 + leap
  | 9 => 273 + leap
  | 10 => 304 + leap
  | _ => 334 + leap
  end.

Definition MakeDay (year month date : Z) : Z :=
  let ym := year + month / 12 in
  let mn := month mod 12 in
  DayFromYear ym + DayWithinYear ym mn + date - 1.

Definition MakeDate (day time : Z) : Z := day * msPerDay + time.

Definition TimeClip (t : Z) : option Z :=
  if Z.abs t <=? maxTime then Some t else None.

(** [new Date(year, monthIndex, day)]: a local time.  Years 0 to 99
    denote 1900 to 1999.  [LocalTZA t] is the offset of the local zone
    at local time [t]. *)
Definition new_Date (LocalTZA : Z -> Z) (year monthIndex day : Z) : option Z :=
  let yr := if (0 <=? year) && (year <=? 99) then 1900 + year else year in
  let finalDate := MakeDate (MakeDay yr monthIndex day) 0 in
  TimeClip (finalDate - LocalTZA finalDate).

(** Relational comparison and subtraction of time values: a comparison
    with [NaN] is false, an operation on [NaN] is [NaN]. *)
Definition ge (a b : option Z) : bool :=
  match a, b with
  | Some x, Some y => y <=? x
  | _, _ => false
  end.

Definition le (a b : option Z) : bool :=
  match a, b with
  | Some x, Some y => x <=? y
  | _, _ => false
  end.

Definition sub (a b : option Z) : option Z :=
  match a, b with
  | Some x, Some y => Some (x - y)
  | _, _ => None
  end.

(** *** [Array.prototype.sort]

    A comparator result of [NaN] counts as [+0].  The engine of Node
    sorts an array of fewer than 64 elements as a single run: it takes
    the longest run at the front, which is non-descending for the
    comparator, or strictly descending and then reversed
    ([CountAndMakeRun]), and inserts the remaining elements one after
    the other at the position found by a binary search
    ([BinaryInsertionSort]).  [sort] is that procedure, whatever the
    comparator answers.  A longer array is cut into several such runs
    that are merged; when the comparator is consistent on the array
    (here: every publish date parses) the outcome is the same list, the
    stable sort of the array, and only then does [sort] stand for the
    engine on a long array. *)
Section Sort.
Context {A : Type} (comparefn : A -> A -> option Z).

Definition SortCompare (x y : A) : Z :=
  match comparefn x y with
  | Some v => v
  | None => 0
  end.

(** The loop of [CountAndMakeRun]: the elements after [previous] that
    continue the run, and the elements left. *)
Fixpoint extend_run (descending : bool) (previous : A) (l : list A)
  : list A * list A :=
  match l with
  | [] => ([], [])
  | current :: l' =>
      let order := SortCompare current previous in
      if (if descending then 0 <=? order else order <? 0)
      then ([], l)
      else
        let (run, rest) := extend_run descending current l' in
        (current :: run, rest)
  end.

(** The run at the front, made ascending for the comparator, and the
    elements behind it. *)
Definition CountAndMakeRun (l : list A) : list A * list A :=
  match l with
  | first :: second :: l' =>
      let descending := SortCompare second first <? 0 in
      let (run, rest) := extend_run descending second l' in
      let whole := first :: second :: run in
      (if descending then rev whole else whole, rest)
  | _ => (l, [])
  end.

(** The binary search of [BinaryInsertionSort] for the place of [pivot]
    between [left] and [right]; the interval shrinks at every turn, so
    [right - left] turns are enough. *)
Fixpoint search (turns : nat) (pivot : A) (sorted : list A) (left right : nat)
  : nat :=
  match turns with
  | O => left
  | S turns' =>
      if (left <? right)%nat then
        let mid := (left + (right - left) / 2)%nat in
        if SortCompare pivot (nth mid sorted pivot) <? 0
        then search turns' pivot sorted left mid
        else search turns' pivot sorted (S mid) right
      else left
  end.

Definition insert_pivot (sorted : list A) (pivot : A) : list A :=
  let left := search (List.length sorted) pivot sorted 0 (List.length sorted) in
  firstn left sorted ++ pivot :: skipn left sorted.

Definition BinaryInsertionSort (sorted rest : list A) : list A :=
  fold_left insert_pivot rest sorted.

Definition sort (l : list A) : list A :=
  let (run, rest) := CountAndMakeRun l in
  BinaryInsertionSort run rest.
End Sort.

(** *** A date parser for dates written [YYYY-MM-DD]

    [Date.parse] depends on the engine for most formats; the model
    takes it from the environment.  This instance reads the date-only
    ISO form, which every engine reads as midnight UTC. *)
Definition digit (c : ascii) : option Z :=
  let n := Z.of_nat (nat_of_ascii c) in
  if (48 <=? n) && (n <=? 57) then Some (n - 48) else None.

Fixpoint digits (acc : Z) (l : list ascii) : option Z :=
  match l with
  | [] => Some acc
  | c :: l' =>
      match digit c with
      | Some d => digits (10 * acc + d) l'
      | None => None
      end
  end.

Definition parse_iso_date (s : string) : option Z :=
  match list_ascii_of_string s with
  | [y1; y2; y3; y4; "-"%char; m1; m2; "-"%char; d1; d2] =>
      match digits 0 [y1; y2; y3; y4], digits 0 [m1; m2], digits 0 [d1; d2] with
      | Some y, Some m, Some d =>
          if (1 <=? m) && (m <=? 12) && (1 <=? d) && (d <=? DaysInMonth y (m - 1))
          then TimeClip (MakeDate (MakeDay y (m - 1) d) 0)
          else None
      | _, _, _ => None
      end
  | _ => None
  end.

End Js.

Import Js.

(** ** Data model *)

(** [DateYearMonth]: a year and a month (1 to 12) of the configuration. *)
Record DateYearMonth : Type := mkDateYearMonth {
  year : Z;
  month : Z
}.

(** [User], as the aggregation and the endpoints read it.  The generator
    reads the start of the tenure from [joined_at], the articles endpoint
    from [joined]; both are kept.  Display names, description and
    accounts are not read by the modelled code. *)
Record User : Type := mkUser {
  name : string;
  avatar : option string;
  joined : option DateYearMonth;
  joined_at : option DateYearMonth;
  left_at : Nullable DateYearMonth;
  user_tags : list string;
  sources : list string
}.

Record ConfigYaml : Type := mkConfigYaml {
  users : list User
}.

(** [Item] of a parsed feed.  [item_pubDate] is [None] when the feed item
    has no publish date.  [item_isDuringEmployment] is the optional
    property of the declared type; the generator sets it. *)
Record Item : Type := mkItem {
  item_title : string;
  item_link : string;
  item_pubDate : option string;
  item_contentSnippet : string;
  item_tags : list string;
  item_isDuringEmployment : option bool
}.

Record ParsedFeed : Type := mkParsedFeed {
  items : list Item;
  feed_title : option string
}.

(** [RSSItem]: an article of the aggregate. *)
Record RSSItem : Type := mkRSSItem {
  title : string;
  link : string;
  pubDate : option string;
  contentSnippet : string;
  tags : list string;
  siteName : string;
  author : string;
  authorAvatar : option string;
  isDuringEmployment : option bool
}.

(** ** The articles endpoint: filters and pagination

    [src/pages/api/articles.ts], [handler], from the query to the
    response, over the collection that [getAllArticles] returned. *)

(** The query of a request.  [q_page] and [q_perPage] are the values of
    [Number(req.query.page)] and [Number(req.query.perPage)]. *)
Record ArticlesQuery : Type := mkArticlesQuery {
  q_page : JsNumber;
  q_perPage : JsNumber;
  q_author : option string;
  q_tag : option string;
  q_duringEmploymentOnly : option string
}.

Record Pagination : Type := mkPagination {
  total : Z;
  page : Z;
  perPage : Z;
  totalPages : Z
}.

Record ApiResponse : Type := mkApiResponse {
  articles : list RSSItem;
  pagination : Pagination
}.

Definition requested_page (q : ArticlesQuery) : Z := or_default (q_page q) 1.
Definition requested_perPage (q : ArticlesQuery) : Z := or_default (q_perPage q) 12.

Definition duringEmploymentOnly (q : ArticlesQuery) : bool :=
  strict_eq (q_duringEmploymentOnly q) "true".

Definition author_is (a : string) (article : RSSItem) : bool :=
  String.eqb (author article) a.

(** [article.isDuringEmployment === true] *)
Definition employed (article : RSSItem) : bool :=
  match isDuringEmployment article with
  | Some true => true
  | _ => false
  end.

Definition has_tag (t : string) (article : RSSItem) : bool :=
  includes (tags article) t.

(** Lines 160-171: the author and employment filters, then the tag
    filter. *)
Definition apply_filters (q : ArticlesQuery) (all : list RSSItem) : list RSSItem :=
  let by_author :=
    match q_author q with
    | Some authorFilter =>
        if truthy_string authorFilter then
          let own := filter (author_is authorFilter) all in
          if duringEmploymentOnly q then filter employed own else own
        else all
    | None => all
    end in
  match q_tag q with
  | Some tagFilter =>
      if truthy_string tagFilter then filter (has_tag tagFilter) by_author
      else by_author
  | None => by_author
  end.

(** Lines 173-192. *)
Definition respond (q : ArticlesQuery) (all : list RSSItem) : ApiResponse :=
  let page := requested_page q in
  let perPage := requested_perPage q in
  let filtered := apply_filters q all in
  let total := Z.of_nat (List.length filtered) in
  let totalPages := Z.max 1 (Math_ceil_div total perPage) in
  let safePageNumber := Z.min (Z.max 1 page) totalPages in
  let startIndex := (safePageNumber - 1) * perPage in
  let endIndex := startIndex + perPage in
  {| articles := slice filtered startIndex endIndex;
     pagination := {| total := total;
                      page := safePageNumber;
                      perPage := perPage;
                      totalPages := totalPages |} |}.

(** The same query for another page. *)
Definition with_page (q : ArticlesQuery) (p : JsNumber) : ArticlesQuery :=
  {| q_page := p;
     q_perPage := q_perPage q;
     q_author := q_author q;
     q_tag := q_tag q;
     q_duringEmploymentOnly := q_duringEmploymentOnly q |}.

(** ** Environment, world and effects *)

(** What a run leaves behind, in program order. *)
Inductive Event : Type :=
| EFetch (url : string)
| ESleep (ms : Z)
| EFeedError (url : string).

(** The surroundings that the code only reads.  [parseURL_outcome url n]
    is the outcome of the request number [n] (from 0) to [url]: a parsed
    feed, or [None] when [parser.parseURL] rejects.  [Date_now] is the
    clock, read after a given history.  [config_yaml] is the parsed
    [config.yaml], or the message of the exception that reading it
    throws; [fs_write_error] is the message of the exception that writing
    under [public/data] throws, if it does.  The generator writes two
    files one after the other: [fs_error_at_users_json] tells whether
    the exception comes from the second write, that of [users.json],
    the write of [feed.json] having succeeded. *)
Record Env : Type := mkEnv {
  Date_parse : string -> option Z;
  LocalTZA : Z -> Z;
  parseURL_outcome : string -> nat -> option ParsedFeed;
  Date_now : list Event -> Z;
  config_yaml : string + ConfigYaml;
  fs_write_error : option string;
  fs_error_at_users_json : bool;
  REFRESH_API_KEY : option string
}.

(** The state that the code reads and writes: the history, the two
    snapshot files ([None]: no usable file) and the module-level caches
    of the two query endpoints. *)
Record World : Type := mkWorld {
  events : list Event;
  feed_json : option (list RSSItem);
  users_json : option (list User);
  cachedArticles : option (list RSSItem);
  articles_cacheTime : Z;
  cachedUsers : option (list User);
  users_cacheTime : Z
}.

Definition M (A : Type) : Type := World -> A * World.

Definition ret {A : Type} (a : A) : M A := fun w => (a, w).

Definition bind {A B : Type} (m : M A) (k : A -> M B) : M B :=
  fun w => let (a, w') := m w in k a w'.

Declare Scope effect_scope.
Delimit Scope effect_scope with effect.
Notation "x <- m ;; k" := (bind m (fun x => k))
  (at level 100, m at next level, right associativity) : effect_scope.
Notation "m ;; k" := (bind m (fun _ => k))
  (at level 100, right associativity) : effect_scope.
Local Open Scope effect_scope.

Definition with_events (w : World) (es : list Event) : World :=
  {| events := es;
     feed_json := feed_json w;
     users_json := users_json w;
     cachedArticles := cachedArticles w;
     articles_cacheTime := articles_cacheTime w;
     cachedUsers := cachedUsers w;
     users_cacheTime := users_cacheTime w |}.

Definition emit (e : Event) : M unit :=
  fun w => (tt, with_events w (events w ++ [e])).

Definition is_fetch (url : string) (e : Event) : bool :=
  match e with
  | EFetch u => String.eqb u url
  | _ => false
  end.

(** The number of requests made to [url] so far. *)
Definition requests_to (url : string) (es : list Event) : nat :=
  List.length (filter (is_fetch url) es).

(** [parser.parseURL(url)] *)
Definition parseURL (E : Env) (url : string) : M (option ParsedFeed) :=
  fun w =>
    (parseURL_outcome E url (requests_to url (events w)),
     with_events w (events w ++ [EFetch url])).

(** [Date.now()] *)
Definition now (E : Env) : M Z :=
  fun w => (Date_now E (events w), w).

Fixpoint mapM {A B : Type} (f : A -> M B) (l : list A) : M (list B) :=
  match l with
  | [] => ret []
  | a :: l' =>
      b <- f a ;;
      bs <- mapM f l' ;;
      ret (b :: bs)
  end.

(** ** Dates of the aggregation *)

(** [new Date(s)] for the publish date of an item; [None] is the time
    value of an invalid date. *)
Definition new_Date_string (E : Env) (s : option string) : option Z :=
  match s with
  | Some str => Date_parse E str
  | None => None
  end.

(** [new Date(d.year, d.month - 1, 1)] *)
Definition first_of_month (E : Env) (d : DateYearMonth) : option Z :=
  new_Date (LocalTZA E) (year d) (month d - 1) 1.

(** [user.left_at ? new Date(...) : new Date(9999, 11, 31)] *)
Definition leftDate (E : Env) (user : User) : option Z :=
  match left_at user with
  | JValue d => first_of_month E d
  | _ => new_Date (LocalTZA E) 9999 11 31
  end.

(** [item.pubDate] is truthy. *)
Definition has_pubDate (item : Item) : bool := truthy (item_pubDate item).

(** [pubDate >= joinDate && pubDate <= leftDate] *)
Definition within (E : Env) (joinDate leftDate : option Z) (item : Item) : bool :=
  let pubDate := new_Date_string E (item_pubDate item) in
  ge pubDate joinDate && le pubDate leftDate.

(** [parsedFeed.title || 'Unknown Source'] *)
Definition siteName_of (parsedFeed : ParsedFeed) : string :=
  match feed_title parsedFeed with
  | Some t => if truthy_string t then t else "Unknown Source"
  | None => "Unknown Source"
  end.

(** [{...item, tags: user.tags, siteName: ..., author: user.name,
    authorAvatar: user.avatar}] *)
Definition decorate (user : User) (parsedFeed : ParsedFeed) (item : Item) : RSSItem :=
  {| title := item_title item;
     link := item_link item;
     pubDate := item_pubDate item;
     contentSnippet := item_contentSnippet item;
     tags := user_tags user;
     siteName := siteName_of parsedFeed;
     author := name user;
     authorAvatar := avatar user;
     isDuringEmployment := item_isDuringEmployment item |}.

(** [new Date(article.pubDate).getTime()] *)
Definition getTime (E : Env) (article : RSSItem) : option Z :=
  new_Date_string E (pubDate article).

(** The comparator of both sorts:
    [(a, b) => new Date(b.pubDate).getTime() - new Date(a.pubDate).getTime()] *)
Definition newest_first (E : Env) (a b : RSSItem) : option Z :=
  sub (getTime E b) (getTime E a).

(** ** The generator: [generateFeedJson] *)

Module Generator.

(** [fetchFeedWithRetry(sourceUrl, retries = 3)]; [None] is the rethrown
    error. *)
Fixpoint fetchFeedWithRetry (E : Env) (sourceUrl : string) (retries : nat)
  : M (option ParsedFeed) :=
  parsed <- parseURL E sourceUrl ;;
  match parsed with
  | Some parsedFeed => ret (Some parsedFeed)
  | None =>
      match retries with
      | S retries' =>
          emit (ESleep 1000) ;;
          fetchFeedWithRetry E sourceUrl retries'
      | O => ret None
      end
  end.

(** [user.joined_at ? new Date(...) : new Date(0, 0, 1)] *)
Definition joinDate (E : Env) (user : User) : option Z :=
  match joined_at user with
  | Some d => first_of_month E d
  | None => new_Date (LocalTZA E) 0 0 1
  end.

(** [{...item, isDuringEmployment: isDuringEmployment}] *)
Definition flag (E : Env) (joinDate leftDate : option Z) (item : Item) : Item :=
  {| item_title := item_title item;
     item_link := item_link item;
     item_pubDate := item_pubDate item;
     item_contentSnippet := item_contentSnippet item;
     item_tags := item_tags item;
     item_isDuringEmployment := Some (within E joinDate leftDate item) |}.

(** The articles of one parsed feed: filter, flag, decorate. *)
Definition feed_articles (E : Env) (user : User) (parsedFeed : ParsedFeed)
  : list RSSItem :=
  map (decorate user parsedFeed)
    (map (flag E (joinDate E user) (leftDate E user))
       (filter has_pubDate (items parsedFeed))).

(** The body of the [.map(async (sourceUrl) => ...)] callback. *)
Definition source_articles (E : Env) (user : User) (sourceUrl : string)
  : M (list RSSItem) :=
  parsed <- fetchFeedWithRetry E sourceUrl 3 ;;
  match parsed with
  | Some parsedFeed => ret (feed_articles E user parsedFeed)
  | None => emit (EFeedError sourceUrl) ;; ret []
  end.

(** The filter in front of the callback: non-empty and not yet in
    [processedUrls]. *)
Definition to_process (processedUrls : list string) (sourceUrl : string) : bool :=
  truthy_string sourceUrl && negb (includes processedUrls sourceUrl).

(** The loop over [config.users]: what it pushes on [allArticles]. *)
Fixpoint collect (E : Env) (us : list User) (processedUrls : list string)
  : M (list RSSItem) :=
  match us with
  | [] => ret []
  | user :: rest =>
      let todo := filter (to_process processedUrls) (sources user) in
      feedResults <- mapM (source_articles E user) todo ;;
      more <- collect E rest (processedUrls ++ todo) ;;
      ret (List.concat feedResults ++ more)
  end.

Record GenerateResult : Type := mkGenerateResult {
  success : bool;
  error : option string
}.

(** [fs.writeFile] of [feed.json], lines 380-383, and of [users.json],
    lines 389-392, when they succeed. *)
Definition write_feed_json (allArticles : list RSSItem) : M unit :=
  fun w =>
    (tt, {| events := events w;
            feed_json := Some allArticles;
            users_json := users_json w;
            cachedArticles := cachedArticles w;
            articles_cacheTime := articles_cacheTime w;
            cachedUsers := cachedUsers w;
            users_cacheTime := users_cacheTime w |}).

Definition write_users_json (us : list User) : M unit :=
  fun w =>
    (tt, {| events := events w;
            feed_json := feed_json w;
            users_json := Some us;
            cachedArticles := cachedArticles w;
            articles_cacheTime := articles_cacheTime w;
            cachedUsers := cachedUsers w;
            users_cacheTime := users_cacheTime w |}).

(** An exception of [fs.mkdir] or of a [fs.writeFile] ends the run in
    the outer [catch]; what was written before it stays written. *)
Definition generateFeedJson (E : Env) : M GenerateResult :=
  match config_yaml E with
  | inl message => ret {| success := false; error := Some message |}
  | inr config =>
      allArticles <- collect E (users config) [] ;;
      let sorted := sort (newest_first E) allArticles in
      match fs_write_error E with
      | Some message =>
          if fs_error_at_users_json E
          then
            write_feed_json sorted ;;
            ret {| success := false; error := Some message |}
          else ret {| success := false; error := Some message |}
      | None =>
          write_feed_json sorted ;;
          write_users_json (users config) ;;
          ret {| success := true; error := None |}
      end
  end.

End Generator.

(** ** The articles endpoint: [getAllArticles] and [handler] *)

Module ArticlesApi.

Definition CACHE_DURATION : Z := 10 * 60 * 1000.

(** The articles of one parsed feed on the live-fetch path: an item is
    pushed when it has a publish date inside the tenure. *)
Definition feed_articles (E : Env) (user : User) (joinDate leftDate : option Z)
  (parsedFeed : ParsedFeed) : list RSSItem :=
  map (decorate user parsedFeed)
    (filter (fun item => has_pubDate item && within E joinDate leftDate item)
       (items parsedFeed)).

(** The loop over [user.sources], lines 86-113. *)
Fixpoint collect_sources (E : Env) (user : User) (joinDate leftDate : option Z)
  (srcs : list string) : M (list RSSItem) :=
  match srcs with
  | [] => ret []
  | sourceUrl :: rest =>
      if truthy_string sourceUrl then
        parsed <- parseURL E sourceUrl ;;
        pushed <- match parsed with
                  | Some parsedFeed =>
                      ret (feed_articles E user joinDate leftDate parsedFeed)
                  | None => emit (EFeedError sourceUrl) ;; ret []
                  end ;;
        more <- collect_sources E user joinDate leftDate rest ;;
        ret (pushed ++ more)
      else collect_sources E user joinDate leftDate rest
  end.

(** The loop over [config.users], lines 81-114.  [None]: reading
    [user.joined.year] of a user without [joined] throws. *)
Fixpoint collect (E : Env) (us : list User) : M (option (list RSSItem)) :=
  match us with
  | [] => ret (Some [])
  | user :: rest =>
      match joined user with
      | None => ret None
      | Some j =>
          pushed <- collect_sources E user (first_of_month E j) (leftDate E user)
                      (sources user) ;;
          more <- collect E rest ;;
          ret (option_map (app pushed) more)
      end
  end.

Definition set_cache (allArticles : list RSSItem) (t : Z) (w : World) : World :=
  {| events := events w;
     feed_json := feed_json w;
     users_json := users_json w;
     cachedArticles := Some allArticles;
     articles_cacheTime := t;
     cachedUsers := cachedUsers w;
     users_cacheTime := users_cacheTime w |}.

(** Lines 124-135: saving is best-effort. *)
Definition save (E : Env) (allArticles : list RSSItem) (w : World) : World :=
  match fs_write_error E with
  | Some _ => w
  | None =>
      {| events := events w;
         feed_json := Some allArticles;
         users_json := users_json w;
         cachedArticles := cachedArticles w;
         articles_cacheTime := articles_cacheTime w;
         cachedUsers := cachedUsers w;
         users_cacheTime := users_cacheTime w |}
  end.

(** Lines 69-141: the live fetch, when no snapshot file can be used.  An
    exception anywhere ends in [return []] of the outer [catch]. *)
Definition live_fetch (E : Env) (t : Z) : M (list RSSItem) :=
  match config_yaml E with
  | inl _ => ret []
  | inr config =>
      collected <- collect E (users config) ;;
      match collected with
      | None => ret []
      | Some allArticles =>
          let sorted := sort (newest_first E) allArticles in
          fun w => (sorted, save E sorted (set_cache sorted t w))
      end
  end.

(** Lines 36-39: the cache answers while it is young enough. *)
Definition cache_hit (w : World) (t : Z) : option (list RSSItem) :=
  match cachedArticles w with
  | Some cached =>
      if t - articles_cacheTime w <? CACHE_DURATION then Some cached else None
  | None => None
  end.

(** Lines 43-60: [feed.json] is used when it holds at least one
    article. *)
Definition snapshot (w : World) : option (list RSSItem) :=
  match feed_json w with
  | Some (a :: l) => Some (a :: l)
  | _ => None
  end.

Definition getAllArticles (E : Env) : M (list RSSItem) :=
  fun w =>
    let t := Date_now E (events w) in
    match cache_hit w t with
    | Some cached => (cached, w)
    | None =>
        match snapshot w with
        | Some loaded => (loaded, set_cache loaded t w)
        | None => live_fetch E t w
        end
    end.

Definition handler (E : Env) (q : ArticlesQuery) : M ApiResponse :=
  all <- getAllArticles E ;;
  ret (respond q all).

End ArticlesApi.

(** ** The users endpoint: [getAllUsers] and [handler] *)

Module UsersApi.

Definition CACHE_DURATION : Z := 10 * 60 * 1000.

Definition set_cache (us : list User) (t : Z) (w : World) : World :=
  {| events := events w;
     feed_json := feed_json w;
     users_json := users_json w;
     cachedArticles := cachedArticles w;
     articles_cacheTime := articles_cacheTime w;
     cachedUsers := Some us;
     users_cacheTime := t |}.

Definition save (E : Env) (us : list User) (w : World) : World :=
  match fs_write_error E with
  | Some _ => w
  | None =>
      {| events := events w;
         feed_json := feed_json w;
         users_json := Some us;
         cachedArticles := cachedArticles w;
         articles_cacheTime := articles_cacheTime w;
         cachedUsers := cachedUsers w;
         users_cacheTime := users_cacheTime w |}
  end.

Definition cache_hit (w : World) (t : Z) : option (list User) :=
  match cachedUsers w with
  | Some cached =>
      if t - users_cacheTime w <? CACHE_DURATION then Some cached else None
  | None => None
  end.

Definition snapshot (w : World) : option (list User) :=
  match users_json w with
  | Some (u :: l) => Some (u :: l)
  | _ => None
  end.

Definition getAllUsers (E : Env) : M (list User) :=
  fun w =>
    let t := Date_now E (events w) in
    match cache_hit w t with
    | Some cached => (cached, w)
    | None =>
        match snapshot w with
        | Some loaded => (loaded, set_cache loaded t w)
        | None =>
            match config_yaml E with
            | inl _ => ([], w)
            | inr config =>
                (users config, save E (users config) (set_cache (users config) t w))
            end
        end
    end.

(** The two shapes of a response: [{ user }] and [{ users }]. *)
Inductive UsersResponse : Type :=
| OneUser (user : option User)
| ManyUsers (us : list User).

(** [user.left_at === null] *)
Definition left_at_is_null (user : User) : bool :=
  match left_at user with
  | JNull => true
  | _ => false
  end.

Definition handler (E : Env) (query_name : option string) : M UsersResponse :=
  us <- getAllUsers E ;;
  match query_name with
  | Some userName =>
      if truthy_string userName then
        ret (OneUser (find (fun u => String.eqb (name u) userName) us))
      else ret (ManyUsers (filter left_at_is_null us))
  | None => ret (ManyUsers (filter left_at_is_null us))
  end.

End UsersApi.

(** ** The manual refresh endpoint *)

Module RefreshApi.

Record Request : Type := mkRequest {
  method : string;
  header_x_api_key : option string;
  body_secretKey : option string
}.

(** The responses: 405, 401, 200 with the duration, 500 with the error
    and the duration.  The 500 of the outer [catch] needs
    [generateFeed] to throw, which it does not: it catches its own
    exceptions. *)
Inductive Response : Type :=
| MethodNotAllowed
| Unauthorized
| Refreshed (duration : Z)
| RefreshFailed (message : string) (duration : Z).

(** [req.headers['x-api-key'] || req.body?.secretKey] *)
Definition secretKey (req : Request) : option string :=
  or_else (header_x_api_key req) (body_secretKey req).

(** [process.env.REFRESH_API_KEY || 'dev-key'] *)
Definition validKey (E : Env) : string :=
  match REFRESH_API_KEY E with
  | Some k => if truthy_string k then k else "dev-key"
  | None => "dev-key"
  end.

Definition handler (E : Env) (req : Request) : M Response :=
  if negb (String.eqb (method req) "POST") then ret MethodNotAllowed
  else if negb (strict_eq (secretKey req) (validKey E)) then ret Unauthorized
  else
    startTime <- now E ;;
    result <- Generator.generateFeedJson E ;;
    endTime <- now E ;;
    let duration := endTime - startTime in
    if Generator.success result then ret (Refreshed duration)
    else
      match Generator.error result with
      | Some message =>
          ret (RefreshFailed
                 (if truthy_string message then message else "Unknown error")
                 duration)
      | None => ret (RefreshFailed "Unknown error" duration)
      end.

End RefreshApi.

(** ** Vocabulary of the statements *)

(** The pages 1 to [n]. *)
Definition pages_upto (n : Z) : list Z := map Z.of_nat (seq 1 (Z.to_nat n)).

(** The positions [[(p - 1) * size, p * size)] of a list. *)
Definition window {A : Type} (l : list A) (p size : Z) : list A :=
  firstn (Z.to_nat size) (skipn (Z.to_nat ((p - 1) * size)) l).

(** What a query asks for, axis by axis. *)
Definition author_ok (q : ArticlesQuery) (a : RSSItem) : bool :=
  match q_author q with
  | Some who => if truthy_string who then String.eqb (author a) who else true
  | None => true
  end.

Definition employment_ok (q : ArticlesQuery) (a : RSSItem) : bool :=
  if truthy (q_author q) && strict_eq (q_duringEmploymentOnly q) "true"
  then match isDuringEmployment a with Some true => true | _ => false end
  else true.

Definition tag_ok (q : ArticlesQuery) (a : RSSItem) : bool :=
  match q_tag q with
  | Some t => if truthy_string t then existsb (String.eqb t) (tags a) else true
  | None => true
  end.

(** The query without its author, and without its tag. *)
Definition without_author (q : ArticlesQuery) : ArticlesQuery :=
  {| q_page := q_page q;
     q_perPage := q_perPage q;
     q_author := None;
     q_tag := q_tag q;
     q_duringEmploymentOnly := q_duringEmploymentOnly q |}.

Definition without_tag (q : ArticlesQuery) : ArticlesQuery :=
  {| q_page := q_page q;
     q_perPage := q_perPage q;
     q_author := q_author q;
     q_tag := None;
     q_duringEmploymentOnly := q_duringEmploymentOnly q |}.


(** ** The tenure window in the words of the specification

    The specification gives the window its defaults in words: the end is
    a far-future sentinel when no departure is recorded, the start is
    the earliest representable date when it is absent. *)

Module Spec.

(** The least time value of a [Date]. *)
Definition earliest_representable_date : option Z := Some (- maxTime).

Definition far_future_sentinel (E : Env) : option Z :=
  new_Date (LocalTZA E) 9999 11 31.

Definition tenureStart (E : Env) (user : User) : option Z :=
  match joined_at user with
  | Some d => first_of_month E d
  | None => earliest_representable_date
  end.

Definition tenureEnd (E : Env) (user : User) : option Z :=
  match left_at user with
  | JValue d => first_of_month E d
  | _ => far_future_sentinel E
  end.

Definition isDuringEmployment (E : Env) (user : User) (item : Item) : bool :=
  let pubDate := new_Date_string E (item_pubDate item) in
  ge pubDate (tenureStart E user) && le pubDate (tenureEnd E user).

(** A user with no recorded departure: [left_at] is absent or [null]. *)
Definition no_recorded_departure (user : User) : bool :=
  match left_at user with
  | JValue _ => false
  | _ => true
  end.

End Spec.

(** ** Order of an aggregate *)

(** The publish date of the article parses. *)
Definition dated (E : Env) (a : RSSItem) : Prop := getTime E a <> None.

(** [a] is published no earlier than [b]. *)
Definition not_older (E : Env) (a b : RSSItem) : Prop :=
  exists ta tb, getTime E a = Some ta /\ getTime E b = Some tb /\ tb <= ta.

(** Every article is published no earlier than every later one. *)
Definition DescendingByDate (E : Env) (l : list RSSItem) : Prop :=
  StronglySorted (not_older E) l.

(** [a] is published before [b]. *)
Definition older (E : Env) (a b : RSSItem) : Prop :=
  exists ta tb, getTime E a = Some ta /\ getTime E b = Some tb /\ ta < tb.

Definition published_at (E : Env) (t : Z) (a : RSSItem) : bool :=
  match getTime E a with
  | Some ta => ta =? t
  | None => false
  end.

(** The articles of any one instant stand in [after] as they stand in
    [before]. *)
Definition SameOrderWithinInstant (E : Env) (before after : list RSSItem) : Prop :=
  forall t, filter (published_at E t) after = filter (published_at E t) before.

(** A feed that some request returns. *)
Definition served (E : Env) (parsedFeed : ParsedFeed) : Prop :=
  exists url n, parseURL_outcome E url n = Some parsedFeed.

(** ** Variations of the network *)

(** The history of one request to [url] followed by [retries] retries,
    each retry after a wait of one second. *)
Fixpoint attempts (url : string) (retries : nat) : list Event :=
  match retries with
  | O => [EFetch url]
  | S k => EFetch url :: ESleep 1000 :: attempts url k
  end.

Definition empty_feed : ParsedFeed := {| items := []; feed_title := None |}.

(** The environment in which [url] answers every request with a feed
    without items. *)
Definition serving_empty (E : Env) (url : string) : Env :=
  {| Date_parse := Date_parse E;
     LocalTZA := LocalTZA E;
     parseURL_outcome := fun u n =>
       if String.eqb u url then Some empty_feed else parseURL_outcome E u n;
     Date_now := Date_now E;
     config_yaml := config_yaml E;
     fs_write_error := fs_write_error E;
     fs_error_at_users_json := fs_error_at_users_json E;
     REFRESH_API_KEY := REFRESH_API_KEY E |}.

(** The feed without its items that lack a publish date, and the
    environment in which every feed comes without them. *)
Definition without_undated_items (parsedFeed : ParsedFeed) : ParsedFeed :=
  {| items := filter has_pubDate (items parsedFeed);
     feed_title := feed_title parsedFeed |}.

Definition without_undated (E : Env) : Env :=
  {| Date_parse := Date_parse E;
     LocalTZA := LocalTZA E;
     parseURL_outcome := fun u n =>
       option_map without_undated_items (parseURL_outcome E u n);
     Date_now := Date_now E;
     config_yaml := config_yaml E;
     fs_write_error := fs_write_error E;
     fs_error_at_users_json := fs_error_at_users_json E;
     REFRESH_API_KEY := REFRESH_API_KEY E |}.

(** Two worlds with the same files and caches, whose histories hold the
    same number of requests to every URL but [url]. *)
Definition agree_off (url : string) (w w' : World) : Prop :=
  feed_json w = feed_json w'
  /\ users_json w = users_json w'
  /\ cachedArticles w = cachedArticles w'
  /\ articles_cacheTime w = articles_cacheTime w'
  /\ cachedUsers w = cachedUsers w'
  /\ users_cacheTime w = users_cacheTime w'
  /\ forall u, u <> url -> requests_to u (events w) = requests_to u (events w').

(** No item of a served feed carries [isDuringEmployment]: the parser
    sets no such property. *)
Definition no_flag_served (E : Env) : Prop :=
  forall parsedFeed item,
    served E parsedFeed -> In item (items parsedFeed) ->
    item_isDuringEmployment item = None.

(** ** Sample data

    A small configuration, its feeds and a world, used to run the model
    on concrete inputs. *)

Definition sample_article (who when : string) (flagged : option bool) : RSSItem :=
  {| title := "post";
     link := "https://blog.example/post";
     pubDate := Some when;
     contentSnippet := "";
     tags := ["rust"];
     siteName := "Blog";
     author := who;
     authorAvatar := None;
     isDuringEmployment := flagged |}.

Definition sample_snapshot : list RSSItem :=
  [ sample_article "alice" "2021-07-01" (Some false);
    sample_article "bob" "2021-06-15" (Some true);
    sample_article "alice" "2021-05-01" (Some true) ].

Definition blank_world : World :=
  {| events := [];
     feed_json := None;
     users_json := None;
     cachedArticles := None;
     articles_cacheTime := 0;
     cachedUsers := None;
     users_cacheTime := 0 |}.

Definition sample_world : World :=
  {| events := [];
     feed_json := Some sample_snapshot;
     users_json := None;
     cachedArticles := None;
     articles_cacheTime := 0;
     cachedUsers := None;
     users_cacheTime := 0 |}.

Definition sample_query : ArticlesQuery :=
  {| q_page := Num 1;
     q_perPage := Num 2;
     q_author := None;
     q_tag := None;
     q_duringEmploymentOnly := None |}.

(** An environment in the UTC zone that reads ISO dates, with a network
    given by [outcome] and a configuration [cfg]. *)
Definition utc_env (outcome : string -> nat -> option ParsedFeed)
  (cfg : string + ConfigYaml) : Env :=
  {| Date_parse := parse_iso_date;
     LocalTZA := fun _ => 0;
     parseURL_outcome := outcome;
     Date_now := fun es => Z.of_nat (List.length es);
     config_yaml := cfg;
     fs_write_error := None;
     fs_error_at_users_json := false;
     REFRESH_API_KEY := None |}.

Definition offline : string -> nat -> option ParsedFeed := fun _ _ => None.

Definition sample_item (when : option string) : Item :=
  {| item_title := "post";
     item_link := "https://blog.example/post";
     item_pubDate := when;
     item_contentSnippet := "";
     item_tags := [];
     item_isDuringEmployment := None |}.

Definition sample_user (who : string) (start : option DateYearMonth)
  (stop : Nullable DateYearMonth) (srcs : list string) : User :=
  {| name := who;
     avatar := None;
     joined := start;
     joined_at := start;
     left_at := stop;
     user_tags := ["rust"];
     sources := srcs |}.

(** Two authors.  Alice was a member from 2020-01 to 2021-06 and has one
    feed; Bob joined in 2019-04, is still a member, and has a feed that
    answers and one that never does. *)
Definition alice : User :=
  sample_user "alice" (Some {| year := 2020; month := 1 |})
    (JValue {| year := 2021; month := 6 |}) ["https://alice.example/feed"].

Definition bob : User :=
  sample_user "bob" (Some {| year := 2019; month := 4 |}) JNull
    ["https://bob.example/dead"; "https://bob.example/feed"].

Definition sample_config : ConfigYaml := {| users := [alice; bob] |}.

Definition alice_feed : ParsedFeed :=
  {| items := [sample_item (Some "2021-07-01"); sample_item None;
               sample_item (Some "2021-05-01")];
     feed_title := Some "Alice writes" |}.

Definition bob_feed : ParsedFeed :=
  {| items := [sample_item (Some "2021-05-01"); sample_item (Some "2021-06-15")];
     feed_title := None |}.

Definition sample_net (url : string) (n : nat) : option ParsedFeed :=
  if String.eqb url "https://alice.example/feed" then Some alice_feed
  else if String.eqb url "https://bob.example/feed" then Some bob_feed
  else None.

Definition sample_env : Env := utc_env sample_net (inr sample_config).

(** The articles of Alice published while she was a member. *)
Definition alice_employed_query : ArticlesQuery :=
  {| q_page := NaN;
     q_perPage := NaN;
     q_author := Some "alice";
     q_tag := None;
     q_duringEmploymentOnly := Some "true" |}.

(** Carol's [left_at] is absent from the configuration. *)
Definition carol : User :=
  sample_user "carol" (Some {| year := 2022; month := 3 |}) JUndefined [].

(** Erin's feed holds an item whose publish date is not a date. *)
Definition erin : User :=
  sample_user "erin" (Some {| year := 2020; month := 1 |}) JNull
    ["https://erin.example/feed"].

Definition garbled_feed : ParsedFeed :=
  {| items := [sample_item (Some "2021-01-01"); sample_item (Some "garbage");
               sample_item (Some "2021-05-01")];
     feed_title := Some "Erin writes" |}.

Definition garbled_net (url : string) (n : nat) : option ParsedFeed :=
  if String.eqb url "https://erin.example/feed" then Some garbled_feed else None.

Definition garbled_env : Env := utc_env garbled_net (inr {| users := [erin] |}).

Definition get_with_key : RefreshApi.Request :=
  {| RefreshApi.method := "GET";
     RefreshApi.header_x_api_key := Some "dev-key";
     RefreshApi.body_secretKey := None |}.

Definition post_with_key : RefreshApi.Request :=
  {| RefreshApi.method := "POST";
     RefreshApi.header_x_api_key := None;
     RefreshApi.body_secretKey := Some "dev-key" |}.

(** ** The statically generated pages

    [getStaticPaths] and [getStaticProps] of the user page
    ([src/pages/user/[name].tsx]), of the tag page
    ([src/pages/tag/[tag].tsx]) and of the home page.  They read
    [config.yaml] at build time. *)

Module UserPage.

(** [getStaticPaths]: one path for the name of every user.  It has no
    [try]: [None] is the exception of an unreadable configuration. *)
Definition getStaticPaths (E : Env) : option (list string) :=
  match config_yaml E with
  | inl _ => None
  | inr config => Some (map name (users config))
  end.

Inductive StaticProps : Type :=
| NotFound
| Props (initialUser : User).

(** [getStaticProps({ params })] *)
Definition getStaticProps (E : Env) (params_name : string) : StaticProps :=
  match config_yaml E with
  | inl _ => NotFound
  | inr config =>
      match find (fun u => String.eqb (name u) params_name) (users config) with
      | Some user => Props user
      | None => NotFound
      end
  end.

End UserPage.

Module TagPage.

(** [allTags.add(tag)] on a [Set], kept in insertion order. *)
Definition Set_add (allTags : list string) (tag : string) : list string :=
  if includes allTags tag then allTags else allTags ++ [tag].

(** The two nested [forEach] loops that fill [allTags]. *)
Definition collect_tags (us : list User) : list string :=
  fold_left (fun allTags user => fold_left Set_add (user_tags user) allTags) us [].

(** [getStaticPaths]: one path for every tag; none when the
    configuration cannot be read. *)
Definition getStaticPaths (E : Env) : list string :=
  match config_yaml E with
  | inl _ => []
  | inr config => collect_tags (users config)
  end.

(** [getStaticProps({ params })]: the [users] of the props. *)
Definition getStaticProps (E : Env) (params_tag : string) : list User :=
  match config_yaml E with
  | inl _ => []
  | inr config =>
      filter (fun user => includes (user_tags user) params_tag) (users config)
  end.

End TagPage.

Module HomePage.

(** [getStaticProps]: the [initialUsers] of the props. *)
Definition getStaticProps (E : Env) : list User :=
  match config_yaml E with
  | inl _ => []
  | inr config => filter UsersApi.left_at_is_null (users config)
  end.

End HomePage.

(** ** The refresh button of the development tools

    [handleRefresh] of [DevTools] posts to [/api/refresh-feed] with the
    header [x-api-key: dev-key] and no body. *)

Module DevTools.

Definition handleRefresh_request : RefreshApi.Request :=
  {| RefreshApi.method := "POST";
     RefreshApi.header_x_api_key := Some "dev-key";
     RefreshApi.body_secretKey := None |}.

End DevTools.

(** ** The timeline of the pages

    The state of the home page and of the tag page, which differ in the
    query they send, with the updates that their effects and their
    observer make.  The user page has the same state and updates; its
    additional effect for the employment switch loads page 1 again.  The
    page size is the constant 12. *)

Module Timeline.

(** [shown] and [shown_totalPages] are the states [articles] and
    [totalPages] of the component. *)
Record State : Type := mkState {
  shown : list RSSItem;
  currentPage : Z;
  shown_totalPages : Z;
  hasMore : bool;
  isLoading : bool;
  initialLoading : bool;
  error : option string
}.

Definition perPage : Z := 12.

(** The state of the first render. *)
Definition initial : State :=
  {| shown := [];
     currentPage := 1;
     shown_totalPages := 1;
     hasMore := true;
     isLoading := false;
     initialLoading := true;
     error := None |}.

(** The query that the page sends for page [p]:
    [page=${p}&perPage=${perPage}] and the fixed part [base] of the page
    (author, tag, employment). *)
Definition request (base : ArticlesQuery) (p : Z) : ArticlesQuery :=
  {| q_page := Num p;
     q_perPage := Num perPage;
     q_author := q_author base;
     q_tag := q_tag base;
     q_duringEmploymentOnly := q_duringEmploymentOnly base |}.

(** [loadInitialArticles], with the response of the endpoint. *)
Definition loadInitialArticles (data : ApiResponse) (s : State) : State :=
  {| shown := articles data;
     currentPage := 1;
     shown_totalPages := totalPages (pagination data);
     hasMore := page (pagination data) <? totalPages (pagination data);
     isLoading := isLoading s;
     initialLoading := false;
     error := None |}.

(** The callback of the [IntersectionObserver] when the last card comes
    into view: [if (entries[0].isIntersecting && hasMore)
    setCurrentPage(prevPage => prevPage + 1)].  The observer is only set
    while [isLoading] is false. *)
Definition intersect (s : State) : State :=
  if negb (isLoading s) && hasMore s then
    {| shown := shown s;
       currentPage := currentPage s + 1;
       shown_totalPages := shown_totalPages s;
       hasMore := hasMore s;
       isLoading := isLoading s;
       initialLoading := initialLoading s;
       error := error s |}
  else s.

(** [loadMoreArticles], with the response of the endpoint. *)
Definition loadMoreArticles (data : ApiResponse) (s : State) : State :=
  {| shown := shown s ++ articles data;
     currentPage := currentPage s;
     shown_totalPages := shown_totalPages s;
     hasMore := page (pagination data) <? totalPages (pagination data);
     isLoading := false;
     initialLoading := initialLoading s;
     error := None |}.

(** One scroll to the end of the list over the collection [all] of the
    endpoint: the observer fires and, when the page number changed, the
    effect runs; it returns at once on page 1 and loads any other
    page. *)
Definition scroll (base : ArticlesQuery) (all : list RSSItem) (s : State) : State :=
  let s' := intersect s in
  if currentPage s' =? currentPage s then s
  else if currentPage s' =? 1 then s'
  else loadMoreArticles (respond (request base (currentPage s')) all) s'.

(** The first load, then [n] scrolls to the end. *)
Fixpoint visit (base : ArticlesQuery) (all : list RSSItem) (n : nat) : State :=
  match n with
  | O => loadInitialArticles (respond (request base 1) all) initial
  | S k => scroll base all (visit base all k)
  end.

End Timeline.

(** ** Vocabulary of the further statements *)

(** The article without its employment flag. *)
Definition without_flag (a : RSSItem) : RSSItem :=
  {| title := title a;
     link := link a;
     pubDate := pubDate a;
     contentSnippet := contentSnippet a;
     tags := tags a;
     siteName := siteName a;
     author := author a;
     authorAvatar := authorAvatar a;
     isDuringEmployment := None |}.

(** The truthy sources of a list of users. *)
Definition listed_sources (us : list User) : list string :=
  filter truthy_string (flat_map sources us).

(** The world [w'] is [w] after some more history: files and caches are
    the same. *)
Definition grows (w w' : World) : Prop :=
  exists es, w' = with_events w (events w ++ es).

(** The sample environment with a disk on which the write of
    [users.json] throws. *)
Definition users_json_unwritable : Env :=
  {| Date_parse := Date_parse sample_env;
     LocalTZA := LocalTZA sample_env;
     parseURL_outcome := parseURL_outcome sample_env;
     Date_now := Date_now sample_env;
     config_yaml := config_yaml sample_env;
     fs_write_error := Some "ENOSPC";
     fs_error_at_users_json := true;
     REFRESH_API_KEY := REFRESH_API_KEY sample_env |}.

(** Dave has no [joined] in the configuration. *)
Definition dave : User :=
  {| name := "dave";
     avatar := None;
     joined := None;
     joined_at := Some {| year := 2021; month := 2 |};
     left_at := JNull;
     user_tags := ["go"];
     sources := ["https://bob.example/feed"] |}.

(** A POST request with a wrong key in the header and the default key
    in the body. *)
Definition post_wrong_header : RefreshApi.Request :=
  {| RefreshApi.method := "POST";
     RefreshApi.header_x_api_key := Some "guess";
     RefreshApi.body_secretKey := Some "dev-key" |}.

(** How many times [url] stands in a list of sources. *)
Definition occurrences (url : string) (l : list string) : nat :=
  List.length (filter (String.eqb url) l).
(** ** Checks of the date arithmetic *)

Example parse_iso_2021_07_01 : parse_iso_date "2021-07-01" = Some 1625097600000.
Proof. reflexivity. Qed.

Example parse_iso_garbage : parse_iso_date "last tuesday" = None.
Proof. reflexivity. Qed.

Example new_Date_year_0 : new_Date (fun _ => 0) 0 0 1 = Some (-2208988800000).
Proof. reflexivity. Qed.

Example new_Date_sentinel : new_Date (fun _ => 0) 9999 11 31 = Some 253402214400000.
Proof. reflexivity. Qed.

Example new_Date_2021_06 : new_Date (fun _ => 0) 2021 5 1 = Some 1622505600000.
Proof. reflexivity. Qed.

(** ** Pagination *)

Lemma ceil_div_bounds (a b : Z) :
  0 < b -> b * (Math_ceil_div a b - 1) < a <= b * Math_ceil_div a b.
Proof.
  intros Hb. unfold Math_ceil_div.
  pose proof (Z.div_mod (- a) b ltac:(lia)) as Hdm.
  pose proof (Z.mod_pos_bound (- a) b Hb) as Hm.
  nia.
Qed.

Lemma slice_window {A : Type} (l : list A) (s c : Z) :
  0 <= s -> 0 <= c ->
  slice l s (s + c) = firstn (Z.to_nat c) (skipn (Z.to_nat s) l).
Proof.
  intros Hs Hc. unfold slice, relative_index.
  destruct (Z.ltb_spec s 0) as [|_]; [lia|].
  destruct (Z.ltb_spec (s + c) 0) as [|_]; [lia|].
  set (len := Z.of_nat (List.length l)).
  destruct (Z.le_gt_cases len s) as [Hout|Hin].
  - rewrite !skipn_all2 by (subst len; lia).
    now rewrite !firstn_nil.
  - replace (Z.min s len) with s by lia.
    destruct (Z.le_gt_cases (s + c) len) as [Hfit|Hcut].
    + replace (Z.max (Z.min (s + c) len - s) 0) with c by lia. reflexivity.
    + replace (Z.max (Z.min (s + c) len - s) 0) with (len - s) by lia.
      rewrite !firstn_all2; [reflexivity | |]; rewrite length_skipn; subst len; lia.
Qed.

Lemma window_length {A : Type} (l : list A) (p size : Z) :
  0 <= size -> Z.of_nat (List.length (window l p size)) <= size.
Proof.
  intros Hsz. unfold window. rewrite length_firstn. lia.
Qed.

Lemma firstn_add {A : Type} (a b : nat) (l : list A) :
  firstn (a + b) l = firstn a l ++ firstn b (skipn a l).
Proof.
  revert l. induction a as [|a IH]; intros l; simpl; [reflexivity|].
  destruct l as [|x l]; simpl.
  - now rewrite firstn_nil.
  - now rewrite IH.
Qed.

(** The first [k] windows of width [size], one after the other, are the
    first [k * size] elements. *)
Lemma windows_concat {A : Type} (l : list A) (size : nat) (k : nat) :
  List.concat (map (fun i => firstn size (skipn (i * size) l)) (seq 0 k))
  = firstn (k * size) l.
Proof.
  induction k as [|k IH]; [reflexivity|].
  rewrite seq_S, map_app, concat_app, IH. simpl.
  rewrite app_nil_r.
  replace (size + k * size)%nat with (k * size + size)%nat by lia.
  now rewrite firstn_add.
Qed.

Lemma respond_total (q : ArticlesQuery) (all : list RSSItem) :
  total (pagination (respond q all)) = Z.of_nat (List.length (apply_filters q all)).
Proof. reflexivity. Qed.

Lemma respond_totalPages_ge_1 (q : ArticlesQuery) (all : list RSSItem) :
  1 <= totalPages (pagination (respond q all)).
Proof. simpl. lia. Qed.

Lemma respond_articles (q : ArticlesQuery) (all : list RSSItem) :
  1 <= requested_perPage q ->
  articles (respond q all)
  = window (apply_filters q all) (page (pagination (respond q all)))
      (requested_perPage q).
Proof.
  intros Hpp. unfold respond, window. cbn [articles pagination page].
  apply slice_window; nia.
Qed.

Lemma requested_perPage_nonzero (q : ArticlesQuery) : requested_perPage q <> 0.
Proof.
  unfold requested_perPage, or_default.
  destruct (q_perPage q) as [|[| |]]; lia.
Qed.

Lemma handler_respond (E : Env) (q : ArticlesQuery) (w : World) :
  fst (ArticlesApi.handler E q w) = respond q (fst (ArticlesApi.getAllArticles E w)).
Proof.
  unfold ArticlesApi.handler, bind, ret.
  now destruct (ArticlesApi.getAllArticles E w).
Qed.

Lemma filter_filter {A : Type} (f g : A -> bool) (l : list A) :
  filter g (filter f l) = filter (fun x => f x && g x) l.
Proof.
  induction l as [|x l IH]; simpl; [reflexivity|].
  destruct (f x); simpl; [destruct (g x)|]; now rewrite IH.
Qed.

Lemma filter_true {A : Type} (l : list A) : filter (fun _ => true) l = l.
Proof. induction l; simpl; congruence. Qed.

Lemma apply_filters_keeps (q : ArticlesQuery) (all : list RSSItem) :
  apply_filters q all
  = filter (fun a => author_ok q a && employment_ok q a && tag_ok q a) all.
Proof.
  unfold apply_filters, author_ok, employment_ok, tag_ok, duringEmploymentOnly,
    truthy, author_is, employed, has_tag, includes.
  destruct (q_author q) as [who|]; destruct (q_tag q) as [t|];
    try destruct (truthy_string who); try destruct (truthy_string t);
    try destruct (strict_eq (q_duringEmploymentOnly q) "true");
    cbn [andb]; rewrite ?filter_filter;
    try (symmetry; apply filter_true);
    apply filter_ext; intros a;
    rewrite ?andb_true_r, ?andb_assoc; reflexivity.
Qed.

Lemma window_nonempty {A : Type} (l : list A) (p size : Z) :
  1 <= size -> 1 <= p -> (p - 1) * size < Z.of_nat (List.length l) ->
  window l p size <> [].
Proof.
  intros Hsz Hp Hin Hnil.
  apply (f_equal (@List.length A)) in Hnil.
  unfold window in Hnil. rewrite length_firstn, length_skipn in Hnil.
  simpl in Hnil. nia.
Qed.

(** C1, as stated, fails.  The request [page=0&perPage=-5] over a
    snapshot of three articles: nothing is filtered away, the page is
    clamped to page 1 of 1, [total] is 3, and the slice of that page is
    empty, because the negative page size is taken as it is. *)
Lemma clamped_page_with_negative_perPage_counterexample :
  let q := mkArticlesQuery (Num 0) (Num (-5)) None None None in
  let all := fst (ArticlesApi.getAllArticles sample_env sample_world) in
  let r := fst (ArticlesApi.handler sample_env q sample_world) in
  apply_filters q all = sample_snapshot
  /\ total (pagination r) = 3
  /\ perPage (pagination r) = -5
  /\ totalPages (pagination r) = 1
  /\ page (pagination r) = 1
  /\ articles r = [].
Proof. repeat split. Qed.

(** C1, amended.  For every request to the articles endpoint whose
    [page] and [perPage] are whole numbers or malformed ([NaN]).  The
    page size of the response is the [perPage] of the request, or 12
    when that is malformed or 0; the requested page is the [page] of the
    request, or 1 when that is malformed or 0.  The response carries
    [totalPages = max(1, ceil(total / perPage))] over the filtered
    collection, which for a positive [perPage] is the least number of
    pages that hold it.  The page of the response is the requested page
    clamped into [[1, totalPages]]: a request for page [z] is answered
    with page [min(max(1, z), totalPages)], so page 0 and any page below
    1 give page 1, a page beyond the last gives the last, and a page in
    between is answered as asked.  The articles are the slice of that
    clamped page; it is not empty when [perPage] is at least 1 and the
    filtered collection is not empty. *)
Theorem articles_page_is_clamped (E : Env) (w : World) (q : ArticlesQuery) :
  let all := fst (ArticlesApi.getAllArticles E w) in
  let r := fst (ArticlesApi.handler E q w) in
  let filtered := apply_filters q all in
  let n := Z.of_nat (List.length filtered) in
  let p := pagination r in
  (q_perPage q = NaN \/ q_perPage q = Num 0 -> perPage p = 12)
  /\ (forall size, q_perPage q = Num size -> size <> 0 -> perPage p = size)
  /\ (q_page q = NaN \/ q_page q = Num 0 -> requested_page q = 1 /\ page p = 1)
  /\ (forall z, q_page q = Num z -> z <> 0 -> requested_page q = z)
  /\ (forall z, q_page q = Num z -> page p = Z.min (Z.max 1 z) (totalPages p))
  /\ (forall z, q_page q = Num z -> z <= 1 -> page p = 1)
  /\ (forall z, q_page q = Num z -> totalPages p <= z -> page p = totalPages p)
  /\ (forall z, q_page q = Num z -> 1 <= z <= totalPages p -> page p = z)
  /\ perPage p = requested_perPage q
  /\ perPage p <> 0
  /\ total p = n
  /\ totalPages p = Z.max 1 (Math_ceil_div n (perPage p))
  /\ (0 < perPage p ->
      n <= totalPages p * perPage p
      /\ (1 < totalPages p -> (totalPages p - 1) * perPage p < n))
  /\ 1 <= page p <= totalPages p
  /\ page p = Z.min (Z.max 1 (requested_page q)) (totalPages p)
  /\ articles r
     = slice filtered ((page p - 1) * perPage p) ((page p - 1) * perPage p + perPage p)
  /\ (1 <= perPage p -> filtered <> [] -> articles r <> []).
Proof.
  intros all r filtered n p.
  assert (Hr : r = respond q all) by apply handler_respond.
  subst p. rewrite Hr. clear Hr r.
  cbn [respond pagination perPage total totalPages page articles].
  fold filtered. fold n.
  assert (Hsize : forall size, q_perPage q = Num size -> size <> 0 ->
            requested_perPage q = size).
  { intros size H Hnz. unfold requested_perPage. rewrite H.
    destruct size; [contradiction | reflexivity | reflexivity]. }
  assert (Hsize0 : q_perPage q = NaN \/ q_perPage q = Num 0 ->
            requested_perPage q = 12).
  { intros [H|H]; unfold requested_perPage; now rewrite H. }
  assert (Hpage : forall z, q_page q = Num z -> z <> 0 -> requested_page q = z).
  { intros z H Hnz. unfold requested_page. rewrite H.
    destruct z; [contradiction | reflexivity | reflexivity]. }
  assert (Hpage0 : q_page q = NaN \/ q_page q = Num 0 -> requested_page q = 1).
  { intros [H|H]; unfold requested_page; now rewrite H. }
  assert (Hmax : forall z, q_page q = Num z ->
            Z.max 1 (requested_page q) = Z.max 1 z).
  { intros z H. destruct (Z.eq_dec z 0) as [->|Hnz].
    - now rewrite (Hpage0 (or_intror H)).
    - now rewrite (Hpage z H Hnz). }
  set (pp := requested_perPage q) in *.
  set (T := Z.max 1 (Math_ceil_div n pp)).
  assert (Hn : 0 <= n) by (subst n; lia).
  assert (Hpp0 : pp <> 0) by apply requested_perPage_nonzero.
  split; [exact Hsize0|].
  split; [exact Hsize|].
  split; [intros H; rewrite (Hpage0 H); split; [reflexivity | lia]|].
  split; [exact Hpage|].
  split; [intros z H; now rewrite (Hmax z H)|].
  split; [intros z H Hz; rewrite (Hmax z H); lia|].
  split; [intros z H Hz; rewrite (Hmax z H); lia|].
  split; [intros z H Hz; rewrite (Hmax z H); lia|].
  split; [reflexivity|].
  split; [exact Hpp0|].
  split; [reflexivity|].
  split; [reflexivity|].
  split.
  { intros H. pose proof (ceil_div_bounds n pp H). subst T. split; [nia|].
    intros HT. nia. }
  split; [lia|].
  split; [reflexivity|].
  split; [reflexivity|].
  intros Hpp Hne.
  rewrite slice_window by nia.
  apply (window_nonempty filtered (Z.min (Z.max 1 (requested_page q)) T) pp);
    [lia | lia |].
  assert (0 < n) by (subst n; destruct filtered; [congruence | simpl; lia]).
  pose proof (ceil_div_bounds n pp ltac:(lia)). subst T. nia.
Qed.

(** The request [page=99&perPage=1] over the snapshot of three articles
    is answered with page 3 of 3 and the last article; [page=0] and a
    malformed [page] with page 1. *)
Example page_beyond_the_last :
  let r := fst (ArticlesApi.handler sample_env
                  (mkArticlesQuery (Num 99) (Num 1) None None None) sample_world) in
  let r0 := fst (ArticlesApi.handler sample_env
                   (mkArticlesQuery (Num 0) (Num 1) None None None) sample_world) in
  (page (pagination r), perPage (pagination r), totalPages (pagination r)) = (3, 1, 3)
  /\ map pubDate (articles r) = [Some "2021-05-01"]
  /\ (page (pagination r0), perPage (pagination r0), totalPages (pagination r0))
     = (1, 1, 3)
  /\ map pubDate (articles r0) = [Some "2021-07-01"].
Proof. repeat split. Qed.

Lemma apply_filters_with_page (q : ArticlesQuery) (p : JsNumber) (all : list RSSItem) :
  apply_filters (with_page q p) all = apply_filters q all.
Proof. reflexivity. Qed.

Lemma requested_perPage_Num (q : ArticlesQuery) (size : Z) :
  q_perPage q = Num size -> 1 <= size -> requested_perPage q = size.
Proof.
  intros H Hs. unfold requested_perPage. rewrite H.
  destruct size; simpl; lia.
Qed.

Lemma requested_page_Num (q : ArticlesQuery) (p : Z) :
  1 <= p -> requested_page (with_page q (Num p)) = p.
Proof.
  intros Hp. unfold requested_page, with_page, or_default. cbn [q_page].
  destruct p; lia.
Qed.

Lemma pages_concat {A : Type} (l : list A) (size T : Z) :
  1 <= size -> 1 <= T -> Z.of_nat (List.length l) <= T * size ->
  List.concat (map (fun p => window l p size) (pages_upto T)) = l.
Proof.
  intros Hs HT Hcover. unfold pages_upto.
  rewrite <- seq_shift, !map_map.
  rewrite (map_ext _ (fun i => firstn (Z.to_nat size) (skipn (i * Z.to_nat size) l))).
  - rewrite windows_concat. apply firstn_all2. nia.
  - intros i. unfold window. do 2 f_equal. nia.
Qed.

(** C2.  For a query with a whole [perPage >= 1], over the collection
    that the endpoint filters: every page [p >= 1] reports the size of
    the filtered collection as [total] and returns the positions
    [[(page - 1) * perPage, page * perPage)] of it, [page] being the page
    of the response, which is [p] itself up to [totalPages]; no page is
    longer than [perPage]; the pages 1 to [totalPages], one after the
    other, are the filtered collection.  With 25 filtered articles and
    [perPage = 12] there are 3 pages, page 3 has 1 article, and
    [total = 25]. *)
Theorem articles_pages_partition
  (E : Env) (w : World) (q : ArticlesQuery) (size : Z) :
  q_perPage q = Num size -> 1 <= size ->
  let all := fst (ArticlesApi.getAllArticles E w) in
  let filtered := apply_filters q all in
  let ask := fun p => respond (with_page q (Num p)) all in
  let T := totalPages (pagination (ask 1)) in
  (forall p, fst (ArticlesApi.handler E (with_page q (Num p)) w) = ask p)
  /\ (forall p, 1 <= p ->
        total (pagination (ask p)) = Z.of_nat (List.length filtered)
        /\ totalPages (pagination (ask p)) = T
        /\ articles (ask p) = window filtered (page (pagination (ask p))) size
        /\ Z.of_nat (List.length (articles (ask p))) <= size
        /\ (p <= T ->
            page (pagination (ask p)) = p /\ articles (ask p) = window filtered p size))
  /\ List.concat (map (fun p => articles (ask p)) (pages_upto T)) = filtered
  /\ (List.length filtered = 25%nat -> size = 12 ->
      T = 3
      /\ List.length (articles (ask 3)) = 1%nat
      /\ total (pagination (ask 3)) = 25).
Proof.
  intros Hq Hsize all filtered ask T.
  assert (Hpp : forall p, requested_perPage (with_page q (Num p)) = size).
  { intros p. now apply requested_perPage_Num. }
  assert (HT : forall p, totalPages (pagination (ask p)) = T).
  { intros p. subst T ask. cbn [respond pagination totalPages].
    now rewrite !apply_filters_with_page, !Hpp. }
  assert (Hwin : forall p,
             articles (ask p) = window filtered (page (pagination (ask p))) size).
  { intros p. subst ask. cbv beta. rewrite respond_articles by (rewrite Hpp; lia).
    now rewrite Hpp, apply_filters_with_page. }
  assert (Hpage : forall p, 1 <= p <= T -> page (pagination (ask p)) = p).
  { intros p Hp. specialize (HT p). subst ask. cbv beta in *.
    cbn [respond pagination totalPages page] in *.
    rewrite requested_page_Num by lia. lia. }
  assert (HT1 : 1 <= T) by (subst T; apply respond_totalPages_ge_1).
  assert (Hcover : Z.of_nat (List.length filtered) <= T * size).
  { subst T ask. cbn [respond pagination totalPages].
    rewrite apply_filters_with_page, Hpp. fold filtered.
    pose proof (ceil_div_bounds (Z.of_nat (List.length filtered)) size ltac:(lia)).
    nia. }
  split; [|split; [|split]].
  - intros p. apply handler_respond.
  - intros p Hp.
    split; [reflexivity|]. split; [apply HT|]. split; [apply Hwin|].
    split; [rewrite Hwin; apply window_length; lia|].
    intros HpT. split; [apply Hpage; lia|].
    rewrite Hwin, Hpage by lia. reflexivity.
  - rewrite (map_ext_in _ (fun p => window filtered p size)).
    + apply pages_concat; lia.
    + intros p Hin. unfold pages_upto in Hin.
      apply in_map_iff in Hin. destruct Hin as (i & <- & Hi).
      apply in_seq in Hi. rewrite Hwin, Hpage by lia. reflexivity.
  - intros Hlen Hsz.
    assert (HT3 : T = 3).
    { subst T ask. cbn [respond pagination totalPages].
      rewrite apply_filters_with_page, Hpp. fold filtered.
      rewrite Hlen, Hsz. reflexivity. }
    split; [exact HT3|]. split.
    + rewrite Hwin, Hpage by lia. unfold window.
      rewrite length_firstn, length_skipn, Hlen, Hsz. reflexivity.
    + subst ask. cbv beta. rewrite respond_total, apply_filters_with_page.
      fold filtered. now rewrite Hlen.
Qed.

(** The sample snapshot, two articles to a page: page 1 and page 2 give
    the three articles back in order. *)
Lemma articles_pages_partition_witness :
  q_perPage sample_query = Num 2
  /\ 1 <= 2
  /\ List.concat
       (map (fun p => articles (respond (with_page sample_query (Num p)) sample_snapshot))
          [1; 2])
     = sample_snapshot.
Proof.
  split; [reflexivity | split; [lia |]].
  exact (proj1 (proj2 (proj2
    (articles_pages_partition
       (utc_env offline (inl "ENOENT"))
       sample_world sample_query 2 eq_refl ltac:(lia))))).
Defined.

Lemma slice_In {A : Type} (l : list A) (s e : Z) (a : A) :
  In a (slice l s e) -> In a l.
Proof.
  unfold slice. intros Ha.
  rewrite <- (firstn_skipn (Z.to_nat (relative_index (Z.of_nat (List.length l)) s)) l).
  apply in_or_app. right.
  match type of Ha with
  | In a (firstn ?n ?t) => rewrite <- (firstn_skipn n t)
  end.
  apply in_or_app. now left.
Qed.

(** ** Filters *)

Lemma author_ok_without_tag (q : ArticlesQuery) (a : RSSItem) :
  author_ok (without_tag q) a = author_ok q a.
Proof. reflexivity. Qed.

Lemma employment_ok_without_tag (q : ArticlesQuery) (a : RSSItem) :
  employment_ok (without_tag q) a = employment_ok q a.
Proof. reflexivity. Qed.

(** C6.  The collection that the endpoint paginates is the sub-list of
    the articles that pass three tests.  Author: with an author in the
    query, the article's author is that author.  Employment: with an
    author in the query and [duringEmploymentOnly] equal to ['true'], the
    article's [isDuringEmployment] is [true]; in every other case, and so
    whenever no author is given, the test passes every article.  Tag:
    with a tag in the query, the article's tags include it, whatever the
    author part of the query is: the tag filter applies on top of the
    result of the other two and commutes with them. *)
Theorem articles_filter_axes (E : Env) (w : World) (q : ArticlesQuery) :
  let all := fst (ArticlesApi.getAllArticles E w) in
  let r := fst (ArticlesApi.handler E q w) in
  let filtered := apply_filters q all in
  total (pagination r) = Z.of_nat (List.length filtered)
  /\ (forall a, In a (articles r) -> In a filtered)
  /\ filtered = filter (fun a => author_ok q a && employment_ok q a && tag_ok q a) all
  /\ (forall who a, q_author q = Some who -> who <> "" ->
        author_ok q a = String.eqb (author a) who)
  /\ (forall who a, q_author q = Some who -> who <> "" ->
        q_duringEmploymentOnly q = Some "true" ->
        employment_ok q a = true <-> isDuringEmployment a = Some true)
  /\ (forall a, q_duringEmploymentOnly q <> Some "true" -> employment_ok q a = true)
  /\ (forall a, truthy (q_author q) = false ->
        author_ok q a = true /\ employment_ok q a = true)
  /\ (truthy (q_author q) = false -> filtered = filter (tag_ok q) all)
  /\ (forall a, tag_ok (without_author q) a = tag_ok q a)
  /\ filtered = filter (tag_ok q) (apply_filters (without_tag q) all)
  /\ filtered = apply_filters (without_tag q) (filter (tag_ok q) all).
Proof.
  intros all r filtered.
  assert (Hr : r = respond q all) by apply handler_respond.
  assert (Hkeeps : filtered
                   = filter (fun a => author_ok q a && employment_ok q a && tag_ok q a) all)
    by apply apply_filters_keeps.
  split; [now rewrite Hr|].
  split.
  { intros a Ha. rewrite Hr in Ha. unfold respond in Ha. cbn [articles] in Ha.
    now apply slice_In in Ha. }
  split; [exact Hkeeps|].
  split.
  { intros who a Hwho Hne. unfold author_ok, truthy_string. rewrite Hwho.
    destruct (String.eqb_spec who ""); [contradiction | reflexivity]. }
  split.
  { intros who a Hwho Hne Hemp. unfold employment_ok, truthy, truthy_string, strict_eq.
    rewrite Hwho, Hemp.
    destruct (String.eqb_spec who ""); [contradiction|]. simpl.
    destruct (isDuringEmployment a) as [[|]|]; split; congruence. }
  split.
  { intros a Hemp. unfold employment_ok, strict_eq.
    destruct (q_duringEmploymentOnly q) as [s|]; [|now rewrite andb_false_r].
    destruct (String.eqb_spec s "true") as [->|_]; [congruence|].
    now rewrite andb_false_r. }
  assert (Hnone : forall a, truthy (q_author q) = false ->
                    author_ok q a = true /\ employment_ok q a = true).
  { intros a Hno. unfold author_ok, employment_ok. rewrite Hno.
    unfold truthy in Hno. destruct (q_author q) as [who|]; [|now split].
    now rewrite Hno. }
  split; [exact Hnone|].
  split.
  { intros Hno. rewrite Hkeeps. apply filter_ext. intros a.
    destruct (Hnone a Hno) as [-> ->]. reflexivity. }
  split; [reflexivity|].
  split.
  - rewrite Hkeeps, (apply_filters_keeps (without_tag q)), filter_filter.
    apply filter_ext. intros a.
    rewrite author_ok_without_tag, employment_ok_without_tag.
    unfold tag_ok at 2. cbn [without_tag q_tag]. now rewrite andb_true_r.
  - rewrite Hkeeps, (apply_filters_keeps (without_tag q)), filter_filter.
    apply filter_ext. intros a.
    rewrite author_ok_without_tag, employment_ok_without_tag.
    unfold tag_ok at 3. cbn [without_tag q_tag].
    rewrite andb_true_r.
    destruct (tag_ok q a), (author_ok q a), (employment_ok q a); reflexivity.
Qed.

(** ** The employment flag of the generator *)

Lemma ge_true (a b : option Z) :
  ge a b = true <-> exists x y, a = Some x /\ b = Some y /\ y <= x.
Proof.
  unfold ge. destruct a as [x|], b as [y|]; split.
  all: try (intros H; discriminate).
  all: try (intros (x' & y' & Hx & Hy & _); discriminate).
  - intros H. exists x, y. repeat split. now apply Z.leb_le.
  - intros (x' & y' & Hx & Hy & Hle). injection Hx as <-. injection Hy as <-.
    now apply Z.leb_le.
Qed.

Lemma le_true (a b : option Z) :
  le a b = true <-> exists x y, a = Some x /\ b = Some y /\ x <= y.
Proof.
  unfold le. destruct a as [x|], b as [y|]; split.
  all: try (intros H; discriminate).
  all: try (intros (x' & y' & Hx & Hy & _); discriminate).
  - intros H. exists x, y. repeat split. now apply Z.leb_le.
  - intros (x' & y' & Hx & Hy & Hle). injection Hx as <-. injection Hy as <-.
    now apply Z.leb_le.
Qed.

Lemma within_true (E : Env) (start stop : option Z) (item : Item) :
  within E start stop item = true
  <-> exists s p e,
        start = Some s /\ new_Date_string E (item_pubDate item) = Some p
        /\ stop = Some e /\ s <= p <= e.
Proof.
  unfold within. rewrite andb_true_iff, ge_true, le_true. split.
  - intros [(p & s & Hp & Hs & Hsp) (p' & e & Hp' & He & Hpe)].
    rewrite Hp in Hp'. injection Hp' as <-.
    exists s, p, e. repeat split; assumption.
  - intros (s & p & e & Hs & Hp & He & Hsp & Hpe). split.
    + exists p, s. repeat split; assumption.
    + exists p, e. repeat split; assumption.
Qed.

Lemma TimeClip_near (t off : Z) :
  Z.abs t <= 300000000000000 -> Z.abs off <= msPerDay ->
  TimeClip (t - off) = Some (t - off).
Proof.
  unfold TimeClip, msPerDay, maxTime. intros Ht Hoff.
  destruct (Z.leb_spec (Z.abs (t - off)) 8640000000000000); [reflexivity | lia].
Qed.

(** C3, as stated, fails.  An author without [joined_at] and without a
    departure; an item published on 31 December 1899.  Between the
    earliest representable date and the far-future sentinel, the item is
    inside the window of the specification; the generator flags it
    [false], because its default start is [new Date(0, 0, 1)], the first
    of January 1900. *)
Lemma employment_flag_default_start_counterexample :
  let E := utc_env offline (inl "ENOENT") in
  let user := sample_user "alice" None JNull ["https://blog.example/feed"] in
  let item := sample_item (Some "1899-12-31") in
  let parsedFeed := {| items := [item]; feed_title := Some "Blog" |} in
  has_pubDate item = true
  /\ new_Date_string E (item_pubDate item) = Some (-2209075200000)
  /\ Spec.tenureStart E user = Some (-8640000000000000)
  /\ Spec.tenureEnd E user = Some 253402214400000
  /\ Spec.isDuringEmployment E user item = true
  /\ map isDuringEmployment (Generator.feed_articles E user parsedFeed) = [Some false].
Proof. repeat split. Qed.

(** C3, amended.  The generator makes one article of every item with a
    non-empty publish date, in order, and flags it
    [isDuringEmployment = true] exactly when
    [joinDate <= pubDate <= leftDate], all three being valid dates, and
    [false] otherwise.  [leftDate] is the first of the month of
    [left_at], or the sentinel [new Date(9999, 11, 31)] when [left_at] is
    absent or [null]; [joinDate] is the first of the month of
    [joined_at], or [new Date(0, 0, 1)], the first of January 1900 in
    local time, when it is absent.  With a tenure from 2020-01 to
    2021-06, in any zone within a day of UTC, an article of
    2021-07-01T00:00Z is flagged [false] and one of 2021-05-01T00:00Z
    [true]. *)
Theorem employment_flag (E : Env) (user : User) (parsedFeed : ParsedFeed) :
  let start := Generator.joinDate E user in
  let stop := leftDate E user in
  let local := fun t => TimeClip (t - LocalTZA E t) in
  let article := fun item =>
    decorate user parsedFeed (Generator.flag E start stop item) in
  (forall d, joined_at user = Some d -> start = first_of_month E d)
  /\ (joined_at user = None -> start = local (-2208988800000))
  /\ (forall d, left_at user = JValue d -> stop = first_of_month E d)
  /\ (left_at user = JNull \/ left_at user = JUndefined ->
      stop = local 253402214400000)
  /\ Generator.feed_articles E user parsedFeed
     = map article (filter has_pubDate (items parsedFeed))
  /\ (forall item,
        pubDate (article item) = item_pubDate item
        /\ (isDuringEmployment (article item) = Some true
            <-> exists s p e,
                  start = Some s /\ new_Date_string E (item_pubDate item) = Some p
                  /\ stop = Some e /\ s <= p <= e)
        /\ (isDuringEmployment (article item) = Some true
            \/ isDuringEmployment (article item) = Some false))
  /\ ((forall t, Z.abs (LocalTZA E t) <= msPerDay) ->
      joined_at user = Some {| year := 2020; month := 1 |} ->
      left_at user = JValue {| year := 2021; month := 6 |} ->
      forall item,
        (new_Date_string E (item_pubDate item) = Some 1625097600000 ->
         isDuringEmployment (article item) = Some false)
        /\ (new_Date_string E (item_pubDate item) = Some 1619827200000 ->
            isDuringEmployment (article item) = Some true)).
Proof.
  intros start stop local article.
  split; [intros d Hd; subst start; unfold Generator.joinDate; now rewrite Hd|].
  split; [intros Hd; subst start; unfold Generator.joinDate; now rewrite Hd|].
  split; [intros d Hd; subst stop; unfold leftDate; now rewrite Hd|].
  split; [intros [Hd|Hd]; subst stop; unfold leftDate; now rewrite Hd|].
  split; [unfold Generator.feed_articles; now rewrite map_map|].
  split.
  - intros item. split; [reflexivity|]. split.
    + subst article. cbn [decorate Generator.flag isDuringEmployment
                          item_isDuringEmployment].
      rewrite <- within_true.
      split; [now intros [= ->] | now intros ->].
    + subst article. cbn [decorate Generator.flag isDuringEmployment
                          item_isDuringEmployment].
      destruct (within E start stop item); [now left | now right].
  - intros Hzone Hjoin Hleft item.
    assert (Hstart : start = Some (1577836800000 - LocalTZA E 1577836800000)).
    { subst start. unfold Generator.joinDate. rewrite Hjoin.
      change (first_of_month E {| year := 2020; month := 1 |})
        with (TimeClip (1577836800000 - LocalTZA E 1577836800000)).
      apply TimeClip_near; [lia | apply Hzone]. }
    assert (Hstop : stop = Some (1622505600000 - LocalTZA E 1622505600000)).
    { subst stop. unfold leftDate. rewrite Hleft.
      change (first_of_month E {| year := 2021; month := 6 |})
        with (TimeClip (1622505600000 - LocalTZA E 1622505600000)).
      apply TimeClip_near; [lia | apply Hzone]. }
    pose proof (Hzone 1577836800000) as Hz1.
    pose proof (Hzone 1622505600000) as Hz2.
    unfold msPerDay in Hz1, Hz2.
    subst article.
    cbn [decorate Generator.flag isDuringEmployment item_isDuringEmployment].
    unfold within. rewrite Hstart, Hstop.
    split; intros ->; unfold ge, le; f_equal.
    + apply andb_false_iff. right. apply Z.leb_gt. lia.
    + apply andb_true_iff. split; apply Z.leb_le; lia.
Qed.

(** The two articles of the example, read by [parse_iso_date] in the UTC
    zone. *)
Example employment_flag_example :
  let E := utc_env offline (inl "ENOENT") in
  let user := sample_user "A" (Some {| year := 2020; month := 1 |})
                (JValue {| year := 2021; month := 6 |}) [] in
  let parsedFeed :=
    {| items := [sample_item (Some "2021-07-01"); sample_item None;
                 sample_item (Some "2021-05-01")];
       feed_title := None |} in
  map (fun a => (pubDate a, isDuringEmployment a))
    (Generator.feed_articles E user parsedFeed)
  = [(Some "2021-07-01", Some false); (Some "2021-05-01", Some true)].
Proof. reflexivity. Qed.

(** ** The sort of the aggregate *)

Section SortFacts.

Context {A : Type} (comparefn : A -> A -> option Z).

Lemma insert_pivot_Permutation (sorted : list A) (pivot : A) :
  Permutation (pivot :: sorted) (insert_pivot comparefn sorted pivot).
Proof.
  unfold insert_pivot.
  generalize (search comparefn (List.length sorted) pivot sorted 0 (List.length sorted)).
  intros left. rewrite <- (firstn_skipn left sorted) at 1.
  apply Permutation_middle.
Qed.

Lemma BinaryInsertionSort_Permutation (rest sorted : list A) :
  Permutation (sorted ++ rest) (BinaryInsertionSort comparefn sorted rest).
Proof.
  unfold BinaryInsertionSort. revert sorted.
  induction rest as [|pivot rest IH]; intros sorted; cbn [fold_left].
  - now rewrite app_nil_r.
  - rewrite <- IH, <- insert_pivot_Permutation.
    symmetry. apply Permutation_middle.
Qed.

Lemma extend_run_app (descending : bool) (l : list A) :
  forall previous,
    fst (extend_run comparefn descending previous l)
    ++ snd (extend_run comparefn descending previous l) = l.
Proof.
  induction l as [|current l IH]; intros previous; cbn [extend_run];
    [reflexivity|].
  destruct (if descending then _ else _); [reflexivity|].
  specialize (IH current).
  destruct (extend_run comparefn descending current l) as [run rest].
  cbn [fst snd] in *. cbn [app]. now rewrite IH.
Qed.

Lemma CountAndMakeRun_Permutation (l : list A) :
  Permutation l
    (fst (CountAndMakeRun comparefn l) ++ snd (CountAndMakeRun comparefn l)).
Proof.
  destruct l as [|first [|second l]]; cbn [CountAndMakeRun fst snd];
    try (rewrite app_nil_r; reflexivity).
  pose proof (extend_run_app (SortCompare comparefn second first <? 0) l second)
    as Happ.
  destruct (extend_run comparefn (SortCompare comparefn second first <? 0) second l)
    as [run rest].
  cbn [fst snd] in *. rewrite <- Happ at 1.
  change (first :: second :: run ++ rest) with ((first :: second :: run) ++ rest).
  destruct (SortCompare comparefn second first <? 0); [|reflexivity].
  apply Permutation_app_tail, Permutation_rev.
Qed.

Lemma sort_Permutation (l : list A) : Permutation l (sort comparefn l).
Proof.
  unfold sort. pose proof (CountAndMakeRun_Permutation l) as H.
  destruct (CountAndMakeRun comparefn l) as [run rest]. cbn [fst snd] in H.
  rewrite H at 1. apply BinaryInsertionSort_Permutation.
Qed.

(** The binary search finds the border between the elements that the
    pivot does not precede and those it precedes. *)
Lemma search_split (pivot : A) (l1 l2 : list A) :
  Forall (fun x => (SortCompare comparefn pivot x <? 0) = false) l1 ->
  Forall (fun x => (SortCompare comparefn pivot x <? 0) = true) l2 ->
  forall turns left right,
    (left <= List.length l1 <= right)%nat ->
    (right <= List.length (l1 ++ l2))%nat ->
    (right - left <= turns)%nat ->
    search comparefn turns pivot (l1 ++ l2) left right = List.length l1.
Proof.
  intros H1 H2. rewrite Forall_forall in H1, H2.
  induction turns as [|turns IH]; intros left right Hl Hr Ht; cbn [search];
    [lia|].
  destruct (Nat.ltb_spec left right) as [Hlt|Hge]; [|lia].
  pose proof (Nat.div_lt (right - left) 2) as Hhalf.
  rewrite length_app in Hr.
  destruct (Nat.lt_ge_cases (left + (right - left) / 2) (List.length l1))
    as [Hin|Hout].
  - rewrite app_nth1 by assumption.
    rewrite (H1 _ (nth_In l1 pivot Hin)).
    apply IH; rewrite ?length_app; lia.
  - rewrite app_nth2 by assumption.
    assert (Hin : (left + (right - left) / 2 - List.length l1 < List.length l2)%nat)
      by lia.
    rewrite (H2 _ (nth_In l2 pivot Hin)).
    apply IH; rewrite ?length_app; lia.
Qed.

Lemma insert_pivot_split (pivot : A) (l1 l2 : list A) :
  Forall (fun x => (SortCompare comparefn pivot x <? 0) = false) l1 ->
  Forall (fun x => (SortCompare comparefn pivot x <? 0) = true) l2 ->
  insert_pivot comparefn (l1 ++ l2) pivot = l1 ++ pivot :: l2.
Proof.
  intros H1 H2. unfold insert_pivot.
  rewrite (search_split pivot l1 l2 H1 H2) by (rewrite ?length_app; lia).
  rewrite firstn_app, skipn_app, Nat.sub_diag, firstn_all, skipn_all.
  cbn [firstn skipn app]. now rewrite app_nil_r.
Qed.

End SortFacts.

Lemma StronglySorted_app_inv {A : Type} (R : A -> A -> Prop) (l1 l2 : list A) :
  StronglySorted R (l1 ++ l2) ->
  StronglySorted R l1 /\ StronglySorted R l2
  /\ forall a b, In a l1 -> In b l2 -> R a b.
Proof.
  induction l1 as [|x l1 IH]; cbn [app]; intros H.
  - split; [constructor|]. split; [assumption|]. intros a b [].
  - apply StronglySorted_inv in H. destruct H as [H Hx].
    destruct (IH H) as (S1 & S2 & Hcross).
    apply Forall_app in Hx. destruct Hx as [Hx1 Hx2].
    split; [now constructor|]. split; [assumption|].
    intros a b [<-|Ha] Hb.
    + rewrite Forall_forall in Hx2. now apply Hx2.
    + now apply Hcross.
Qed.

Lemma StronglySorted_app_intro {A : Type} (R : A -> A -> Prop) (l1 l2 : list A) :
  StronglySorted R l1 -> StronglySorted R l2 ->
  (forall a b, In a l1 -> In b l2 -> R a b) ->
  StronglySorted R (l1 ++ l2).
Proof.
  induction l1 as [|x l1 IH]; cbn [app]; intros S1 S2 Hcross; [assumption|].
  apply StronglySorted_inv in S1. destruct S1 as [S1 Hx].
  constructor.
  - apply IH; [assumption | assumption |].
    intros a b Ha Hb. apply Hcross; [now right | assumption].
  - apply Forall_app. split; [assumption|].
    apply Forall_forall. intros b Hb. apply Hcross; [now left | assumption].
Qed.

Lemma filter_none {A : Type} (f : A -> bool) (l : list A) :
  (forall a, In a l -> f a = false) -> filter f l = [].
Proof.
  induction l as [|x l IH]; intros H; [reflexivity|].
  cbn [filter]. rewrite (H x (or_introl eq_refl)).
  apply IH. intros a Ha. apply H. now right.
Qed.

Section SortByDate.

Variable E : Env.

Lemma SortCompare_dated (x y : RSSItem) (tx ty : Z) :
  getTime E x = Some tx -> getTime E y = Some ty ->
  SortCompare (newest_first E) x y = ty - tx.
Proof.
  intros Hx Hy. unfold SortCompare, newest_first. now rewrite Hx, Hy.
Qed.

Lemma not_older_trans (a b c : RSSItem) :
  not_older E a b -> not_older E b c -> not_older E a c.
Proof.
  intros (ta & tb & Ha & Hb & Hab) (tb' & tc & Hb' & Hc & Hbc).
  rewrite Hb in Hb'. injection Hb' as <-.
  exists ta, tc. repeat split; try assumption. lia.
Qed.

Lemma older_trans (a b c : RSSItem) :
  older E a b -> older E b c -> older E a c.
Proof.
  intros (ta & tb & Ha & Hb & Hab) (tb' & tc & Hb' & Hc & Hbc).
  rewrite Hb in Hb'. injection Hb' as <-.
  exists ta, tc. repeat split; try assumption. lia.
Qed.

(** A descending list splits at the place of a dated pivot. *)
Lemma pivot_place (pivot : RSSItem) (tp : Z) (l : list RSSItem) :
  getTime E pivot = Some tp -> Forall (dated E) l -> DescendingByDate E l ->
  exists l1 l2,
    l = l1 ++ l2
    /\ Forall (fun x => exists tx, getTime E x = Some tx /\ tp <= tx) l1
    /\ Forall (fun x => exists tx, getTime E x = Some tx /\ tx < tp) l2.
Proof.
  intros Hp. induction l as [|x l IH]; intros Hd Hs.
  - exists [], []. repeat constructor.
  - apply Forall_cons_iff in Hd. destruct Hd as [Hx Hd].
    apply StronglySorted_inv in Hs. destruct Hs as [Hs Hxl].
    unfold dated in Hx.
    destruct (getTime E x) as [tx|] eqn:Htx; [|congruence].
    destruct (Z_le_gt_dec tp tx) as [Hle|Hgt].
    + destruct (IH Hd Hs) as (l1 & l2 & -> & H1 & H2).
      exists (x :: l1), l2. split; [reflexivity|]. split; [|assumption].
      constructor; [|assumption]. exists tx. now split.
    + exists [], (x :: l). split; [reflexivity|]. split; [constructor|].
      constructor; [exists tx; split; [assumption | lia]|].
      eapply Forall_impl; [|exact Hxl].
      intros y (tx' & ty & Hx' & Hy & Hyx).
      rewrite Htx in Hx'. injection Hx' as <-.
      exists ty. split; [assumption | lia].
Qed.

Lemma insert_pivot_dated (pivot : RSSItem) (tp : Z) (l1 l2 : list RSSItem) :
  getTime E pivot = Some tp ->
  Forall (fun x => exists tx, getTime E x = Some tx /\ tp <= tx) l1 ->
  Forall (fun x => exists tx, getTime E x = Some tx /\ tx < tp) l2 ->
  insert_pivot (newest_first E) (l1 ++ l2) pivot = l1 ++ pivot :: l2.
Proof.
  intros Hp H1 H2. apply insert_pivot_split.
  - eapply Forall_impl; [|exact H1]. intros x (tx & Hx & Hle).
    rewrite (SortCompare_dated pivot x tp tx Hp Hx). apply Z.ltb_ge. lia.
  - eapply Forall_impl; [|exact H2]. intros x (tx & Hx & Hlt).
    rewrite (SortCompare_dated pivot x tp tx Hp Hx). apply Z.ltb_lt. lia.
Qed.

(** The pivot comes to stand behind the articles that are not older,
    those of its own instant among them. *)
Lemma insert_pivot_sorted (pivot : RSSItem) (l : list RSSItem) :
  dated E pivot -> Forall (dated E) l -> DescendingByDate E l ->
  DescendingByDate E (insert_pivot (newest_first E) l pivot)
  /\ forall t,
       filter (published_at E t) (insert_pivot (newest_first E) l pivot)
       = filter (published_at E t) (l ++ [pivot]).
Proof.
  intros Hp Hd Hs. unfold dated in Hp.
  destruct (getTime E pivot) as [tp|] eqn:Htp; [|congruence].
  destruct (pivot_place pivot tp l Htp Hd Hs) as (l1 & l2 & -> & H1 & H2).
  rewrite (insert_pivot_dated pivot tp l1 l2 Htp H1 H2).
  destruct (StronglySorted_app_inv _ l1 l2 Hs) as (S1 & S2 & Hcross).
  split.
  - apply StronglySorted_app_intro; [assumption | |].
    + constructor; [assumption|].
      eapply Forall_impl; [|exact H2]. intros x (tx & Hx & Hlt).
      exists tp, tx. repeat split; try assumption. lia.
    + intros a b Ha [<-|Hb]; [|now apply Hcross].
      rewrite Forall_forall in H1. destruct (H1 a Ha) as (ta & Hta & Hle).
      exists ta, tp. repeat split; assumption.
  - intros t. rewrite !filter_app. cbn [filter].
    destruct (published_at E t pivot) eqn:Hpt; [|now rewrite app_nil_r].
    rewrite (filter_none (published_at E t) l2); [now rewrite app_nil_r|].
    intros x Hin. rewrite Forall_forall in H2.
    destruct (H2 x Hin) as (tx & Hx & Hlt).
    unfold published_at in *. rewrite Htp in Hpt. rewrite Hx.
    apply Z.eqb_eq in Hpt. apply Z.eqb_neq. lia.
Qed.

Lemma BinaryInsertionSort_sorted (rest : list RSSItem) :
  forall sorted,
    Forall (dated E) sorted -> Forall (dated E) rest ->
    DescendingByDate E sorted ->
    DescendingByDate E (BinaryInsertionSort (newest_first E) sorted rest)
    /\ forall t,
         filter (published_at E t)
           (BinaryInsertionSort (newest_first E) sorted rest)
         = filter (published_at E t) (sorted ++ rest).
Proof.
  unfold BinaryInsertionSort.
  induction rest as [|pivot rest IH]; intros sorted Hs Hr Hd; cbn [fold_left].
  - rewrite app_nil_r. now split.
  - apply Forall_cons_iff in Hr. destruct Hr as [Hp Hr].
    destruct (insert_pivot_sorted pivot sorted Hp Hs Hd) as [Hd' Hf].
    assert (Hs' : Forall (dated E) (insert_pivot (newest_first E) sorted pivot)).
    { apply (Permutation_Forall (insert_pivot_Permutation _ sorted pivot)).
      now constructor. }
    destruct (IH _ Hs' Hr Hd') as [Hd'' Hf'']. split; [assumption|].
    intros t. rewrite Hf'', !filter_app, Hf, filter_app.
    cbn [filter].
    destruct (published_at E t pivot); cbn [app];
      rewrite <- ?app_assoc, ?app_nil_r; reflexivity.
Qed.

(** A run that the comparator calls ascending is in descending order of
    publish time. *)
Lemma extend_run_ascending (l : list RSSItem) :
  forall previous,
    Forall (dated E) (previous :: l) ->
    DescendingByDate E
      (previous :: fst (extend_run (newest_first E) false previous l)).
Proof.
  induction l as [|current l IH]; intros previous Hd; cbn [extend_run].
  - repeat constructor.
  - apply Forall_cons_iff in Hd. destruct Hd as [Hp Hd].
    pose proof Hd as Hcl. apply Forall_cons_iff in Hd. destruct Hd as [Hc _].
    unfold dated in Hp, Hc.
    destruct (getTime E previous) as [tp|] eqn:Htp; [|congruence].
    destruct (getTime E current) as [tc|] eqn:Htc; [|congruence].
    rewrite (SortCompare_dated current previous tc tp Htc Htp).
    destruct (Z.ltb_spec (tp - tc) 0) as [Hlt|Hge];
      [repeat constructor|].
    specialize (IH current Hcl).
    destruct (extend_run (newest_first E) false current l) as [run rest].
    cbn [fst] in *.
    assert (Hpc : not_older E previous current).
    { exists tp, tc. repeat split; try assumption. lia. }
    constructor; [exact IH|]. constructor; [exact Hpc|].
    apply StronglySorted_inv in IH. destruct IH as [_ Hrun].
    eapply Forall_impl; [|exact Hrun].
    intros z Hz. now apply (not_older_trans previous current z).
Qed.

(** A run that the comparator calls strictly descending goes from older
    to newer. *)
Lemma extend_run_descending (l : list RSSItem) :
  forall previous,
    Forall (dated E) (previous :: l) ->
    StronglySorted (older E)
      (previous :: fst (extend_run (newest_first E) true previous l)).
Proof.
  induction l as [|current l IH]; intros previous Hd; cbn [extend_run].
  - repeat constructor.
  - apply Forall_cons_iff in Hd. destruct Hd as [Hp Hd].
    pose proof Hd as Hcl. apply Forall_cons_iff in Hd. destruct Hd as [Hc _].
    unfold dated in Hp, Hc.
    destruct (getTime E previous) as [tp|] eqn:Htp; [|congruence].
    destruct (getTime E current) as [tc|] eqn:Htc; [|congruence].
    rewrite (SortCompare_dated current previous tc tp Htc Htp).
    destruct (Z.leb_spec 0 (tp - tc)) as [Hge|Hlt];
      [repeat constructor|].
    specialize (IH current Hcl).
    destruct (extend_run (newest_first E) true current l) as [run rest].
    cbn [fst] in *.
    assert (Hpc : older E previous current).
    { exists tp, tc. repeat split; try assumption. lia. }
    constructor; [exact IH|]. constructor; [exact Hpc|].
    apply StronglySorted_inv in IH. destruct IH as [_ Hrun].
    eapply Forall_impl; [|exact Hrun].
    intros z Hz. now apply (older_trans previous current z).
Qed.

(** Reversing a run that goes from older to newer gives a descending
    list; no two of its articles share an instant. *)
Lemma rev_older_run (l : list RSSItem) :
  StronglySorted (older E) l ->
  DescendingByDate E (rev l)
  /\ forall t, filter (published_at E t) (rev l) = filter (published_at E t) l.
Proof.
  induction l as [|x l IH]; intros Hs; [split; [constructor | reflexivity]|].
  apply StronglySorted_inv in Hs. destruct Hs as [Hs Hx].
  destruct (IH Hs) as [Hd Hf]. cbn [rev]. split.
  - apply StronglySorted_app_intro; [exact Hd | repeat constructor |].
    intros a b Ha [<-|[]]. apply in_rev in Ha.
    rewrite Forall_forall in Hx.
    destruct (Hx a Ha) as (tx & ta & Htx & Hta & Hlt).
    exists ta, tx. repeat split; try assumption. lia.
  - intros t. rewrite filter_app, Hf. cbn [filter].
    destruct (published_at E t x) eqn:Hpx; [|now rewrite app_nil_r].
    rewrite (filter_none (published_at E t) l); [reflexivity|].
    intros a Hin. rewrite Forall_forall in Hx.
    destruct (Hx a Hin) as (tx & ta & Htx & Hta & Hlt).
    unfold published_at in *. rewrite Htx in Hpx. rewrite Hta.
    apply Z.eqb_eq in Hpx. apply Z.eqb_neq. lia.
Qed.

Lemma CountAndMakeRun_sorted (l : list RSSItem) :
  Forall (dated E) l ->
  DescendingByDate E (fst (CountAndMakeRun (newest_first E) l))
  /\ forall t,
       filter (published_at E t)
         (fst (CountAndMakeRun (newest_first E) l)
          ++ snd (CountAndMakeRun (newest_first E) l))
       = filter (published_at E t) l.
Proof.
  destruct l as [|first [|second l]]; intros Hd; cbn [CountAndMakeRun fst snd].
  - split; [constructor | reflexivity].
  - split; [repeat constructor | reflexivity].
  - apply Forall_cons_iff in Hd. destruct Hd as [Hf Hd].
    pose proof Hd as Hsl. apply Forall_cons_iff in Hd. destruct Hd as [Hs _].
    unfold dated in Hf, Hs.
    destruct (getTime E first) as [tf|] eqn:Htf; [|congruence].
    destruct (getTime E second) as [ts|] eqn:Hts; [|congruence].
    rewrite (SortCompare_dated second first ts tf Hts Htf).
    destruct (Z.ltb_spec (tf - ts) 0) as [Hlt|Hge].
    + pose proof (extend_run_app (newest_first E) true l second) as Happ.
      pose proof (extend_run_descending l second Hsl) as Hrun.
      destruct (extend_run (newest_first E) true second l) as [run rest].
      cbn [fst snd] in *.
      assert (Hwhole : StronglySorted (older E) (first :: second :: run)).
      { assert (Hfs : older E first second).
        { exists tf, ts. repeat split; try assumption. lia. }
        constructor; [exact Hrun|]. constructor; [exact Hfs|].
        apply StronglySorted_inv in Hrun. destruct Hrun as [_ Hrun].
        eapply Forall_impl; [|exact Hrun].
        intros z Hz. now apply (older_trans first second z). }
      destruct (rev_older_run _ Hwhole) as [Hdesc Hsame].
      split; [exact Hdesc|].
      intros t. rewrite filter_app, Hsame, <- filter_app.
      cbn [app]. now rewrite Happ.
    + pose proof (extend_run_app (newest_first E) false l second) as Happ.
      pose proof (extend_run_ascending l second Hsl) as Hrun.
      destruct (extend_run (newest_first E) false second l) as [run rest].
      cbn [fst snd] in *. split.
      * assert (Hfs : not_older E first second).
        { exists tf, ts. repeat split; try assumption. lia. }
        constructor; [exact Hrun|]. constructor; [exact Hfs|].
        apply StronglySorted_inv in Hrun. destruct Hrun as [_ Hrun].
        eapply Forall_impl; [|exact Hrun].
        intros z Hz. now apply (not_older_trans first second z).
      * intros t. cbn [app]. now rewrite Happ.
Qed.

(** When every publish date parses, the sort gives the articles in
    descending order, those of one instant in the order they had. *)
Lemma sort_sorted (l : list RSSItem) :
  Forall (dated E) l ->
  DescendingByDate E (sort (newest_first E) l)
  /\ SameOrderWithinInstant E l (sort (newest_first E) l).
Proof.
  intros Hd. unfold sort, SameOrderWithinInstant.
  destruct (CountAndMakeRun_sorted l Hd) as [Hrun Hsame].
  pose proof (CountAndMakeRun_Permutation (newest_first E) l) as Hperm.
  destruct (CountAndMakeRun (newest_first E) l) as [run rest].
  cbn [fst snd] in *.
  apply (Permutation_Forall Hperm) in Hd.
  apply Forall_app in Hd. destruct Hd as [Hdr Hdt].
  destruct (BinaryInsertionSort_sorted rest run Hdr Hdt Hrun) as [Hdesc Hf].
  split; [exact Hdesc|].
  intros t. now rewrite Hf, Hsame.
Qed.

Lemma sort_instant (l : list RSSItem) :
  Forall (dated E) l -> SameOrderWithinInstant E l (sort (newest_first E) l).
Proof. intros Hd. now apply sort_sorted. Qed.

Lemma sort_descending (l : list RSSItem) :
  Forall (dated E) l -> DescendingByDate E (sort (newest_first E) l).
Proof. intros Hd. now apply sort_sorted. Qed.

End SortByDate.

(** ** Running the effects *)

Lemma bind_run {A B : Type} (m : M A) (k : A -> M B) (w : World) :
  bind m k w = k (fst (m w)) (snd (m w)).
Proof. unfold bind. now destruct (m w). Qed.

Lemma mapM_ext {A B : Type} (f g : A -> M B) (l : list A) :
  (forall a w, f a w = g a w) -> forall w, mapM f l w = mapM g l w.
Proof.
  intros Hfg. induction l as [|a l IH]; intros w; [reflexivity|].
  cbn [mapM]. rewrite !bind_run, Hfg, IH. reflexivity.
Qed.

Lemma parseURL_served (E : Env) (url : string) (w : World) (parsedFeed : ParsedFeed) :
  fst (parseURL E url w) = Some parsedFeed -> served E parsedFeed.
Proof. intros H. now exists url, (requests_to url (events w)). Qed.

Lemma fetchFeedWithRetry_served (E : Env) (url : string) (retries : nat) :
  forall (w : World) (parsedFeed : ParsedFeed),
    fst (Generator.fetchFeedWithRetry E url retries w) = Some parsedFeed ->
    served E parsedFeed.
Proof.
  induction retries as [|k IH]; intros w parsedFeed; cbn [Generator.fetchFeedWithRetry];
    rewrite bind_run;
    destruct (fst (parseURL E url w)) as [got|] eqn:Hgot.
  - intros [= <-]. now apply (parseURL_served E url w).
  - discriminate.
  - intros [= <-]. now apply (parseURL_served E url w).
  - rewrite bind_run. apply IH.
Qed.

Section ForallCollected.

Variable E : Env.
Variable P : RSSItem -> Prop.

Lemma generator_source_Forall (user : User) (url : string) (w : World) :
  (forall parsedFeed, served E parsedFeed ->
     Forall P (Generator.feed_articles E user parsedFeed)) ->
  Forall P (fst (Generator.source_articles E user url w)).
Proof.
  intros HP. unfold Generator.source_articles. rewrite bind_run.
  destruct (fst (Generator.fetchFeedWithRetry E url 3 w)) as [got|] eqn:Hgot.
  - apply HP. now apply (fetchFeedWithRetry_served E url 3 w).
  - rewrite bind_run. constructor.
Qed.

Lemma generator_mapM_Forall (user : User) (urls : list string) :
  (forall parsedFeed, served E parsedFeed ->
     Forall P (Generator.feed_articles E user parsedFeed)) ->
  forall w, Forall P (List.concat (fst (mapM (Generator.source_articles E user) urls w))).
Proof.
  intros HP. induction urls as [|url urls IH]; intros w; cbn [mapM].
  - constructor.
  - rewrite !bind_run. cbn [ret fst List.concat].
    apply Forall_app. split; [now apply generator_source_Forall | apply IH].
Qed.

Lemma generator_collect_Forall (us : list User) :
  (forall user parsedFeed, In user us -> served E parsedFeed ->
     Forall P (Generator.feed_articles E user parsedFeed)) ->
  forall processedUrls w, Forall P (fst (Generator.collect E us processedUrls w)).
Proof.
  induction us as [|user us IH]; intros HP processedUrls w; cbn [Generator.collect].
  - constructor.
  - rewrite !bind_run. cbn [ret fst].
    apply Forall_app. split.
    + apply generator_mapM_Forall. intros parsedFeed. apply HP. now left.
    + apply IH. intros u parsedFeed Hu. apply HP. now right.
Qed.

Lemma fallback_sources_Forall (user : User) (joinDate leftDate : option Z)
  (srcs : list string) :
  (forall parsedFeed, served E parsedFeed ->
     Forall P (ArticlesApi.feed_articles E user joinDate leftDate parsedFeed)) ->
  forall w,
    Forall P (fst (ArticlesApi.collect_sources E user joinDate leftDate srcs w)).
Proof.
  intros HP. induction srcs as [|url srcs IH]; intros w;
    cbn [ArticlesApi.collect_sources].
  - constructor.
  - destruct (truthy_string url); [|apply IH].
    rewrite bind_run.
    destruct (fst (parseURL E url w)) as [got|] eqn:Hgot;
      rewrite !bind_run; cbn [ret fst]; apply Forall_app; split;
      try apply IH.
    + apply HP. now apply (parseURL_served E url w).
    + constructor.
Qed.

Lemma fallback_collect_Forall (us : list User) :
  (forall user j parsedFeed, In user us -> joined user = Some j ->
     served E parsedFeed ->
     Forall P (ArticlesApi.feed_articles E user (first_of_month E j)
                 (leftDate E user) parsedFeed)) ->
  forall w l, fst (ArticlesApi.collect E us w) = Some l -> Forall P l.
Proof.
  induction us as [|user us IH]; intros HP w l; cbn [ArticlesApi.collect].
  - intros [= <-]. constructor.
  - destruct (joined user) as [j|] eqn:Hj; [|discriminate].
    rewrite !bind_run. cbn [ret fst].
    match goal with
    | |- option_map _ (fst (ArticlesApi.collect E us ?w1)) = _ -> _ =>
        destruct (fst (ArticlesApi.collect E us w1)) as [more|] eqn:Hmore
    end; [|discriminate].
    intros [= <-]. apply Forall_app. split.
    + apply fallback_sources_Forall. intros parsedFeed.
      apply (HP user j); [now left | assumption].
    + apply (IH (fun u j' f Hu => HP u j' f (or_intror Hu)) _ _ Hmore).
Qed.

End ForallCollected.

(** ** The two aggregation paths *)

Lemma generateFeedJson_run (E : Env) (config : ConfigYaml) (w : World) :
  config_yaml E = inr config -> fs_write_error E = None ->
  let run := Generator.collect E (users config) [] w in
  Generator.generateFeedJson E w
  = ({| Generator.success := true; Generator.error := None |},
     {| events := events (snd run);
        feed_json := Some (sort (newest_first E) (fst run));
        users_json := Some (users config);
        cachedArticles := cachedArticles (snd run);
        articles_cacheTime := articles_cacheTime (snd run);
        cachedUsers := cachedUsers (snd run);
        users_cacheTime := users_cacheTime (snd run) |}).
Proof.
  intros Hc Hw run. unfold Generator.generateFeedJson. rewrite Hc, bind_run, Hw.
  reflexivity.
Qed.

Lemma live_fetch_result (E : Env) (t : Z) (w : World) :
  fst (ArticlesApi.live_fetch E t w)
  = match config_yaml E with
    | inl _ => []
    | inr config =>
        match fst (ArticlesApi.collect E (users config) w) with
        | Some collected => sort (newest_first E) collected
        | None => []
        end
    end.
Proof.
  unfold ArticlesApi.live_fetch. destruct (config_yaml E) as [msg|config];
    [reflexivity|].
  rewrite bind_run.
  now destruct (fst (ArticlesApi.collect E (users config) w)).
Qed.

Lemma getAllArticles_live (E : Env) (w : World) :
  ArticlesApi.cache_hit w (Date_now E (events w)) = None ->
  ArticlesApi.snapshot w = None ->
  ArticlesApi.getAllArticles E w = ArticlesApi.live_fetch E (Date_now E (events w)) w.
Proof.
  intros Hc Hs. unfold ArticlesApi.getAllArticles. now rewrite Hc, Hs.
Qed.

Lemma getTime_decorate (E : Env) (user : User) (parsedFeed : ParsedFeed) (item : Item) :
  getTime E (decorate user parsedFeed item) = new_Date_string E (item_pubDate item).
Proof. reflexivity. Qed.

Lemma fallback_feed_dated (E : Env) (user : User) (joinDate leftDate : option Z)
  (parsedFeed : ParsedFeed) :
  Forall (dated E) (ArticlesApi.feed_articles E user joinDate leftDate parsedFeed).
Proof.
  unfold ArticlesApi.feed_articles. apply Forall_forall. intros a Ha.
  apply in_map_iff in Ha. destruct Ha as (item & <- & Hitem).
  apply filter_In in Hitem. destruct Hitem as [_ Hkeep].
  apply andb_true_iff in Hkeep. destruct Hkeep as [_ Hin].
  apply within_true in Hin. destruct Hin as (s & p & e & _ & Hp & _).
  unfold dated. rewrite getTime_decorate, Hp. discriminate.
Qed.

Lemma dated_forallb (E : Env) (l : list RSSItem) :
  forallb (fun a => match getTime E a with Some _ => true | None => false end) l = true ->
  Forall (dated E) l.
Proof.
  intros H. apply Forall_forall. intros a Ha.
  rewrite forallb_forall in H. specialize (H a Ha).
  unfold dated. destruct (getTime E a); [discriminate | discriminate].
Qed.

(** The sort on an array in which one publish date does not parse: the
    run at the front is reversed, the article without a time stays where
    the binary search compares it as equal, and the newest article is
    inserted at the front. *)
Example sort_with_an_unparseable_date :
  map pubDate
    (sort (newest_first garbled_env)
       [sample_article "erin" "2021-01-01" None;
        sample_article "erin" "2021-03-01" None;
        sample_article "erin" "bad" None;
        sample_article "erin" "2021-05-01" None])
  = [Some "2021-05-01"; Some "2021-03-01"; Some "2021-01-01"; Some "bad"].
Proof. reflexivity. Qed.

(** C4.  The generator on a feed whose second item carries a publish
    date that does not parse (the items are dated 2021-01-01, "garbage",
    2021-05-01).  The run succeeds and writes the three articles in the
    order in which it collected them: the article of January stands
    before the article of May, and the aggregate is not in descending
    order of publish time.  The comparator answers [NaN] on every pair
    with the unparseable date, which the sort takes as "equal".  The
    live fetch of the articles endpoint, on the same configuration and
    feed, drops the article without a time and returns May before
    January. *)
Theorem generator_aggregate_out_of_order :
  let run := Generator.generateFeedJson garbled_env blank_world in
  Generator.success (fst run) = true
  /\ option_map (map pubDate) (feed_json (snd run))
     = Some [Some "2021-01-01"; Some "garbage"; Some "2021-05-01"]
  /\ (forall aggregate,
        feed_json (snd run) = Some aggregate ->
        (exists january garbage may,
           aggregate = [january; garbage; may]
           /\ older garbled_env january may
           /\ getTime garbled_env garbage = None)
        /\ ~ DescendingByDate garbled_env aggregate)
  /\ map pubDate (fst (ArticlesApi.getAllArticles garbled_env blank_world))
     = [Some "2021-05-01"; Some "2021-01-01"].
Proof.
  cbv zeta.
  split; [vm_compute; reflexivity|].
  split; [vm_compute; reflexivity|].
  split; [|vm_compute; reflexivity].
  intros aggregate Hwritten. vm_compute in Hwritten.
  injection Hwritten as <-. split.
  - eexists _, _, _. split; [reflexivity|]. split; [|vm_compute; reflexivity].
    eexists _, _. split; [vm_compute; reflexivity|].
    split; [vm_compute; reflexivity | reflexivity].
  - intros Hsorted. apply StronglySorted_inv in Hsorted.
    destruct Hsorted as [_ Hfirst].
    apply Forall_cons_iff in Hfirst.
    destruct Hfirst as [(ta & tb & _ & Hgarbage & _) _].
    vm_compute in Hgarbage. discriminate.
Qed.

(** X22.  When the publish date of every collected article parses, the
    aggregate that the generator writes is a permutation of the
    collected articles, in descending order of publish time, in which
    the articles of any one instant keep the order in which they were
    collected.  The live fetch of the articles endpoint collects no
    other article, so its aggregate has these properties outright.
    When neither the cache nor a snapshot file answers,
    [getAllArticles] returns the aggregate of the live fetch. *)
Theorem aggregate_is_sorted_and_stable (E : Env) (w : World) :
  (forall config,
     config_yaml E = inr config -> fs_write_error E = None ->
     let collected := fst (Generator.collect E (users config) [] w) in
     Forall (dated E) collected ->
     exists aggregate,
       feed_json (snd (Generator.generateFeedJson E w)) = Some aggregate
       /\ Permutation collected aggregate
       /\ SameOrderWithinInstant E collected aggregate
       /\ DescendingByDate E aggregate)
  /\ (forall t,
       let aggregate := fst (ArticlesApi.live_fetch E t w) in
       DescendingByDate E aggregate
       /\ (forall config collected,
             config_yaml E = inr config ->
             fst (ArticlesApi.collect E (users config) w) = Some collected ->
             Forall (dated E) collected
             /\ Permutation collected aggregate
             /\ SameOrderWithinInstant E collected aggregate))
  /\ (ArticlesApi.cache_hit w (Date_now E (events w)) = None ->
      ArticlesApi.snapshot w = None ->
      fst (ArticlesApi.getAllArticles E w)
      = fst (ArticlesApi.live_fetch E (Date_now E (events w)) w)).
Proof.
  assert (Hlive : forall config collected,
            fst (ArticlesApi.collect E (users config) w) = Some collected ->
            Forall (dated E) collected).
  { intros config collected Hcol.
    apply (fallback_collect_Forall E (dated E) (users config)) with (w := w);
      [|exact Hcol].
    intros user j parsedFeed _ _ _. apply fallback_feed_dated. }
  split; [|split].
  - intros config Hc Hw collected Hdated.
    exists (sort (newest_first E) collected).
    rewrite (generateFeedJson_run E config w Hc Hw). cbn [snd feed_json].
    split; [reflexivity|].
    split; [apply sort_Permutation|].
    split; [now apply sort_instant | now apply sort_descending].
  - intros t aggregate. subst aggregate. rewrite live_fetch_result. split.
    + destruct (config_yaml E) as [msg|config]; [constructor|].
      destruct (fst (ArticlesApi.collect E (users config) w)) as [collected|] eqn:Hcol;
        [|constructor].
      apply sort_descending. now apply (Hlive config).
    + intros config collected Hc Hcol. rewrite Hc, Hcol.
      pose proof (Hlive config collected Hcol) as Hdated.
      split; [exact Hdated|].
      split; [apply sort_Permutation | now apply sort_instant].
  - intros Hc Hs. now rewrite getAllArticles_live.
Qed.

(** The sample configuration: what the generator collects is dated, and
    the aggregate it writes is in descending order. *)
Lemma aggregate_is_sorted_and_stable_witness :
  Forall (dated sample_env)
    (fst (Generator.collect sample_env (users sample_config) [] blank_world))
  /\ exists aggregate,
       feed_json (snd (Generator.generateFeedJson sample_env blank_world))
       = Some aggregate
       /\ DescendingByDate sample_env aggregate.
Proof.
  assert (Hdated : Forall (dated sample_env)
            (fst (Generator.collect sample_env (users sample_config) [] blank_world))).
  { apply dated_forallb. vm_compute. reflexivity. }
  split; [exact Hdated|].
  destruct (proj1 (aggregate_is_sorted_and_stable sample_env blank_world)
              sample_config eq_refl eq_refl Hdated)
    as (aggregate & Hwritten & _ & _ & Hsorted).
  now exists aggregate.
Defined.

Example sample_generator_aggregate :
  option_map (map (fun a => (author a, pubDate a, isDuringEmployment a)))
    (feed_json (snd (Generator.generateFeedJson sample_env blank_world)))
  = Some [("alice", Some "2021-07-01", Some false);
          ("bob", Some "2021-06-15", Some true);
          ("alice", Some "2021-05-01", Some true);
          ("bob", Some "2021-05-01", Some true)].
Proof. reflexivity. Qed.

Example sample_live_aggregate :
  map (fun a => (author a, pubDate a, isDuringEmployment a))
    (fst (ArticlesApi.getAllArticles sample_env blank_world))
  = [("bob", Some "2021-06-15", None);
     ("alice", Some "2021-05-01", None);
     ("bob", Some "2021-05-01", None)].
Proof. reflexivity. Qed.

(** ** Environments with the same dates *)

Section SameDates.

Variables E1 E2 : Env.
Hypothesis same_parse : Date_parse E1 = Date_parse E2.
Hypothesis same_zone : LocalTZA E1 = LocalTZA E2.

Lemma first_of_month_same (d : DateYearMonth) :
  first_of_month E1 d = first_of_month E2 d.
Proof. unfold first_of_month. now rewrite same_zone. Qed.

Lemma leftDate_same (user : User) : leftDate E1 user = leftDate E2 user.
Proof. unfold leftDate, first_of_month. now rewrite same_zone. Qed.

Lemma generator_feed_articles_same (user : User) (parsedFeed : ParsedFeed) :
  Generator.feed_articles E1 user parsedFeed
  = Generator.feed_articles E2 user parsedFeed.
Proof.
  unfold Generator.feed_articles, Generator.flag, Generator.joinDate, leftDate,
    within, first_of_month, new_Date_string.
  now rewrite same_parse, same_zone.
Qed.

Lemma fallback_feed_articles_same (user : User) (joinDate leftDate : option Z)
  (parsedFeed : ParsedFeed) :
  ArticlesApi.feed_articles E1 user joinDate leftDate parsedFeed
  = ArticlesApi.feed_articles E2 user joinDate leftDate parsedFeed.
Proof.
  unfold ArticlesApi.feed_articles, within, new_Date_string.
  now rewrite same_parse.
Qed.

End SameDates.

(** ** Retries *)

Lemma requests_to_app (url : string) (es es' : list Event) :
  requests_to url (es ++ es') = (requests_to url es + requests_to url es')%nat.
Proof. unfold requests_to. now rewrite filter_app, length_app. Qed.

Lemma requests_to_attempts_other (url u : string) (k : nat) :
  u <> url -> requests_to u (attempts url k) = 0%nat.
Proof.
  intros Hne. unfold requests_to.
  induction k as [|k IH]; cbn [attempts filter is_fetch];
    destruct (String.eqb_spec url u); try congruence; first [reflexivity | exact IH].
Qed.

Lemma requests_to_attempts (url : string) (k : nat) :
  requests_to url (attempts url k) = S k.
Proof.
  unfold requests_to.
  induction k as [|k IH]; cbn [attempts filter is_fetch];
    rewrite String.eqb_refl; cbn [List.length]; first [reflexivity | now rewrite IH].
Qed.

Lemma with_events_with_events (w : World) (es es' : list Event) :
  with_events (with_events w es) es' = with_events w es'.
Proof. reflexivity. Qed.

Lemma parseURL_run (E : Env) (url : string) (w : World) :
  parseURL E url w
  = (parseURL_outcome E url (requests_to url (events w)),
     with_events w (events w ++ [EFetch url])).
Proof. reflexivity. Qed.

Lemma emit_run (e : Event) (w : World) :
  emit e w = (tt, with_events w (events w ++ [e])).
Proof. reflexivity. Qed.

(** What [fetchFeedWithRetry] does: [k <= retries] retries, all requests
    before the last one failing, and the outcome of the last one. *)
Lemma fetchFeedWithRetry_run (E : Env) (url : string) (retries : nat) :
  forall w, exists k,
    (k <= retries)%nat
    /\ snd (Generator.fetchFeedWithRetry E url retries w)
       = with_events w (events w ++ attempts url k)
    /\ (forall i, (i < k)%nat ->
          parseURL_outcome E url (requests_to url (events w) + i) = None)
    /\ fst (Generator.fetchFeedWithRetry E url retries w)
       = parseURL_outcome E url (requests_to url (events w) + k)
    /\ (fst (Generator.fetchFeedWithRetry E url retries w) = None -> k = retries).
Proof.
  induction retries as [|r IH]; intros w; cbn [Generator.fetchFeedWithRetry];
    rewrite bind_run, parseURL_run; cbn [fst snd].
  - exists 0%nat. rewrite Nat.add_0_r.
    destruct (parseURL_outcome E url (requests_to url (events w))) eqn:Hout;
      cbn [ret fst snd attempts]; repeat split; auto; try lia.
  - destruct (parseURL_outcome E url (requests_to url (events w))) eqn:Hout.
    + exists 0%nat. rewrite Nat.add_0_r, Hout.
      cbn [ret fst snd attempts]. repeat split; auto; try lia. discriminate.
    + rewrite bind_run, emit_run. cbn [fst snd].
      rewrite with_events_with_events. cbn [events with_events].
      set (w1 := with_events w ((events w ++ [EFetch url]) ++ [ESleep 1000])).
      destruct (IH w1) as (k & Hk & Hsnd & Hfail & Hfst & Hnone).
      assert (Hreq : requests_to url (events w1) = S (requests_to url (events w))).
      { subst w1. cbn [events with_events]. rewrite !requests_to_app.
        unfold requests_to at 2 3. cbn [filter is_fetch].
        rewrite String.eqb_refl. cbn [List.length]. lia. }
      exists (S k). split; [lia|]. split; [|split; [|split]].
      * rewrite Hsnd. subst w1. cbn [events with_events attempts].
        rewrite <- !app_assoc. reflexivity.
      * intros i Hi. destruct i as [|i]; [now rewrite Nat.add_0_r|].
        specialize (Hfail i ltac:(lia)). rewrite Hreq in Hfail.
        now replace (requests_to url (events w) + S i)%nat
          with (S (requests_to url (events w)) + i)%nat by lia.
      * rewrite Hfst, Hreq. f_equal. lia.
      * intros Hn. f_equal. now apply Hnone.
Qed.

(** A source whose four requests all fail: three retries, a logged
    error, no article. *)
Lemma source_articles_all_fail (E : Env) (user : User) (url : string) (w : World) :
  (forall i, (i <= 3)%nat ->
     parseURL_outcome E url (requests_to url (events w) + i) = None) ->
  Generator.source_articles E user url w
  = ([], with_events w (events w ++ attempts url 3 ++ [EFeedError url])).
Proof.
  intros Hfail. unfold Generator.source_articles. rewrite bind_run.
  destruct (fetchFeedWithRetry_run E url 3 w) as (k & Hk & Hsnd & _ & Hfst & Hnone).
  rewrite (Hfail k Hk) in Hfst. specialize (Hnone Hfst). subst k.
  rewrite Hfst, Hsnd, bind_run, emit_run. cbn [ret fst snd].
  rewrite with_events_with_events. cbn [events with_events].
  now rewrite <- app_assoc.
Qed.

Lemma agree_off_refl (url : string) (w : World) : agree_off url w w.
Proof. unfold agree_off. repeat split; reflexivity. Qed.

Lemma agree_off_events (url : string) (w w' : World) (es es' : list Event) :
  agree_off url w w' ->
  (forall u, u <> url -> requests_to u es = requests_to u es') ->
  agree_off url (with_events w (events w ++ es)) (with_events w' (events w' ++ es')).
Proof.
  intros (H1 & H2 & H3 & H4 & H5 & H6 & H7) Hes.
  unfold agree_off. cbn [with_events feed_json users_json cachedArticles
    articles_cacheTime cachedUsers users_cacheTime events].
  repeat split; try assumption.
  intros u Hu. rewrite !requests_to_app, (H7 u Hu), (Hes u Hu). reflexivity.
Qed.

Section OneSourceDown.

Variable E : Env.
Variable bad : string.
Hypothesis down : forall n, parseURL_outcome E bad n = None.

Local Abbreviation E' := (serving_empty E bad).

Lemma sim_fetchFeedWithRetry (url : string) (retries : nat) :
  url <> bad ->
  forall w w', agree_off bad w w' ->
    fst (Generator.fetchFeedWithRetry E url retries w)
    = fst (Generator.fetchFeedWithRetry E' url retries w')
    /\ agree_off bad (snd (Generator.fetchFeedWithRetry E url retries w))
         (snd (Generator.fetchFeedWithRetry E' url retries w')).
Proof.
  intros Hne. induction retries as [|r IH]; intros w w' Hag;
    cbn [Generator.fetchFeedWithRetry]; rewrite !bind_run, !parseURL_run;
    cbn [fst snd]; cbn [serving_empty parseURL_outcome];
    destruct (String.eqb_spec url bad) as [|_]; try contradiction;
    assert (Hreq : requests_to url (events w) = requests_to url (events w'))
      by (now apply Hag);
    rewrite <- Hreq;
    assert (Hag1 : agree_off bad (with_events w (events w ++ [EFetch url]))
                     (with_events w' (events w' ++ [EFetch url])))
      by (now apply agree_off_events);
    destruct (parseURL_outcome E url (requests_to url (events w))) as [got|];
    cbn [ret fst snd]; try (split; [reflexivity | exact Hag1]).
  rewrite !bind_run, !emit_run. cbn [fst snd].
  apply IH. now apply agree_off_events.
Qed.

Lemma sim_source_articles (user : User) (url : string) :
  forall w w', agree_off bad w w' ->
    fst (Generator.source_articles E user url w)
    = fst (Generator.source_articles E' user url w')
    /\ agree_off bad (snd (Generator.source_articles E user url w))
         (snd (Generator.source_articles E' user url w')).
Proof.
  intros w w' Hag. destruct (String.eqb_spec url bad) as [->|Hne].
  - rewrite source_articles_all_fail by (intros; apply down).
    unfold Generator.source_articles. cbn [Generator.fetchFeedWithRetry].
    rewrite !bind_run, parseURL_run. cbn [fst snd].
    cbn [serving_empty parseURL_outcome]. rewrite String.eqb_refl.
    cbn [ret fst snd]. split; [reflexivity|].
    apply agree_off_events; [assumption|].
    intros u Hu. rewrite requests_to_app, requests_to_attempts_other by assumption.
    unfold requests_to. cbn [filter is_fetch].
    destruct (String.eqb_spec bad u); [congruence | reflexivity].
  - unfold Generator.source_articles. rewrite !bind_run.
    destruct (sim_fetchFeedWithRetry url 3 Hne w w' Hag) as [Hfst Hsnd].
    rewrite <- Hfst.
    destruct (fst (Generator.fetchFeedWithRetry E url 3 w)) as [got|].
    + cbn [ret fst snd].
      rewrite (generator_feed_articles_same E' E eq_refl eq_refl).
      split; [reflexivity | exact Hsnd].
    + rewrite !bind_run, !emit_run. cbn [ret fst snd].
      split; [reflexivity|]. now apply agree_off_events.
Qed.

Lemma sim_mapM_sources (user : User) (urls : list string) :
  forall w w', agree_off bad w w' ->
    fst (mapM (Generator.source_articles E user) urls w)
    = fst (mapM (Generator.source_articles E' user) urls w')
    /\ agree_off bad (snd (mapM (Generator.source_articles E user) urls w))
         (snd (mapM (Generator.source_articles E' user) urls w')).
Proof.
  induction urls as [|url urls IH]; intros w w' Hag; cbn [mapM].
  - split; [reflexivity | exact Hag].
  - rewrite !bind_run. cbn [ret fst snd].
    destruct (sim_source_articles user url w w' Hag) as [Hfst Hsnd].
    destruct (IH _ _ Hsnd) as [Hfst' Hsnd'].
    now rewrite Hfst, Hfst'.
Qed.

Lemma sim_collect (us : list User) :
  forall processedUrls w w', agree_off bad w w' ->
    fst (Generator.collect E us processedUrls w)
    = fst (Generator.collect E' us processedUrls w')
    /\ agree_off bad (snd (Generator.collect E us processedUrls w))
         (snd (Generator.collect E' us processedUrls w')).
Proof.
  induction us as [|user us IH]; intros processedUrls w w' Hag;
    cbn [Generator.collect].
  - split; [reflexivity | exact Hag].
  - rewrite !bind_run. cbn [ret fst snd].
    destruct (sim_mapM_sources user
                (filter (Generator.to_process processedUrls) (sources user))
                w w' Hag) as [Hfst Hsnd].
    destruct (IH (processedUrls
                  ++ filter (Generator.to_process processedUrls) (sources user))
                _ _ Hsnd) as [Hfst' Hsnd'].
    now rewrite Hfst, Hfst'.
Qed.

Lemma sim_generateFeedJson (w : World) :
  fst (Generator.generateFeedJson E w) = fst (Generator.generateFeedJson E' w)
  /\ agree_off bad (snd (Generator.generateFeedJson E w))
       (snd (Generator.generateFeedJson E' w)).
Proof.
  unfold Generator.generateFeedJson.
  cbn [serving_empty config_yaml fs_write_error fs_error_at_users_json].
  destruct (config_yaml E) as [msg|config].
  - split; [reflexivity | apply agree_off_refl].
  - rewrite !bind_run.
    destruct (sim_collect (users config) [] w w (agree_off_refl bad w))
      as [Hfst Hsnd].
    rewrite <- Hfst.
    destruct Hsnd as (H1 & H2 & H3 & H4 & H5 & H6 & H7).
    destruct (fs_write_error E) as [msg|];
      [destruct (fs_error_at_users_json E)|];
      rewrite ?bind_run;
      cbn [ret fst snd Generator.write_feed_json Generator.write_users_json];
      (split; [reflexivity|]);
      unfold agree_off; cbn [feed_json users_json cachedArticles
        articles_cacheTime cachedUsers users_cacheTime events];
      repeat split; assumption.
Qed.

End OneSourceDown.



Example sample_dead_source_history :
  events (snd (Generator.source_articles sample_env bob "https://bob.example/dead"
                 blank_world))
  = [EFetch "https://bob.example/dead"; ESleep 1000;
     EFetch "https://bob.example/dead"; ESleep 1000;
     EFetch "https://bob.example/dead"; ESleep 1000;
     EFetch "https://bob.example/dead"; EFeedError "https://bob.example/dead"].
Proof. reflexivity. Qed.

(** ** Items without a publish date *)

Lemma filter_idem {A : Type} (f g : A -> bool) (l : list A) :
  (forall x, g x = true -> f x = true) ->
  filter g (filter f l) = filter g l.
Proof.
  intros Hgf. rewrite filter_filter. apply filter_ext. intros x.
  destruct (g x) eqn:Hg; [now rewrite (Hgf x Hg) | now rewrite andb_false_r].
Qed.

Section WithoutUndated.

Variable E : Env.

Local Abbreviation E' := (without_undated E).

Lemma generator_feed_articles_undated (user : User) (parsedFeed : ParsedFeed) :
  Generator.feed_articles E' user (without_undated_items parsedFeed)
  = Generator.feed_articles E user parsedFeed.
Proof.
  rewrite (generator_feed_articles_same E' E eq_refl eq_refl).
  unfold Generator.feed_articles, without_undated_items. cbn [items].
  now rewrite filter_idem by auto.
Qed.

Lemma fallback_feed_articles_undated (user : User) (joinDate leftDate : option Z)
  (parsedFeed : ParsedFeed) :
  ArticlesApi.feed_articles E' user joinDate leftDate (without_undated_items parsedFeed)
  = ArticlesApi.feed_articles E user joinDate leftDate parsedFeed.
Proof.
  rewrite (fallback_feed_articles_same E' E eq_refl).
  unfold ArticlesApi.feed_articles, without_undated_items. cbn [items].
  rewrite filter_idem; [reflexivity|].
  intros item H. now apply andb_true_iff in H.
Qed.

Lemma fetchFeedWithRetry_undated (url : string) (retries : nat) :
  forall w,
    Generator.fetchFeedWithRetry E' url retries w
    = (option_map without_undated_items
         (fst (Generator.fetchFeedWithRetry E url retries w)),
       snd (Generator.fetchFeedWithRetry E url retries w)).
Proof.
  induction retries as [|r IH]; intros w; cbn [Generator.fetchFeedWithRetry];
    rewrite !bind_run, !parseURL_run; cbn [fst snd];
    cbn [without_undated parseURL_outcome];
    destruct (parseURL_outcome E url (requests_to url (events w))) as [got|];
    cbn [option_map ret fst snd]; try reflexivity.
  rewrite !bind_run, !emit_run. cbn [fst snd]. apply IH.
Qed.

Lemma source_articles_undated (user : User) (url : string) (w : World) :
  Generator.source_articles E' user url w = Generator.source_articles E user url w.
Proof.
  unfold Generator.source_articles.
  rewrite !bind_run, fetchFeedWithRetry_undated. cbn [fst snd].
  destruct (fst (Generator.fetchFeedWithRetry E url 3 w)) as [got|];
    cbn [option_map]; [|reflexivity].
  unfold ret. now rewrite generator_feed_articles_undated.
Qed.

Lemma generator_collect_undated (us : list User) :
  forall processedUrls w,
    Generator.collect E' us processedUrls w = Generator.collect E us processedUrls w.
Proof.
  induction us as [|user us IH]; intros processedUrls w; cbn [Generator.collect];
    [reflexivity|].
  rewrite !bind_run.
  rewrite (mapM_ext _ _ _ (source_articles_undated user)), IH. reflexivity.
Qed.

Lemma generateFeedJson_undated (w : World) :
  Generator.generateFeedJson E' w = Generator.generateFeedJson E w.
Proof.
  unfold Generator.generateFeedJson.
  cbn [without_undated config_yaml fs_write_error].
  destruct (config_yaml E) as [msg|config]; [reflexivity|].
  rewrite !bind_run, generator_collect_undated.
  reflexivity.
Qed.

Lemma fallback_sources_undated (user : User) (joinDate leftDate : option Z)
  (srcs : list string) :
  forall w,
    ArticlesApi.collect_sources E' user joinDate leftDate srcs w
    = ArticlesApi.collect_sources E user joinDate leftDate srcs w.
Proof.
  induction srcs as [|url srcs IH]; intros w; cbn [ArticlesApi.collect_sources];
    [reflexivity|].
  destruct (truthy_string url); [|apply IH].
  rewrite !bind_run, !parseURL_run. cbn [fst snd].
  cbn [without_undated parseURL_outcome].
  destruct (parseURL_outcome E url (requests_to url (events w))) as [got|];
    cbn [option_map]; rewrite ?bind_run; cbn [ret fst snd].
  - now rewrite fallback_feed_articles_undated, IH.
  - now rewrite IH.
Qed.

Lemma fallback_collect_undated (us : list User) :
  forall w, ArticlesApi.collect E' us w = ArticlesApi.collect E us w.
Proof.
  induction us as [|user us IH]; intros w; cbn [ArticlesApi.collect];
    [reflexivity|].
  destruct (joined user) as [j|]; [|reflexivity].
  rewrite !bind_run.
  rewrite (first_of_month_same E' E eq_refl), (leftDate_same E' E eq_refl).
  now rewrite fallback_sources_undated, IH.
Qed.

Lemma getAllArticles_undated (w : World) :
  ArticlesApi.getAllArticles E' w = ArticlesApi.getAllArticles E w.
Proof.
  unfold ArticlesApi.getAllArticles.
  change (Date_now E' (events w)) with (Date_now E (events w)).
  destruct (ArticlesApi.cache_hit w (Date_now E (events w))); [reflexivity|].
  destruct (ArticlesApi.snapshot w); [reflexivity|].
  unfold ArticlesApi.live_fetch.
  change (config_yaml E') with (config_yaml E).
  destruct (config_yaml E) as [msg|config]; [reflexivity|].
  rewrite !bind_run, fallback_collect_undated.
  reflexivity.
Qed.

End WithoutUndated.

Lemma generator_feed_has_pubDate (E : Env) (user : User) (parsedFeed : ParsedFeed) :
  Forall (fun a => truthy (pubDate a) = true)
    (Generator.feed_articles E user parsedFeed).
Proof.
  unfold Generator.feed_articles. apply Forall_forall. intros a Ha.
  apply in_map_iff in Ha. destruct Ha as (flagged & <- & Hf).
  apply in_map_iff in Hf. destruct Hf as (item & <- & Hitem).
  apply filter_In in Hitem. now destruct Hitem as [_ Hkeep].
Qed.

Lemma fallback_feed_has_pubDate (E : Env) (user : User)
  (joinDate leftDate : option Z) (parsedFeed : ParsedFeed) :
  Forall (fun a => truthy (pubDate a) = true)
    (ArticlesApi.feed_articles E user joinDate leftDate parsedFeed).
Proof.
  unfold ArticlesApi.feed_articles. apply Forall_forall. intros a Ha.
  apply in_map_iff in Ha. destruct Ha as (item & <- & Hitem).
  apply filter_In in Hitem. destruct Hitem as [_ Hkeep].
  now apply andb_true_iff in Hkeep.
Qed.

Lemma live_fetch_Forall (E : Env) (P : RSSItem -> Prop) (t : Z) (w : World) :
  (forall config user j parsedFeed,
     config_yaml E = inr config -> In user (users config) ->
     joined user = Some j -> served E parsedFeed ->
     Forall P (ArticlesApi.feed_articles E user (first_of_month E j)
                 (leftDate E user) parsedFeed)) ->
  Forall P (fst (ArticlesApi.live_fetch E t w)).
Proof.
  intros HP. rewrite live_fetch_result.
  destruct (config_yaml E) as [msg|config] eqn:Hc; [constructor|].
  destruct (fst (ArticlesApi.collect E (users config) w)) as [collected|] eqn:Hcol;
    [|constructor].
  apply (Permutation_Forall (sort_Permutation (newest_first E) collected)).
  apply (fallback_collect_Forall E P (users config)) with (w := w); [|exact Hcol].
  intros user j parsedFeed Hu Hj Hs. now apply (HP config).
Qed.

(** C8.  On both paths an item without a publish date leaves no trace.
    The run of the generator, and the call of [getAllArticles], in an
    environment are equal, in their result and in the world they leave
    (files, caches and history, with its logged errors), to the run in
    the environment in which every feed comes without such items.  No
    article that the generator collects or writes, and none that the
    live fetch returns, lacks a publish date. *)
Theorem undated_items_are_dropped (E : Env) (w : World) :
  Generator.generateFeedJson E w = Generator.generateFeedJson (without_undated E) w
  /\ ArticlesApi.getAllArticles E w = ArticlesApi.getAllArticles (without_undated E) w
  /\ (forall us processedUrls,
        let collected := fst (Generator.collect E us processedUrls w) in
        Forall (fun a => truthy (pubDate a) = true) collected
        /\ Forall (fun a => truthy (pubDate a) = true)
             (sort (newest_first E) collected))
  /\ (forall t,
        Forall (fun a => truthy (pubDate a) = true)
          (fst (ArticlesApi.live_fetch E t w))).
Proof.
  split; [now rewrite generateFeedJson_undated|].
  split; [now rewrite getAllArticles_undated|].
  split.
  - intros us processedUrls collected.
    assert (Hc : Forall (fun a => truthy (pubDate a) = true) collected).
    { apply generator_collect_Forall. intros user parsedFeed _ _.
      apply generator_feed_has_pubDate. }
    split; [exact Hc|].
    now apply (Permutation_Forall (sort_Permutation (newest_first E) collected)).
  - intros t. apply live_fetch_Forall. intros config user j parsedFeed _ _ _ _.
    apply fallback_feed_has_pubDate.
Qed.

Example sample_undated_item_dropped :
  In (sample_item None) (items alice_feed)
  /\ map pubDate
       (fst (Generator.source_articles sample_env alice "https://alice.example/feed"
               blank_world))
     = [Some "2021-07-01"; Some "2021-05-01"]
  /\ events (snd (Generator.source_articles sample_env alice
                    "https://alice.example/feed" blank_world))
     = [EFetch "https://alice.example/feed"].
Proof. repeat split. right. now left. Qed.

(** ** The live fetch of the articles endpoint *)

Lemma slice_nil {A : Type} (s e : Z) : slice (@nil A) s e = [].
Proof. unfold slice. now rewrite skipn_nil, firstn_nil. Qed.

Lemma respond_unflagged (q : ArticlesQuery) (all : list RSSItem) :
  (forall a, In a all -> isDuringEmployment a = None) ->
  truthy (q_author q) = true -> q_duringEmploymentOnly q = Some "true" ->
  apply_filters q all = []
  /\ articles (respond q all) = []
  /\ total (pagination (respond q all)) = 0.
Proof.
  intros Hnone Hauthor Hemp.
  assert (Hf : apply_filters q all = []).
  { rewrite apply_filters_keeps. apply filter_none. intros a Ha.
    unfold employment_ok. rewrite Hauthor, Hemp, (Hnone a Ha). cbn.
    now rewrite andb_false_r. }
  split; [exact Hf|].
  unfold respond. cbn [articles pagination total]. rewrite Hf.
  split; [apply slice_nil | reflexivity].
Qed.

Lemma generator_feed_flagged (E : Env) (user : User) (parsedFeed : ParsedFeed) :
  Forall (fun a => exists b, isDuringEmployment a = Some b)
    (Generator.feed_articles E user parsedFeed).
Proof.
  unfold Generator.feed_articles. apply Forall_forall. intros a Ha.
  apply in_map_iff in Ha. destruct Ha as (flagged & <- & Hf).
  apply in_map_iff in Hf. destruct Hf as (item & <- & _).
  now eexists.
Qed.

(** C10.  The live fetch of the articles endpoint keeps an item only
    when its publish date lies inside the tenure of the user under whom
    it is fetched: every article of its aggregate has an author of the
    configuration with [joinDate <= pubDate <= leftDate].  It sets no
    [isDuringEmployment]: when the served items carry none, no article
    of the aggregate has one, so a query with an author and
    [duringEmploymentOnly = 'true'] over this aggregate, and through the
    handler when neither cache nor snapshot answers, returns no article
    and [total = 0].  The generator differs: it makes an article of
    every item with a publish date and gives each one the flag. *)
Theorem live_aggregate_has_no_flag (E : Env) (w : World) :
  (forall t a, In a (fst (ArticlesApi.live_fetch E t w)) ->
     exists config user j s p e,
       config_yaml E = inr config /\ In user (users config)
       /\ joined user = Some j /\ author a = name user
       /\ first_of_month E j = Some s /\ getTime E a = Some p
       /\ leftDate E user = Some e /\ s <= p <= e)
  /\ (forall user joinDate leftDate parsedFeed,
        ArticlesApi.feed_articles E user joinDate leftDate parsedFeed
        = map (decorate user parsedFeed)
            (filter (fun item => has_pubDate item && within E joinDate leftDate item)
               (items parsedFeed)))
  /\ (no_flag_served E ->
      (forall t a, In a (fst (ArticlesApi.live_fetch E t w)) ->
         isDuringEmployment a = None)
      /\ (forall t q,
            truthy (q_author q) = true -> q_duringEmploymentOnly q = Some "true" ->
            articles (respond q (fst (ArticlesApi.live_fetch E t w))) = []
            /\ total (pagination (respond q (fst (ArticlesApi.live_fetch E t w)))) = 0)
      /\ (forall q,
            ArticlesApi.cache_hit w (Date_now E (events w)) = None ->
            ArticlesApi.snapshot w = None ->
            truthy (q_author q) = true -> q_duringEmploymentOnly q = Some "true" ->
            articles (fst (ArticlesApi.handler E q w)) = []
            /\ total (pagination (fst (ArticlesApi.handler E q w))) = 0))
  /\ (forall us processedUrls,
        Forall (fun a => exists b, isDuringEmployment a = Some b)
          (fst (Generator.collect E us processedUrls w)))
  /\ (forall user parsedFeed,
        map pubDate (Generator.feed_articles E user parsedFeed)
        = map item_pubDate (filter has_pubDate (items parsedFeed))).
Proof.
  split; [|split; [|split; [|split]]].
  - intros t a Ha.
    pose (P := fun a : RSSItem =>
      exists config user j s p e,
        config_yaml E = inr config /\ In user (users config)
        /\ joined user = Some j /\ author a = name user
        /\ first_of_month E j = Some s /\ getTime E a = Some p
        /\ leftDate E user = Some e /\ s <= p <= e).
    assert (HP : Forall P (fst (ArticlesApi.live_fetch E t w))).
    { apply live_fetch_Forall. intros config user j parsedFeed Hc Hu Hj _.
      unfold ArticlesApi.feed_articles. apply Forall_forall. intros x Hx.
      apply in_map_iff in Hx. destruct Hx as (item & <- & Hitem).
      apply filter_In in Hitem. destruct Hitem as [_ Hkeep].
      apply andb_true_iff in Hkeep. destruct Hkeep as [_ Hin].
      apply within_true in Hin. destruct Hin as (s & p & e & Hs & Hp & He & Hspe).
      exists config, user, j, s, p, e. repeat split; try assumption; lia. }
    rewrite Forall_forall in HP. now apply HP.
  - reflexivity.
  - intros Hserved.
    assert (Hnone : forall t a, In a (fst (ArticlesApi.live_fetch E t w)) ->
                      isDuringEmployment a = None).
    { intros t a Ha.
      assert (HP : Forall (fun a => isDuringEmployment a = None)
                     (fst (ArticlesApi.live_fetch E t w))).
      { apply live_fetch_Forall. intros config user j parsedFeed _ _ _ Hs.
        unfold ArticlesApi.feed_articles. apply Forall_forall. intros x Hx.
        apply in_map_iff in Hx. destruct Hx as (item & <- & Hitem).
        apply filter_In in Hitem. destruct Hitem as [Hitem _].
        cbn [decorate isDuringEmployment]. now apply (Hserved parsedFeed). }
      rewrite Forall_forall in HP. now apply HP. }
    split; [exact Hnone|]. split.
    + intros t q Ha He.
      now destruct (respond_unflagged q _ (Hnone t) Ha He) as (_ & H1 & H2).
    + intros q Hc Hs Ha He.
      rewrite handler_respond, getAllArticles_live by assumption.
      now destruct (respond_unflagged q _ (Hnone (Date_now E (events w))) Ha He)
        as (_ & H1 & H2).
  - intros us processedUrls. apply generator_collect_Forall.
    intros user parsedFeed _ _. apply generator_feed_flagged.
  - intros user parsedFeed. unfold Generator.feed_articles.
    rewrite !map_map. reflexivity.
Qed.

Lemma sample_env_no_flag_served : no_flag_served sample_env.
Proof.
  intros parsedFeed item (url & n & Hout) Hin.
  cbn [sample_env utc_env parseURL_outcome] in Hout. unfold sample_net in Hout.
  destruct (String.eqb url "https://alice.example/feed").
  - injection Hout as <-. cbn [alice_feed items In] in Hin.
    now destruct Hin as [<-|[<-|[<-|[]]]].
  - destruct (String.eqb url "https://bob.example/feed"); [|discriminate].
    injection Hout as <-. cbn [bob_feed items In] in Hin.
    now destruct Hin as [<-|[<-|[]]].
Defined.

(** In the sample world without cache and snapshot, the query for the
    articles of Alice's time as a member finds nothing. *)
Lemma live_aggregate_has_no_flag_witness :
  no_flag_served sample_env
  /\ ArticlesApi.cache_hit blank_world (Date_now sample_env (events blank_world)) = None
  /\ ArticlesApi.snapshot blank_world = None
  /\ truthy (q_author alice_employed_query) = true
  /\ q_duringEmploymentOnly alice_employed_query = Some "true"
  /\ articles (fst (ArticlesApi.handler sample_env alice_employed_query blank_world)) = [].
Proof.
  split; [exact sample_env_no_flag_served|].
  repeat (split; [reflexivity|]).
  exact (proj1 (proj2 (proj2 (proj1 (proj2 (proj2
    (live_aggregate_has_no_flag sample_env blank_world)))
    sample_env_no_flag_served)) alice_employed_query eq_refl eq_refl eq_refl eq_refl)).
Defined.

(** The same query over the snapshot that the generator writes finds
    Alice's article of 2021-05-01. *)
Example sample_generator_query :
  let w := snd (Generator.generateFeedJson sample_env blank_world) in
  map pubDate (articles (fst (ArticlesApi.handler sample_env alice_employed_query w)))
  = [Some "2021-05-01"].
Proof. reflexivity. Qed.

(** ** The users endpoint *)

Lemma users_handler_response (E : Env) (query_name : option string) (w : World) :
  let us := fst (UsersApi.getAllUsers E w) in
  (forall userName,
     query_name = Some userName -> userName <> "" ->
     fst (UsersApi.handler E query_name w)
     = UsersApi.OneUser (find (fun u => String.eqb (name u) userName) us))
  /\ (truthy query_name = false ->
      fst (UsersApi.handler E query_name w)
      = UsersApi.ManyUsers (filter UsersApi.left_at_is_null us)).
Proof.
  intros us. unfold UsersApi.handler. rewrite bind_run. fold us. split.
  - intros userName -> Hne. unfold truthy_string.
    destruct (String.eqb_spec userName ""); [contradiction | reflexivity].
  - intros Hno. destruct query_name as [userName|]; [|reflexivity].
    cbn [truthy] in Hno. now rewrite Hno.
Qed.

(** C7, at the input where the code leaves the claim.  Carol has no
    [left_at] in the configuration, so no departure is recorded for her;
    Bob's [left_at] is [null].  A request by name finds Carol; the
    request without a name lists Bob alone, because the list keeps the
    users whose [left_at] is strictly [null]. *)
Theorem users_list_misses_absent_left_at :
  let E := utc_env offline (inr {| users := [carol; bob] |}) in
  Spec.no_recorded_departure carol = true
  /\ filter Spec.no_recorded_departure [carol; bob] = [carol; bob]
  /\ fst (UsersApi.getAllUsers E blank_world) = [carol; bob]
  /\ fst (UsersApi.handler E (Some "carol") blank_world) = UsersApi.OneUser (Some carol)
  /\ fst (UsersApi.handler E (Some "dave") blank_world) = UsersApi.OneUser None
  /\ fst (UsersApi.handler E None blank_world) = UsersApi.ManyUsers [bob].
Proof. repeat split. Qed.

(** ** The manual refresh endpoint *)

Lemma strict_eq_true (x : option string) (s : string) :
  strict_eq x s = true <-> x = Some s.
Proof.
  unfold strict_eq. destruct x as [t|]; [|split; discriminate].
  destruct (String.eqb_spec t s); split; congruence.
Qed.

Lemma now_run (E : Env) (w : World) : now E w = (Date_now E (events w), w).
Proof. reflexivity. Qed.

(** C9, as stated, fails.  A GET request carries the valid key in its
    header; the handler answers 405 and leaves the world as it is,
    although a generation would have written the snapshots. *)
Lemma refresh_requires_post_counterexample :
  RefreshApi.secretKey get_with_key = Some (RefreshApi.validKey sample_env)
  /\ RefreshApi.handler sample_env get_with_key blank_world
     = (RefreshApi.MethodNotAllowed, blank_world)
  /\ users_json (snd (Generator.generateFeedJson sample_env blank_world))
     <> users_json blank_world.
Proof. repeat split. discriminate. Qed.

(** C9, amended.  The secret of a request is its [x-api-key] header
    when that is not empty, its body field [secretKey] otherwise; the
    valid key is [REFRESH_API_KEY] when set and not empty, ['dev-key']
    otherwise.  A request whose method is not POST is answered 405, and
    a POST request whose secret is not the valid key is answered 401;
    in both cases the world is left as it is: no generation, no file
    written.  A POST request with the valid key runs the generation
    once, to its end, before the answer: the world after the request is
    the world after [generateFeedJson], and the answer is 200 when the
    generation succeeds and 500 with its error when it fails, in both
    cases with the time read after the generation minus the time read
    before it. *)
Theorem refresh_handler_outcomes (E : Env) (req : RefreshApi.Request) (w : World) :
  let key := RefreshApi.secretKey req in
  let run := Generator.generateFeedJson E w in
  let duration := Date_now E (events (snd run)) - Date_now E (events w) in
  (truthy (RefreshApi.header_x_api_key req) = true ->
   key = RefreshApi.header_x_api_key req)
  /\ (truthy (RefreshApi.header_x_api_key req) = false ->
      key = RefreshApi.body_secretKey req)
  /\ (forall k, REFRESH_API_KEY E = Some k -> k <> "" -> RefreshApi.validKey E = k)
  /\ (truthy (REFRESH_API_KEY E) = false -> RefreshApi.validKey E = "dev-key")
  /\ (RefreshApi.method req <> "POST" ->
      RefreshApi.handler E req w = (RefreshApi.MethodNotAllowed, w))
  /\ (RefreshApi.method req = "POST" -> key <> Some (RefreshApi.validKey E) ->
      RefreshApi.handler E req w = (RefreshApi.Unauthorized, w))
  /\ (RefreshApi.method req = "POST" -> key = Some (RefreshApi.validKey E) ->
      snd (RefreshApi.handler E req w) = snd run
      /\ (Generator.success (fst run) = true ->
          fst (RefreshApi.handler E req w) = RefreshApi.Refreshed duration)
      /\ (Generator.success (fst run) = false ->
          exists message,
            fst (RefreshApi.handler E req w) = RefreshApi.RefreshFailed message duration)).
Proof.
  intros key run duration.
  split; [intros H; subst key; unfold RefreshApi.secretKey, or_else; now rewrite H|].
  split; [intros H; subst key; unfold RefreshApi.secretKey, or_else; now rewrite H|].
  split.
  { intros k Hk Hne. unfold RefreshApi.validKey, truthy_string. rewrite Hk.
    destruct (String.eqb_spec k ""); [contradiction | reflexivity]. }
  split.
  { intros H. unfold RefreshApi.validKey. unfold truthy in H.
    destruct (REFRESH_API_KEY E) as [k|]; [now rewrite H | reflexivity]. }
  split.
  { intros Hm. unfold RefreshApi.handler.
    destruct (String.eqb_spec (RefreshApi.method req) "POST");
      [contradiction | reflexivity]. }
  split.
  { intros Hm Hk. unfold RefreshApi.handler. rewrite Hm, String.eqb_refl.
    cbn [negb]. fold key.
    destruct (strict_eq key (RefreshApi.validKey E)) eqn:Heq; [|reflexivity].
    apply strict_eq_true in Heq. contradiction. }
  intros Hm Hk. unfold RefreshApi.handler. rewrite Hm, String.eqb_refl.
  cbn [negb]. fold key. apply strict_eq_true in Hk. rewrite Hk. cbn [negb].
  repeat first [rewrite bind_run | rewrite now_run | progress cbn [fst snd]].
  fold run. fold duration.
  destruct (Generator.success (fst run)) eqn:Hs.
  - cbn [ret fst snd]. split; [reflexivity|].
    split; [intros _; reflexivity | discriminate].
  - destruct (Generator.error (fst run)) as [message|];
      cbn [ret fst snd]; (split; [reflexivity|]);
      (split; [discriminate | intros _; eexists; reflexivity]).
Qed.

(** A POST request with the default key in its body: the generation
    runs and the snapshot of the sample configuration is written. *)
Lemma refresh_handler_outcomes_witness :
  RefreshApi.method post_with_key = "POST"
  /\ RefreshApi.secretKey post_with_key = Some (RefreshApi.validKey sample_env)
  /\ snd (RefreshApi.handler sample_env post_with_key blank_world)
     = snd (Generator.generateFeedJson sample_env blank_world).
Proof.
  split; [reflexivity | split; [reflexivity|]].
  exact (proj1 (proj2 (proj2 (proj2 (proj2 (proj2 (proj2
    (refresh_handler_outcomes sample_env post_with_key blank_world))))))
    eq_refl eq_refl)).
Defined.

Example sample_refresh :
  fst (RefreshApi.handler sample_env post_with_key blank_world)
  = RefreshApi.Refreshed 10.
Proof. reflexivity. Qed.

(** ** Further properties: history and store *)

Lemma with_events_self (w : World) : with_events w (events w) = w.
Proof. now destruct w. Qed.

Lemma grows_refl (w : World) : grows w w.
Proof. exists []. now rewrite app_nil_r, with_events_self. Qed.

Lemma grows_trans (w1 w2 w3 : World) : grows w1 w2 -> grows w2 w3 -> grows w1 w3.
Proof.
  intros [es ->] [es' ->]. exists (es ++ es').
  cbn [events with_events]. now rewrite app_assoc.
Qed.

Lemma grows_events (w : World) (es : list Event) :
  grows w (with_events w (events w ++ es)).
Proof. now exists es. Qed.

Lemma fetchFeedWithRetry_grows (E : Env) (url : string) (retries : nat) (w : World) :
  grows w (snd (Generator.fetchFeedWithRetry E url retries w)).
Proof.
  destruct (fetchFeedWithRetry_run E url retries w) as (k & _ & -> & _).
  apply grows_events.
Qed.

Lemma source_articles_grows (E : Env) (user : User) (url : string) (w : World) :
  grows w (snd (Generator.source_articles E user url w)).
Proof.
  unfold Generator.source_articles. rewrite bind_run.
  pose proof (fetchFeedWithRetry_grows E url 3 w) as Hg.
  destruct (fst (Generator.fetchFeedWithRetry E url 3 w)); [exact Hg|].
  rewrite bind_run, emit_run. cbn [ret fst snd].
  eapply grows_trans; [exact Hg | apply grows_events].
Qed.

Lemma mapM_grows {A B : Type} (f : A -> M B) (l : list A) :
  (forall a w, grows w (snd (f a w))) -> forall w, grows w (snd (mapM f l w)).
Proof.
  intros Hf. induction l as [|a l IH]; intros w; cbn [mapM].
  - apply grows_refl.
  - rewrite !bind_run. cbn [ret snd].
    eapply grows_trans; [apply Hf | apply IH].
Qed.

Lemma generator_collect_grows (E : Env) (us : list User) :
  forall processedUrls w, grows w (snd (Generator.collect E us processedUrls w)).
Proof.
  induction us as [|user us IH]; intros processedUrls w; cbn [Generator.collect].
  - apply grows_refl.
  - rewrite !bind_run. cbn [ret snd].
    eapply grows_trans; [|apply IH].
    apply mapM_grows. intros url w0. apply source_articles_grows.
Qed.

Lemma fallback_sources_grows (E : Env) (user : User) (joinDate leftDate : option Z)
  (srcs : list string) :
  forall w, grows w (snd (ArticlesApi.collect_sources E user joinDate leftDate srcs w)).
Proof.
  induction srcs as [|url srcs IH]; intros w; cbn [ArticlesApi.collect_sources].
  - apply grows_refl.
  - destruct (truthy_string url); [|apply IH].
    rewrite bind_run, parseURL_run. cbn [fst snd].
    destruct (parseURL_outcome E url (requests_to url (events w)));
      rewrite ?bind_run; cbn [ret fst snd]; rewrite ?emit_run; cbn [fst snd].
    + eapply grows_trans; [apply grows_events | apply IH].
    + eapply grows_trans; [apply grows_events|].
      eapply grows_trans; [apply grows_events | apply IH].
Qed.

Lemma fallback_collect_grows (E : Env) (us : list User) :
  forall w, grows w (snd (ArticlesApi.collect E us w)).
Proof.
  induction us as [|user us IH]; intros w; cbn [ArticlesApi.collect].
  - apply grows_refl.
  - destruct (joined user) as [j|]; [|apply grows_refl].
    rewrite !bind_run. cbn [ret snd].
    eapply grows_trans; [apply fallback_sources_grows | apply IH].
Qed.

Lemma grows_store (w w' : World) :
  grows w w' ->
  feed_json w' = feed_json w /\ users_json w' = users_json w
  /\ cachedArticles w' = cachedArticles w
  /\ articles_cacheTime w' = articles_cacheTime w
  /\ cachedUsers w' = cachedUsers w /\ users_cacheTime w' = users_cacheTime w.
Proof. intros [es ->]. repeat split. Qed.


(** A run whose write of [users.json] throws: [feed.json] holds the new
    aggregate, [users.json] is as it was, and the run reports the
    failure. *)
Example half_written_run :
  let run := Generator.generateFeedJson users_json_unwritable blank_world in
  fst run = {| Generator.success := false; Generator.error := Some "ENOSPC" |}
  /\ option_map (map pubDate) (feed_json (snd run))
     = Some [Some "2021-07-01"; Some "2021-06-15"; Some "2021-05-01";
             Some "2021-05-01"]
  /\ users_json (snd run) = None.
Proof. repeat split. Qed.

(** ** Further properties: cache and snapshot of the articles endpoint *)

Lemma cache_hit_set_cache (l : list RSSItem) (t t' : Z) (w : World) :
  t' - t < ArticlesApi.CACHE_DURATION ->
  ArticlesApi.cache_hit (ArticlesApi.set_cache l t w) t' = Some l.
Proof.
  intros Hage. unfold ArticlesApi.cache_hit.
  cbn [ArticlesApi.set_cache cachedArticles articles_cacheTime].
  destruct (Z.ltb_spec (t' - t) ArticlesApi.CACHE_DURATION); [reflexivity | lia].
Qed.

Lemma getAllArticles_hit (E : Env) (w : World) (l : list RSSItem) :
  ArticlesApi.cache_hit w (Date_now E (events w)) = Some l ->
  ArticlesApi.getAllArticles E w = (l, w).
Proof. intros H. unfold ArticlesApi.getAllArticles. now rewrite H. Qed.

Lemma cache_hit_save (E : Env) (l : list RSSItem) (w : World) (t : Z) :
  ArticlesApi.cache_hit (ArticlesApi.save E l w) t = ArticlesApi.cache_hit w t.
Proof. unfold ArticlesApi.save. now destruct (fs_write_error E). Qed.

Lemma events_save (E : Env) (l : list RSSItem) (w : World) :
  events (ArticlesApi.save E l w) = events w.
Proof. unfold ArticlesApi.save. now destruct (fs_write_error E). Qed.

Lemma sort_nil_inv {A : Type} (comparefn : A -> A -> option Z) (l : list A) :
  sort comparefn l = [] -> l = [].
Proof.
  intros H. apply Permutation_nil. rewrite <- H. symmetry. apply sort_Permutation.
Qed.

Lemma getAllArticles_remembered (E : Env) (w1 w2 : World) (l : list RSSItem) :
  cachedArticles w1 = Some l -> grows w1 w2 ->
  Date_now E (events w2) - articles_cacheTime w1 < ArticlesApi.CACHE_DURATION ->
  ArticlesApi.getAllArticles E w2 = (l, w2).
Proof.
  intros Hc Hg Hage. apply getAllArticles_hit.
  destruct (grows_store _ _ Hg) as (_ & _ & H3 & H4 & _).
  unfold ArticlesApi.cache_hit. rewrite H3, H4, Hc.
  destruct (Z.ltb_spec (Date_now E (events w2) - articles_cacheTime w1)
              ArticlesApi.CACHE_DURATION); [reflexivity | lia].
Qed.

(** X2.  An answer of [getAllArticles] that holds an article is
    remembered.  After the call the cache holds the answer, with the
    time of the call unless the call itself was answered by the cache;
    and in every later world that differs only by more history, as long
    as the clock is within ten minutes of the time of the cache, a call
    gives the same articles and leaves the world as it is: it makes no
    request and reads and writes no file. *)
Theorem getAllArticles_answers_from_cache (E : Env) (w : World) :
  let l1 := fst (ArticlesApi.getAllArticles E w) in
  let w1 := snd (ArticlesApi.getAllArticles E w) in
  l1 <> [] ->
  cachedArticles w1 = Some l1
  /\ (ArticlesApi.cache_hit w (Date_now E (events w)) = None ->
      articles_cacheTime w1 = Date_now E (events w))
  /\ (forall w2,
        grows w1 w2 ->
        Date_now E (events w2) - articles_cacheTime w1 < ArticlesApi.CACHE_DURATION ->
        ArticlesApi.getAllArticles E w2 = (l1, w2)).
Proof.
  intros l1 w1. subst l1 w1.
  destruct (ArticlesApi.getAllArticles E w) as [l1 w1] eqn:Hcall.
  cbn [fst snd]. intros Hne.
  assert (Hcache : cachedArticles w1 = Some l1
                   /\ (ArticlesApi.cache_hit w (Date_now E (events w)) = None ->
                       articles_cacheTime w1 = Date_now E (events w))).
  { unfold ArticlesApi.getAllArticles in Hcall.
    set (t := Date_now E (events w)) in *.
    destruct (ArticlesApi.cache_hit w t) as [cached|] eqn:Hhit.
    - injection Hcall as <- <-. split; [|discriminate].
      unfold ArticlesApi.cache_hit in Hhit.
      destruct (cachedArticles w) as [c|]; [|discriminate].
      destruct (t - articles_cacheTime w <? ArticlesApi.CACHE_DURATION);
        [congruence | discriminate].
    - destruct (ArticlesApi.snapshot w) as [loaded|] eqn:Hsnap.
      + injection Hcall as <- <-. now split.
      + unfold ArticlesApi.live_fetch in Hcall.
        destruct (config_yaml E) as [message|config];
          [injection Hcall as <- <-; now elim Hne|].
        rewrite bind_run in Hcall.
        destruct (fst (ArticlesApi.collect E (users config) w)) as [collected|];
          [|injection Hcall as <- <-; now elim Hne].
        injection Hcall as <- <-. unfold ArticlesApi.save.
        destruct (fs_write_error E); now split. }
  destruct Hcache as [Hc Ht]. split; [exact Hc|]. split; [exact Ht|].
  intros w2 Hg Hage. now apply (getAllArticles_remembered E w1 w2).
Qed.

(** Without cache and snapshot the sample feeds are fetched; the second
    call answers from the cache. *)
Lemma getAllArticles_answers_from_cache_witness :
  fst (ArticlesApi.getAllArticles sample_env blank_world) <> []
  /\ ArticlesApi.getAllArticles sample_env
       (snd (ArticlesApi.getAllArticles sample_env blank_world))
     = (fst (ArticlesApi.getAllArticles sample_env blank_world),
        snd (ArticlesApi.getAllArticles sample_env blank_world)).
Proof.
  assert (Hne : fst (ArticlesApi.getAllArticles sample_env blank_world) <> []).
  { intros H. vm_compute in H. discriminate. }
  split; [exact Hne|].
  apply (proj2 (proj2
    (getAllArticles_answers_from_cache sample_env blank_world Hne))).
  - apply grows_refl.
  - reflexivity.
Defined.

(** X3.  When the cache does not answer and [feed.json] holds at least
    one article, [getAllArticles] returns the articles of the file as
    they are, whatever the configuration and the network: it makes no
    request, writes no file, and keeps the articles in the cache with
    the time of the call. *)
Theorem getAllArticles_prefers_snapshot
  (E : Env) (w : World) (a : RSSItem) (l : list RSSItem) :
  ArticlesApi.cache_hit w (Date_now E (events w)) = None ->
  feed_json w = Some (a :: l) ->
  let w' := snd (ArticlesApi.getAllArticles E w) in
  fst (ArticlesApi.getAllArticles E w) = a :: l
  /\ events w' = events w
  /\ feed_json w' = feed_json w
  /\ users_json w' = users_json w
  /\ cachedArticles w' = Some (a :: l)
  /\ articles_cacheTime w' = Date_now E (events w).
Proof.
  intros Hhit Hfile w'. subst w'. unfold ArticlesApi.getAllArticles.
  rewrite Hhit. unfold ArticlesApi.snapshot. rewrite Hfile.
  cbn [fst snd ArticlesApi.set_cache events feed_json users_json cachedArticles
       articles_cacheTime].
  rewrite Hfile. repeat (split; [reflexivity|]). reflexivity.
Qed.

Lemma getAllArticles_prefers_snapshot_witness :
  map pubDate (fst (ArticlesApi.getAllArticles (utc_env offline (inl "ENOENT"))
                      sample_world))
  = [Some "2021-07-01"; Some "2021-06-15"; Some "2021-05-01"].
Proof.
  exact (f_equal (map pubDate)
    (proj1 (getAllArticles_prefers_snapshot (utc_env offline (inl "ENOENT"))
       sample_world _ _ eq_refl eq_refl))).
Defined.

Lemma fallback_collect_missing_joined (E : Env) (us : list User) (user : User) :
  In user us -> joined user = None ->
  forall w, fst (ArticlesApi.collect E us w) = None.
Proof.
  intros Hin Hj. induction us as [|u us IH]; [contradiction|].
  intros w. cbn [ArticlesApi.collect].
  destruct (joined u) as [j|] eqn:Hu; [|reflexivity].
  destruct Hin as [->|Hin]; [congruence|].
  rewrite !bind_run. cbn [ret fst]. now rewrite (IH Hin).
Qed.

Lemma fallback_collect_all_joined (E : Env) (us : list User) :
  (forall user, In user us -> joined user <> None) ->
  forall w, exists collected, fst (ArticlesApi.collect E us w) = Some collected.
Proof.
  induction us as [|u us IH]; intros Hall w; cbn [ArticlesApi.collect].
  - now eexists.
  - destruct (joined u) as [j|] eqn:Hu;
      [|elim (Hall u (or_introl eq_refl) Hu)].
    rewrite !bind_run. cbn [ret fst].
    edestruct (IH (fun user H => Hall user (or_intror H))) as [more ->].
    now eexists.
Qed.

Lemma snapshot_unusable (w : World) :
  feed_json w = None \/ feed_json w = Some [] -> ArticlesApi.snapshot w = None.
Proof. unfold ArticlesApi.snapshot. now intros [->| ->]. Qed.

(** X4.  The live fetch gives up as a whole.  With no cache and no
    article in [feed.json] (no file, or a file with an empty list), a
    configuration that cannot be read gives the empty list and leaves
    the world as it is; a single user without [joined] gives the empty
    list too, whatever the other users' feeds returned, and leaves files
    and cache as they were, so that the next call starts again. *)
Theorem live_fetch_gives_up (E : Env) (w : World) :
  ArticlesApi.cache_hit w (Date_now E (events w)) = None ->
  feed_json w = None \/ feed_json w = Some [] ->
  (forall message,
     config_yaml E = inl message -> ArticlesApi.getAllArticles E w = ([], w))
  /\ (forall config user,
        config_yaml E = inr config -> In user (users config) ->
        joined user = None ->
        let w' := snd (ArticlesApi.getAllArticles E w) in
        fst (ArticlesApi.getAllArticles E w) = []
        /\ feed_json w' = feed_json w
        /\ cachedArticles w' = cachedArticles w
        /\ articles_cacheTime w' = articles_cacheTime w).
Proof.
  intros Hhit Hfile. apply snapshot_unusable in Hfile.
  rewrite (getAllArticles_live E w Hhit Hfile).
  unfold ArticlesApi.live_fetch. split.
  - intros message ->. reflexivity.
  - intros config user Hc Hin Hj. cbv zeta. rewrite Hc, bind_run.
    rewrite (fallback_collect_missing_joined E _ user Hin Hj).
    cbn [ret fst snd].
    destruct (grows_store _ _ (fallback_collect_grows E (users config) w))
      as (H1 & _ & H3 & H4 & _).
    now repeat split.
Qed.

(** Alice's feed answers, but Dave has no [joined]: no article. *)
Lemma live_fetch_gives_up_witness :
  let E := utc_env sample_net (inr {| users := [alice; dave] |}) in
  events (snd (ArticlesApi.getAllArticles E blank_world))
  = [EFetch "https://alice.example/feed"]
  /\ fst (ArticlesApi.getAllArticles E blank_world) = [].
Proof.
  split; [reflexivity|].
  exact (proj1 (proj2
    (live_fetch_gives_up (utc_env sample_net (inr {| users := [alice; dave] |}))
       blank_world eq_refl (or_introl eq_refl))
    _ dave eq_refl (or_intror (or_introl eq_refl)) eq_refl)).
Defined.

(** X5.  When the live fetch is needed and every user of a readable
    configuration has [joined], [getAllArticles] returns the collected
    articles sorted, and remembers them with the time of the call.  It
    writes them to [feed.json] when the directory can be written; when
    it cannot, the file stays as it was and the answer is the same. *)
Theorem live_fetch_is_remembered (E : Env) (w : World) (config : ConfigYaml) :
  ArticlesApi.cache_hit w (Date_now E (events w)) = None ->
  feed_json w = None \/ feed_json w = Some [] ->
  config_yaml E = inr config ->
  (forall user, In user (users config) -> joined user <> None) ->
  let w' := snd (ArticlesApi.getAllArticles E w) in
  exists collected,
    fst (ArticlesApi.collect E (users config) w) = Some collected
    /\ fst (ArticlesApi.getAllArticles E w) = sort (newest_first E) collected
    /\ cachedArticles w' = Some (sort (newest_first E) collected)
    /\ articles_cacheTime w' = Date_now E (events w)
    /\ users_json w' = users_json w
    /\ (fs_write_error E = None ->
        feed_json w' = Some (sort (newest_first E) collected))
    /\ (fs_write_error E <> None -> feed_json w' = feed_json w).
Proof.
  intros Hhit Hfile Hc Hall w'. subst w'. apply snapshot_unusable in Hfile.
  rewrite (getAllArticles_live E w Hhit Hfile).
  unfold ArticlesApi.live_fetch. rewrite Hc, bind_run.
  destruct (fallback_collect_all_joined E (users config) Hall w) as [collected Hcol].
  exists collected. rewrite Hcol. split; [reflexivity|].
  cbn [fst snd].
  destruct (grows_store _ _ (fallback_collect_grows E (users config) w))
    as (H1 & H2 & _).
  unfold ArticlesApi.save.
  destruct (fs_write_error E) as [message|];
    cbn [ArticlesApi.set_cache events feed_json users_json cachedArticles
         articles_cacheTime];
    repeat (split; [try reflexivity; try assumption|]);
    try (intros; congruence); try (intros _; assumption).
Qed.

Lemma live_fetch_is_remembered_witness :
  exists collected,
    fst (ArticlesApi.collect sample_env (users sample_config) blank_world)
    = Some collected
    /\ feed_json (snd (ArticlesApi.getAllArticles sample_env blank_world))
       = Some (sort (newest_first sample_env) collected).
Proof.
  destruct (live_fetch_is_remembered sample_env blank_world sample_config
              eq_refl (or_introl eq_refl) eq_refl) as (collected & H1 & _ & _ & _ & _ & H6 & _).
  - intros user [<-|[<-|[]]]; discriminate.
  - exists collected. split; [exact H1 | now apply H6].
Defined.

(** ** Further properties: refresh, snapshot and the endpoints *)

Lemma generateFeedJson_caches (E : Env) (w : World) :
  let w' := snd (Generator.generateFeedJson E w) in
  cachedArticles w' = cachedArticles w
  /\ articles_cacheTime w' = articles_cacheTime w
  /\ cachedUsers w' = cachedUsers w
  /\ users_cacheTime w' = users_cacheTime w.
Proof.
  cbv zeta. unfold Generator.generateFeedJson.
  destruct (config_yaml E) as [message|config]; [now repeat split|].
  rewrite bind_run.
  destruct (grows_store _ _ (generator_collect_grows E (users config) [] w))
    as (_ & _ & H3 & H4 & H5 & H6).
  destruct (fs_write_error E); [destruct (fs_error_at_users_json E)|];
    rewrite ?bind_run;
    cbn [ret fst snd Generator.write_feed_json Generator.write_users_json
         cachedArticles articles_cacheTime cachedUsers users_cacheTime];
    now repeat split.
Qed.

Lemma refresh_handler_caches (E : Env) (req : RefreshApi.Request) (w : World) :
  let w' := snd (RefreshApi.handler E req w) in
  cachedArticles w' = cachedArticles w
  /\ articles_cacheTime w' = articles_cacheTime w.
Proof.
  cbv zeta. unfold RefreshApi.handler.
  destruct (negb (RefreshApi.method req =? "POST")%string); [now split|].
  destruct (negb (strict_eq (RefreshApi.secretKey req) (RefreshApi.validKey E)));
    [now split|].
  repeat first [rewrite bind_run | rewrite now_run | progress cbn [fst snd]].
  destruct (generateFeedJson_caches E w) as (H1 & H2 & _).
  destruct (Generator.success (fst (Generator.generateFeedJson E w)));
    [|destruct (Generator.error (fst (Generator.generateFeedJson E w)))];
    cbn [ret snd]; now split.
Qed.

(** X6.  A manual refresh does not reach the memory of the articles
    endpoint.  When the cache of the endpoint answers before a request
    to the refresh endpoint, then after that request, whatever it did
    and wrote, and in every later world that differs only by more
    history, [getAllArticles] still returns the cached articles, as
    long as the clock is within ten minutes of the time of the cache. *)
Theorem refresh_keeps_cached_articles
  (E : Env) (req : RefreshApi.Request) (w : World) (cached : list RSSItem) :
  ArticlesApi.cache_hit w (Date_now E (events w)) = Some cached ->
  forall w2,
    grows (snd (RefreshApi.handler E req w)) w2 ->
    Date_now E (events w2) - articles_cacheTime w < ArticlesApi.CACHE_DURATION ->
    ArticlesApi.getAllArticles E w2 = (cached, w2).
Proof.
  intros Hhit w2 Hg Hage.
  destruct (refresh_handler_caches E req w) as [Hc Ht].
  apply (getAllArticles_remembered E (snd (RefreshApi.handler E req w)) w2).
  - rewrite Hc. unfold ArticlesApi.cache_hit in Hhit.
    destruct (cachedArticles w) as [l|]; [|discriminate].
    destruct (Date_now E (events w) - articles_cacheTime w
              <? ArticlesApi.CACHE_DURATION); [congruence | discriminate].
  - exact Hg.
  - now rewrite Ht.
Qed.

(** The endpoint has answered from the sample snapshot; the refresh then
    writes four articles, and the endpoint still answers with the three
    that it remembers. *)
Lemma refresh_keeps_cached_articles_witness :
  let w := snd (ArticlesApi.getAllArticles sample_env sample_world) in
  let w' := snd (RefreshApi.handler sample_env post_with_key w) in
  option_map (@List.length RSSItem) (feed_json w') = Some 4%nat
  /\ ArticlesApi.getAllArticles sample_env w' = (sample_snapshot, w').
Proof.
  split; [reflexivity|].
  apply (refresh_keeps_cached_articles sample_env post_with_key
           (snd (ArticlesApi.getAllArticles sample_env sample_world))
           sample_snapshot eq_refl).
  - apply grows_refl.
  - reflexivity.
Defined.

Lemma getAllUsers_hit_none (E : Env) (w : World) :
  cachedUsers w = None ->
  UsersApi.cache_hit w (Date_now E (events w)) = None.
Proof. intros H. unfold UsersApi.cache_hit. now rewrite H. Qed.

(** X7.  What the generator writes is what the endpoints read.  After a
    run of the generator with a readable configuration and a writable
    directory, endpoints whose caches are empty answer from the two
    files without a request: [getAllUsers] returns the users of the
    configuration, and [getAllArticles] returns the aggregate that the
    generator sorted, provided it holds an article. *)
Theorem generated_snapshot_is_served (E : Env) (w : World) (config : ConfigYaml) :
  config_yaml E = inr config -> fs_write_error E = None ->
  cachedArticles w = None -> cachedUsers w = None ->
  let w1 := snd (Generator.generateFeedJson E w) in
  let aggregate :=
    sort (newest_first E) (fst (Generator.collect E (users config) [] w)) in
  fst (UsersApi.getAllUsers E w1) = users config
  /\ events (snd (UsersApi.getAllUsers E w1)) = events w1
  /\ (aggregate <> [] ->
      fst (ArticlesApi.getAllArticles E w1) = aggregate
      /\ events (snd (ArticlesApi.getAllArticles E w1)) = events w1).
Proof.
  intros Hc Hw Hca Hcu w1 aggregate.
  destruct (generateFeedJson_caches E w) as (H1 & _ & H3 & _).
  fold w1 in H1, H3.
  assert (Hfiles : feed_json w1 = Some aggregate /\ users_json w1 = Some (users config)).
  { subst w1 aggregate. rewrite (generateFeedJson_run E config w Hc Hw).
    now split. }
  destruct Hfiles as [Hf Hu].
  split; [|split].
  - unfold UsersApi.getAllUsers.
    rewrite getAllUsers_hit_none by congruence.
    unfold UsersApi.snapshot. rewrite Hu, Hc.
    now destruct (users config).
  - unfold UsersApi.getAllUsers.
    rewrite getAllUsers_hit_none by congruence.
    unfold UsersApi.snapshot, UsersApi.save. rewrite Hu, Hc, Hw.
    now destruct (users config).
  - intros Hne. unfold ArticlesApi.getAllArticles, ArticlesApi.cache_hit.
    rewrite H1, Hca. unfold ArticlesApi.snapshot. rewrite Hf.
    destruct aggregate as [|a l]; [now elim Hne|]. now split.
Qed.

Lemma generated_snapshot_is_served_witness :
  let w1 := snd (Generator.generateFeedJson sample_env blank_world) in
  fst (UsersApi.getAllUsers sample_env w1) = [alice; bob]
  /\ List.length (fst (ArticlesApi.getAllArticles sample_env w1)) = 4%nat.
Proof.
  destruct (generated_snapshot_is_served sample_env blank_world sample_config
              eq_refl eq_refl eq_refl eq_refl) as (Hu & _ & Ha).
  split; [exact Hu|].
  rewrite (proj1 (Ha ltac:(intros H; vm_compute in H; discriminate))).
  reflexivity.
Defined.

(** ** Further properties: the users endpoint and the static pages *)

Lemma find_first {A : Type} (f : A -> bool) (before : list A) (x : A) (after : list A) :
  f x = true -> (forall y, In y before -> f y = false) ->
  find f (before ++ x :: after) = Some x.
Proof.
  intros Hx. induction before as [|y before IH]; intros Hb; cbn [app find].
  - now rewrite Hx.
  - rewrite (Hb y (or_introl eq_refl)). apply IH. intros z Hz. apply Hb. now right.
Qed.

Lemma find_none_iff {A : Type} (f : A -> bool) (l : list A) :
  find f l = None <-> forall y, In y l -> f y = false.
Proof.
  split.
  - intros H y Hy. now apply (find_none f l H).
  - induction l as [|x l IH]; intros H; [reflexivity|]. cbn [find].
    rewrite (H x (or_introl eq_refl)). apply IH. intros y Hy. apply H. now right.
Qed.

(** X8.  A request to the users endpoint with a non-empty name returns
    the first user of that name in the list of [getAllUsers], whether
    the user has left or not, and [null] exactly when no user has that
    name.  An empty name counts as no name: the answer is the list of
    the request without a name. *)
Theorem users_lookup_by_name (E : Env) (w : World) (userName : string) :
  let us := fst (UsersApi.getAllUsers E w) in
  let response := fst (UsersApi.handler E (Some userName) w) in
  (userName <> "" ->
   (forall before user after,
      us = before ++ user :: after -> name user = userName ->
      (forall v, In v before -> name v <> userName) ->
      response = UsersApi.OneUser (Some user))
   /\ (response = UsersApi.OneUser None
       <-> forall user, In user us -> name user <> userName)
   /\ (forall user,
         response = UsersApi.OneUser (Some user) ->
         In user us /\ name user = userName))
  /\ (userName = "" -> response = fst (UsersApi.handler E None w)).
Proof.
  intros us response.
  destruct (users_handler_response E (Some userName) w) as [Hname Hlist].
  fold us in Hname, Hlist. split.
  - intros Hne. specialize (Hname userName eq_refl Hne). fold response in Hname.
    rewrite Hname. split; [|split].
    + intros before user after Hus Hu Hbefore. f_equal. rewrite Hus.
      apply find_first; [now apply String.eqb_eq|].
      intros v Hv. apply String.eqb_neq. now apply Hbefore.
    + split.
      * intros [= Hnone] user Hin. rewrite find_none_iff in Hnone.
        apply String.eqb_neq. now apply Hnone.
      * intros Hnone. f_equal. apply find_none_iff. intros y Hy.
        apply String.eqb_neq. now apply Hnone.
    + intros user [= Hfound]. apply find_some in Hfound.
      destruct Hfound as [Hin Heq]. split; [exact Hin | now apply String.eqb_eq].
  - intros ->. subst response. unfold UsersApi.handler. rewrite !bind_run.
    reflexivity.
Qed.

Lemma getAllUsers_from_config (E : Env) (w : World) :
  cachedUsers w = None -> users_json w = None \/ users_json w = Some [] ->
  fst (UsersApi.getAllUsers E w)
  = match config_yaml E with
    | inl _ => []
    | inr config => users config
    end.
Proof.
  intros Hc Hf. unfold UsersApi.getAllUsers.
  rewrite getAllUsers_hit_none by assumption.
  unfold UsersApi.snapshot.
  destruct Hf as [-> | ->]; now destruct (config_yaml E).
Qed.

(** X9.  The home page and the users endpoint list the same users.
    When the endpoint has neither a cache nor a users file with a user
    in it, its answer to a request without a name is the list that
    [getStaticProps] of the home page builds from the configuration:
    the users whose [left_at] is [null], in the order of the
    configuration, and no user when the configuration cannot be
    read. *)
Theorem home_page_lists_active_users (E : Env) (w : World) :
  cachedUsers w = None -> users_json w = None \/ users_json w = Some [] ->
  fst (UsersApi.handler E None w) = UsersApi.ManyUsers (HomePage.getStaticProps E)
  /\ (forall user,
        In user (HomePage.getStaticProps E)
        <-> exists config,
              config_yaml E = inr config /\ In user (users config)
              /\ left_at user = JNull).
Proof.
  intros Hc Hf. split.
  - destruct (users_handler_response E None w) as [_ Hlist].
    rewrite (Hlist eq_refl), (getAllUsers_from_config E w Hc Hf).
    unfold HomePage.getStaticProps. now destruct (config_yaml E).
  - intros user. unfold HomePage.getStaticProps.
    destruct (config_yaml E) as [message|config].
    + split; [contradiction | intros (c & Hcfg & _); discriminate].
    + rewrite filter_In. unfold UsersApi.left_at_is_null. split.
      * intros [Hin Hnull]. exists config. repeat split; try assumption.
        now destruct (left_at user).
      * intros (c & [= <-] & Hin & Hnull). split; [exact Hin | now rewrite Hnull].
Qed.

Lemma home_page_lists_active_users_witness :
  fst (UsersApi.handler sample_env None blank_world) = UsersApi.ManyUsers [bob].
Proof.
  exact (proj1 (home_page_lists_active_users sample_env blank_world
                  eq_refl (or_introl eq_refl))).
Defined.

Lemma includes_In (arr : list string) (s : string) :
  includes arr s = true <-> In s arr.
Proof.
  unfold includes. rewrite existsb_exists. split.
  - intros (x & Hx & Heq). apply String.eqb_eq in Heq. now subst.
  - intros H. exists s. split; [exact H | apply String.eqb_refl].
Qed.

Lemma Set_add_In (allTags : list string) (tag t : string) :
  In t (TagPage.Set_add allTags tag) <-> In t allTags \/ t = tag.
Proof.
  unfold TagPage.Set_add. destruct (includes allTags tag) eqn:Hin.
  - apply includes_In in Hin. split; [now left | intros [H| ->]; assumption].
  - rewrite in_app_iff. cbn [In]. intuition congruence.
Qed.

Lemma Set_add_NoDup (allTags : list string) (tag : string) :
  NoDup allTags -> NoDup (TagPage.Set_add allTags tag).
Proof.
  intros Hnd. unfold TagPage.Set_add. destruct (includes allTags tag) eqn:Hin;
    [exact Hnd|].
  apply NoDup_app; [exact Hnd | repeat constructor; now intros [] |].
  intros x Hx [<-|[]]. apply includes_In in Hx. congruence.
Qed.

Lemma add_tags_spec (l : list string) :
  forall allTags,
    (NoDup allTags -> NoDup (fold_left TagPage.Set_add l allTags))
    /\ forall t, In t (fold_left TagPage.Set_add l allTags) <-> In t allTags \/ In t l.
Proof.
  induction l as [|x l IH]; intros allTags; cbn [fold_left].
  - split; [auto | intros t; cbn [In]; tauto].
  - destruct (IH (TagPage.Set_add allTags x)) as [Hnd Hin]. split.
    + intros H. apply Hnd. now apply Set_add_NoDup.
    + intros t. rewrite Hin, Set_add_In. cbn [In]. intuition congruence.
Qed.

Lemma collect_tags_spec (us : list User) :
  forall allTags,
    (NoDup allTags ->
     NoDup (fold_left (fun acc user => fold_left TagPage.Set_add (user_tags user) acc)
              us allTags))
    /\ forall t,
         In t (fold_left (fun acc user => fold_left TagPage.Set_add (user_tags user) acc)
                 us allTags)
         <-> In t allTags \/ exists user, In user us /\ In t (user_tags user).
Proof.
  induction us as [|u us IH]; intros allTags; cbn [fold_left].
  - split; [auto|]. intros t. split; [now left | intros [H|(user & [] & _)]; exact H].
  - destruct (IH (fold_left TagPage.Set_add (user_tags u) allTags)) as [Hnd Hin].
    destruct (add_tags_spec (user_tags u) allTags) as [Hnd' Hin']. split.
    + intros H. apply Hnd. now apply Hnd'.
    + intros t. rewrite Hin, Hin'. split.
      * intros [[H|H]|(user & Hu & Ht)]; [now left | right | right].
        -- exists u. split; [now left | exact H].
        -- exists user. split; [now right | exact Ht].
      * intros [H|(user & [<-|Hu] & Ht)]; [left; now left | left; now right | right].
        exists user. now split.
Qed.

(** X10.  The tag pages.  [getStaticPaths] gives every tag of every
    user of the configuration exactly once, and no other tag; when the
    configuration cannot be read it gives no path.  For every tag,
    [getStaticProps] gives the users that carry the tag, in the order
    of the configuration; so every page that is built has at least one
    user, and a tag that no user carries gives an empty list. *)
Theorem tag_pages_cover_the_tags (E : Env) :
  NoDup (TagPage.getStaticPaths E)
  /\ (forall tag,
        In tag (TagPage.getStaticPaths E)
        <-> exists config user,
              config_yaml E = inr config /\ In user (users config)
              /\ In tag (user_tags user))
  /\ (forall tag user,
        In user (TagPage.getStaticProps E tag)
        <-> exists config,
              config_yaml E = inr config /\ In user (users config)
              /\ In tag (user_tags user))
  /\ (forall tag,
        In tag (TagPage.getStaticPaths E) <-> TagPage.getStaticProps E tag <> [])
  /\ (forall message, config_yaml E = inl message -> TagPage.getStaticPaths E = []).
Proof.
  unfold TagPage.getStaticPaths, TagPage.getStaticProps, TagPage.collect_tags.
  destruct (config_yaml E) as [message|config].
  - split; [constructor|]. split; [|split; [|split]].
    + intros tag. split; [contradiction | intros (c & u & H & _); discriminate].
    + intros tag user. split; [contradiction | intros (c & H & _); discriminate].
    + intros tag. split; [contradiction | intros H; now elim H].
    + reflexivity.
  - destruct (collect_tags_spec (users config) []) as [Hnd Hin].
    assert (Hprops : forall tag user,
              In user (filter (fun u => includes (user_tags u) tag) (users config))
              <-> In user (users config) /\ In tag (user_tags user)).
    { intros tag user. now rewrite filter_In, includes_In. }
    split; [apply Hnd; constructor|]. split; [|split; [|split]].
    + intros tag. rewrite Hin. split.
      * intros [[]|(user & Hu & Ht)]. now exists config, user.
      * intros (c & user & [= <-] & Hu & Ht). right. now exists user.
    + intros tag user. rewrite Hprops. split.
      * intros [Hu Ht]. now exists config.
      * intros (c & [= <-] & Hu & Ht). now split.
    + intros tag. rewrite Hin. split.
      * intros [[]|(user & Hu & Ht)] Hnil.
        assert (Huser : In user (filter (fun u => includes (user_tags u) tag)
                                   (users config))) by now apply Hprops.
        rewrite Hnil in Huser. contradiction.
      * intros Hne. right.
        destruct (filter (fun u => includes (user_tags u) tag) (users config))
          as [|user rest] eqn:Hf; [now elim Hne|].
        exists user. apply Hprops. rewrite Hf. now left.
    + intros message. discriminate.
Qed.

Example sample_tag_paths :
  TagPage.getStaticPaths (utc_env offline (inr {| users := [alice; dave; bob] |}))
  = ["rust"; "go"].
Proof. reflexivity. Qed.

(** X11.  The user pages.  [getStaticPaths] gives the name of every user
    of the configuration, and throws when the configuration cannot be
    read.  [getStaticProps] finds a user exactly for the names that are
    paths, and the user it finds is the first one of that name in the
    configuration; for any other name, and whenever the configuration
    cannot be read, the page is not found. *)
Theorem user_pages_cover_the_users (E : Env) :
  (UserPage.getStaticPaths E = None <-> exists message, config_yaml E = inl message)
  /\ (forall message params_name,
        config_yaml E = inl message ->
        UserPage.getStaticProps E params_name = UserPage.NotFound)
  /\ (forall config,
        config_yaml E = inr config ->
        UserPage.getStaticPaths E = Some (map name (users config))
        /\ (forall params_name,
              In params_name (map name (users config))
              <-> exists user, UserPage.getStaticProps E params_name = UserPage.Props user)
        /\ (forall params_name user,
              UserPage.getStaticProps E params_name = UserPage.Props user ->
              name user = params_name
              /\ exists before after,
                   users config = before ++ user :: after
                   /\ forall v, In v before -> name v <> params_name)).
Proof.
  unfold UserPage.getStaticPaths, UserPage.getStaticProps.
  destruct (config_yaml E) as [message|config].
  - split; [split; [now exists message | reflexivity]|].
    split; [reflexivity | intros c; discriminate].
  - split; [split; [discriminate | intros [m H]; discriminate]|].
    split; [intros m p; discriminate|].
    intros c [= <-]. split; [reflexivity|]. split.
    + intros params_name. rewrite in_map_iff. split.
      * intros (user & Hname & Hin).
        destruct (find (fun u => (name u =? params_name)%string) (users config))
          as [found|] eqn:Hfind; [now exists found|].
        rewrite find_none_iff in Hfind. specialize (Hfind user Hin).
        apply String.eqb_neq in Hfind. contradiction.
      * intros [user Hprops].
        destruct (find (fun u => (name u =? params_name)%string) (users config))
          as [found|] eqn:Hfind; [|discriminate].
        apply find_some in Hfind. destruct Hfind as [Hin Heq].
        exists found. split; [now apply String.eqb_eq | exact Hin].
    + intros params_name user.
      destruct (find (fun u => (name u =? params_name)%string) (users config))
        as [found|] eqn:Hfind; [|discriminate].
      intros [= <-]. split.
      * apply find_some in Hfind. now apply String.eqb_eq.
      * clear -Hfind. induction (users config) as [|u us IH]; [discriminate|].
        cbn [find] in Hfind.
        destruct (String.eqb_spec (name u) params_name) as [Heq|Hne].
        -- injection Hfind as <-. exists [], us. split; [reflexivity | intros v []].
        -- destruct (IH Hfind) as (before & after & -> & Hb).
           exists (u :: before), after. split; [reflexivity|].
           intros v [<-|Hv]; [exact Hne | now apply Hb].
Qed.

(** ** Further properties: the pages of the articles endpoint *)

Lemma StronglySorted_filter {A : Type} (R : A -> A -> Prop) (f : A -> bool)
  (l : list A) :
  StronglySorted R l -> StronglySorted R (filter f l).
Proof.
  induction 1 as [|x l Hs IH Hx]; cbn [filter]; [constructor|].
  destruct (f x); [|exact IH].
  constructor; [exact IH|].
  rewrite Forall_forall in *. intros y Hy. apply Hx.
  now apply filter_In in Hy.
Qed.

Lemma StronglySorted_skipn {A : Type} (R : A -> A -> Prop) (n : nat) (l : list A) :
  StronglySorted R l -> StronglySorted R (skipn n l).
Proof.
  revert l. induction n as [|n IH]; intros l Hs; [exact Hs|].
  destruct l as [|x l]; [constructor|]. cbn [skipn]. apply IH.
  now apply StronglySorted_inv in Hs.
Qed.

Lemma StronglySorted_firstn {A : Type} (R : A -> A -> Prop) (n : nat) (l : list A) :
  StronglySorted R l -> StronglySorted R (firstn n l).
Proof.
  revert l. induction n as [|n IH]; intros l Hs; [constructor|].
  destruct l as [|x l]; [constructor|]. cbn [firstn].
  apply StronglySorted_inv in Hs. destruct Hs as [Hs Hx].
  constructor; [now apply IH|].
  rewrite Forall_forall in *. intros y Hy. apply Hx.
  rewrite <- (firstn_skipn n l). apply in_or_app. now left.
Qed.

(** X12.  The filters and the pagination keep the order of the
    aggregate.  When the collection of [getAllArticles] is in descending
    order of publish time, so are the filtered collection and the
    articles of every response, for every query. *)
Theorem pages_keep_the_order (E : Env) (q : ArticlesQuery) (all : list RSSItem) :
  DescendingByDate E all ->
  DescendingByDate E (apply_filters q all)
  /\ DescendingByDate E (articles (respond q all)).
Proof.
  intros Hall.
  assert (Hf : DescendingByDate E (apply_filters q all)).
  { rewrite apply_filters_keeps. now apply StronglySorted_filter. }
  split; [exact Hf|].
  unfold respond. cbn [articles]. unfold slice.
  now apply StronglySorted_firstn, StronglySorted_skipn.
Qed.

Lemma pages_keep_the_order_witness :
  DescendingByDate sample_env sample_snapshot
  /\ DescendingByDate sample_env
       (articles (respond alice_employed_query sample_snapshot)).
Proof.
  assert (Hs : DescendingByDate sample_env sample_snapshot).
  { change sample_snapshot with (sort (newest_first sample_env) sample_snapshot).
    apply sort_descending, dated_forallb. vm_compute. reflexivity. }
  split; [exact Hs|].
  exact (proj2 (pages_keep_the_order sample_env alice_employed_query
                  sample_snapshot Hs)).
Defined.

(** X13.  A negative [perPage] is taken as it is.  The response then
    has a single page, and its articles are the filtered collection
    without its last [-perPage] articles (none when it has no more than
    that), while [total] still counts them all. *)
Theorem negative_perPage_cuts_the_tail
  (q : ArticlesQuery) (all : list RSSItem) (size : Z) :
  q_perPage q = Num size -> size < 0 ->
  let filtered := apply_filters q all in
  let r := respond q all in
  perPage (pagination r) = size
  /\ totalPages (pagination r) = 1
  /\ page (pagination r) = 1
  /\ total (pagination r) = Z.of_nat (List.length filtered)
  /\ articles r = firstn (Z.to_nat (Z.of_nat (List.length filtered) + size)) filtered.
Proof.
  intros Hq Hsize filtered r.
  assert (Hpp : requested_perPage q = size).
  { unfold requested_perPage. rewrite Hq. destruct size; simpl; lia. }
  assert (Hceil : Math_ceil_div (Z.of_nat (List.length filtered)) size <= 0).
  { unfold Math_ceil_div.
    rewrite <- (Z.opp_involutive size) at 1. rewrite Z.div_opp_opp by lia.
    pose proof (Z.div_pos (Z.of_nat (List.length filtered)) (- size)
                  ltac:(lia) ltac:(lia)). lia. }
  subst r. unfold respond. cbn [pagination perPage totalPages page total articles].
  fold filtered. rewrite Hpp.
  replace (Z.max 1 (Math_ceil_div (Z.of_nat (List.length filtered)) size)) with 1
    by lia.
  replace (Z.min (Z.max 1 (requested_page q)) 1) with 1 by lia.
  repeat (split; [reflexivity|]).
  unfold slice, relative_index. cbn [Z.sub Z.mul Z.add].
  change ((1 - 1) * size + size) with (0 * size + size).
  rewrite Z.mul_0_l, Z.add_0_l.
  destruct (Z.ltb_spec size 0) as [_|]; [|lia].
  change (0 <? 0) with false. cbv iota.
  replace (Z.min 0 (Z.of_nat (List.length filtered))) with 0 by lia.
  cbn [Z.to_nat skipn]. f_equal. lia.
Qed.

Lemma negative_perPage_cuts_the_tail_witness :
  map pubDate
    (articles (respond (mkArticlesQuery NaN (Num (-1)) None None None) sample_snapshot))
  = [Some "2021-07-01"; Some "2021-06-15"].
Proof.
  rewrite (proj2 (proj2 (proj2 (proj2
    (negative_perPage_cuts_the_tail (mkArticlesQuery NaN (Num (-1)) None None None)
       sample_snapshot (-1) eq_refl ltac:(lia)))))).
  reflexivity.
Defined.

(** ** Further properties: the secret of the refresh endpoint *)

Lemma validKey_not_empty (E : Env) : RefreshApi.validKey E <> "".
Proof.
  unfold RefreshApi.validKey, truthy_string.
  destruct (REFRESH_API_KEY E) as [k|]; [|discriminate].
  destruct (String.eqb_spec k ""); [discriminate | assumption].
Qed.

Lemma refresh_handler_unauthorized (E : Env) (req : RefreshApi.Request) (w : World) :
  RefreshApi.method req = "POST" ->
  RefreshApi.secretKey req <> Some (RefreshApi.validKey E) ->
  RefreshApi.handler E req w = (RefreshApi.Unauthorized, w).
Proof.
  intros Hm Hk. unfold RefreshApi.handler. rewrite Hm, String.eqb_refl.
  cbn [negb].
  destruct (strict_eq (RefreshApi.secretKey req) (RefreshApi.validKey E)) eqn:Heq;
    [|reflexivity].
  apply strict_eq_true in Heq. contradiction.
Qed.

Lemma refresh_handler_authorized (E : Env) (req : RefreshApi.Request) (w : World) :
  RefreshApi.method req = "POST" ->
  RefreshApi.secretKey req = Some (RefreshApi.validKey E) ->
  snd (RefreshApi.handler E req w) = snd (Generator.generateFeedJson E w)
  /\ fst (RefreshApi.handler E req w) <> RefreshApi.Unauthorized.
Proof.
  intros Hm Hk. unfold RefreshApi.handler. rewrite Hm, String.eqb_refl.
  cbn [negb]. apply strict_eq_true in Hk. rewrite Hk. cbn [negb].
  repeat first [rewrite bind_run | rewrite now_run | progress cbn [fst snd]].
  destruct (Generator.success (fst (Generator.generateFeedJson E w)));
    [|destruct (Generator.error (fst (Generator.generateFeedJson E w)))];
    cbn [ret fst snd]; split; try reflexivity; discriminate.
Qed.

(** X14.  In a POST request to the refresh endpoint a non-empty
    [x-api-key] header decides alone: when it is not the valid key the
    answer is 401 and nothing runs, even if the body carries the valid
    key.  The body field is looked at only when the header is absent or
    empty.  A request without any secret, or with an empty one, is never
    accepted, because the valid key is never empty. *)
Theorem refresh_header_decides (E : Env) (req : RefreshApi.Request) (w : World) :
  RefreshApi.method req = "POST" ->
  (forall h,
     RefreshApi.header_x_api_key req = Some h -> h <> "" ->
     h <> RefreshApi.validKey E ->
     RefreshApi.handler E req w = (RefreshApi.Unauthorized, w))
  /\ (truthy (RefreshApi.header_x_api_key req) = false ->
      (RefreshApi.handler E req w = (RefreshApi.Unauthorized, w)
       <-> RefreshApi.body_secretKey req <> Some (RefreshApi.validKey E)))
  /\ (truthy (RefreshApi.secretKey req) = false ->
      RefreshApi.handler E req w = (RefreshApi.Unauthorized, w)).
Proof.
  intros Hm. split; [|split].
  - intros h Hh Hne Hbad. apply refresh_handler_unauthorized; [exact Hm|].
    unfold RefreshApi.secretKey, or_else, truthy, truthy_string. rewrite Hh.
    destruct (String.eqb_spec h ""); [contradiction|]. cbn [negb]. congruence.
  - intros Hno.
    assert (Hkey : RefreshApi.secretKey req = RefreshApi.body_secretKey req).
    { unfold RefreshApi.secretKey, or_else. now rewrite Hno. }
    split.
    + intros Hun Hbody. rewrite <- Hkey in Hbody.
      destruct (refresh_handler_authorized E req w Hm Hbody) as [_ Hne].
      rewrite Hun in Hne. now elim Hne.
    + intros Hbody. apply refresh_handler_unauthorized; [exact Hm | congruence].
  - intros Hno. apply refresh_handler_unauthorized; [exact Hm|].
    intros Hk. rewrite Hk in Hno. cbn [truthy] in Hno.
    unfold truthy_string in Hno.
    destruct (String.eqb_spec (RefreshApi.validKey E) ""); [|discriminate].
    now apply (validKey_not_empty E).
Qed.

(** A wrong header with the valid key in the body. *)
Lemma refresh_header_decides_witness :
  RefreshApi.body_secretKey post_wrong_header = Some (RefreshApi.validKey sample_env)
  /\ RefreshApi.handler sample_env post_wrong_header blank_world
     = (RefreshApi.Unauthorized, blank_world).
Proof.
  split; [reflexivity|].
  refine (proj1 (refresh_header_decides sample_env post_wrong_header blank_world
                   eq_refl) "guess" eq_refl _ _); discriminate.
Defined.

(** X15.  The refresh button of the development tools sends the key
    ['dev-key'].  Its request runs the generation exactly when the valid
    key of the server is ['dev-key'], that is when [REFRESH_API_KEY] is
    unset, empty or ['dev-key'] itself; with any other value the button
    is answered 401 and nothing runs. *)
Theorem devtools_refresh_needs_default_key (E : Env) (w : World) :
  (RefreshApi.validKey E = "dev-key"
   <-> REFRESH_API_KEY E = None \/ REFRESH_API_KEY E = Some ""
       \/ REFRESH_API_KEY E = Some "dev-key")
  /\ (RefreshApi.validKey E = "dev-key" ->
      snd (RefreshApi.handler E DevTools.handleRefresh_request w)
      = snd (Generator.generateFeedJson E w)
      /\ fst (RefreshApi.handler E DevTools.handleRefresh_request w)
         <> RefreshApi.Unauthorized)
  /\ (RefreshApi.validKey E <> "dev-key" ->
      RefreshApi.handler E DevTools.handleRefresh_request w
      = (RefreshApi.Unauthorized, w)).
Proof.
  split; [|split].
  - unfold RefreshApi.validKey, truthy_string.
    destruct (REFRESH_API_KEY E) as [k|]; [|split; auto].
    destruct (String.eqb_spec k "") as [->|Hne]; cbn [negb].
    + split; auto.
    + split; [intros ->; auto|].
      intros [H|[H|H]]; congruence.
  - intros Hk. apply refresh_handler_authorized; [reflexivity|].
    cbn. now rewrite Hk.
  - intros Hk. apply refresh_handler_unauthorized; [reflexivity|].
    cbn. congruence.
Qed.

(** ** Further properties: the two aggregation paths side by side *)

Lemma filter_map_swap {A B : Type} (f : B -> bool) (g : A -> B) (l : list A) :
  filter f (map g l) = map g (filter (fun a => f (g a)) l).
Proof.
  induction l as [|a l IH]; [reflexivity|]. cbn [map filter].
  destruct (f (g a)); cbn [map]; now rewrite IH.
Qed.

(** X16.  For a user whose [joined] and [joined_at] are the same month,
    the live fetch keeps, of every feed, exactly the articles that the
    generator flags [isDuringEmployment = true], in the same order; the
    two lists differ only in the flag itself, which the live fetch does
    not set. *)
Theorem live_feed_is_the_employed_part
  (E : Env) (user : User) (j : DateYearMonth) (parsedFeed : ParsedFeed) :
  joined user = Some j -> joined_at user = Some j ->
  map without_flag
    (ArticlesApi.feed_articles E user (first_of_month E j) (leftDate E user) parsedFeed)
  = map without_flag (filter employed (Generator.feed_articles E user parsedFeed)).
Proof.
  intros _ Hat. unfold ArticlesApi.feed_articles, Generator.feed_articles,
    Generator.joinDate. rewrite Hat.
  rewrite !filter_map_swap, !map_map, filter_filter.
  rewrite (filter_ext
             (fun x => has_pubDate x
                       && employed (decorate user parsedFeed
                            (Generator.flag E (first_of_month E j) (leftDate E user) x)))
             (fun item => has_pubDate item
                          && within E (first_of_month E j) (leftDate E user) item)).
  - apply map_ext. intros item. reflexivity.
  - intros item. f_equal. unfold employed.
    cbn [decorate Generator.flag isDuringEmployment item_isDuringEmployment].
    now destruct (within E (first_of_month E j) (leftDate E user) item).
Qed.

Lemma live_feed_is_the_employed_part_witness :
  map pubDate
    (ArticlesApi.feed_articles sample_env alice
       (first_of_month sample_env {| year := 2020; month := 1 |})
       (leftDate sample_env alice) alice_feed)
  = map pubDate (filter employed (Generator.feed_articles sample_env alice alice_feed)).
Proof.
  pose proof (live_feed_is_the_employed_part sample_env alice
                {| year := 2020; month := 1 |} alice_feed eq_refl eq_refl) as H.
  apply (f_equal (map pubDate)) in H. rewrite !map_map in H. exact H.
Defined.

Lemma to_process_none (processedUrls srcs : list string) :
  (forall s, In s srcs -> truthy_string s = true -> In s processedUrls) ->
  filter (Generator.to_process processedUrls) srcs = [].
Proof.
  intros H. apply filter_none. intros s Hs. unfold Generator.to_process.
  destruct (truthy_string s) eqn:Ht; [|reflexivity].
  cbn [andb]. apply negb_false_iff, includes_In. now apply H.
Qed.

Lemma generator_collect_skips (E : Env) (late : User) (rest us : list User) :
  forall processedUrls w,
    (forall s, In s (sources late) -> truthy_string s = true ->
       In s processedUrls \/ In s (listed_sources us)) ->
    Generator.collect E (us ++ late :: rest) processedUrls w
    = Generator.collect E (us ++ rest) processedUrls w.
Proof.
  induction us as [|u us IH]; intros processedUrls w Hlisted; cbn [app].
  - cbn [Generator.collect]. rewrite to_process_none.
    + cbn [mapM]. rewrite !bind_run. cbn [ret fst snd List.concat app].
      rewrite app_nil_r. now destruct (Generator.collect E rest processedUrls w).
    + intros s Hs Ht. destruct (Hlisted s Hs Ht) as [H|H]; [exact H | contradiction].
  - cbn [Generator.collect]. rewrite !bind_run. rewrite IH; [reflexivity|].
    intros s Hs Ht. destruct (Hlisted s Hs Ht) as [H|H].
    + left. apply in_or_app. now left.
    + unfold listed_sources in H. cbn [flat_map] in H.
      rewrite filter_app, in_app_iff in H. destruct H as [H|H]; [|now right].
      left. apply filter_In in H. destruct H as [Hu _].
      destruct (includes processedUrls s) eqn:Hp.
      * apply in_or_app. left. now apply includes_In.
      * apply in_or_app. right. apply filter_In. split; [exact Hu|].
        unfold Generator.to_process. now rewrite Ht, Hp.
Qed.

(** X17.  The generator fetches a feed for the first user that lists
    it only.  A user all of whose non-empty sources are listed by
    earlier users of the configuration is passed over: the loop makes no
    request for this user and collects no article, exactly as if the
    user were not in the configuration. *)
Theorem generator_skips_shared_sources
  (E : Env) (us : list User) (late : User) (rest : list User) (w : World) :
  (forall s, In s (sources late) -> s <> "" -> In s (flat_map sources us)) ->
  Generator.collect E (us ++ late :: rest) [] w = Generator.collect E (us ++ rest) [] w.
Proof.
  intros Hshared. apply generator_collect_skips. intros s Hs Ht. right.
  unfold listed_sources. apply filter_In. split; [|exact Ht].
  apply Hshared; [exact Hs|]. intros ->. discriminate.
Qed.

(** Dave lists Bob's feed: after Bob, he gets nothing. *)
Lemma generator_skips_shared_sources_witness :
  Generator.collect sample_env ([alice; bob] ++ [dave]) [] blank_world
  = Generator.collect sample_env ([alice; bob] ++ []) [] blank_world.
Proof.
  apply (generator_skips_shared_sources sample_env [alice; bob] dave [] blank_world).
  intros s [<-|[]] _. cbn. auto.
Defined.

(** X18.  A source that answers within three retries is not lost.  When
    the first [i <= 3] requests of the generator to a source fail and
    the next one returns a feed, the source contributes the articles of
    that feed; the history shows the [i] retries, one second apart, and
    no logged error. *)
Theorem source_recovers_within_three_retries
  (E : Env) (user : User) (url : string) (w : World) (i : nat)
  (parsedFeed : ParsedFeed) :
  (i <= 3)%nat ->
  (forall k, (k < i)%nat ->
     parseURL_outcome E url (requests_to url (events w) + k) = None) ->
  parseURL_outcome E url (requests_to url (events w) + i) = Some parsedFeed ->
  Generator.source_articles E user url w
  = (Generator.feed_articles E user parsedFeed,
     with_events w (events w ++ attempts url i)).
Proof.
  intros Hi Hfail Hok. unfold Generator.source_articles. rewrite bind_run.
  destruct (fetchFeedWithRetry_run E url 3 w) as (k & Hk & Hsnd & Hbefore & Hfst & Hnone).
  assert (Hki : k = i).
  { destruct (Nat.lt_trichotomy k i) as [Hlt|[Heq|Hgt]]; [|exact Heq|].
    - rewrite (Hfail k Hlt) in Hfst. specialize (Hnone Hfst). lia.
    - rewrite (Hbefore i Hgt) in Hok. discriminate. }
  subst k. rewrite Hfst, Hok, Hsnd. reflexivity.
Qed.

Lemma source_recovers_within_three_retries_witness :
  let flaky := fun (url : string) (n : nat) =>
    match n with 0%nat | 1%nat => None | _ => Some bob_feed end in
  let E := utc_env flaky (inr sample_config) in
  events (snd (Generator.source_articles E bob "https://bob.example/feed" blank_world))
  = [EFetch "https://bob.example/feed"; ESleep 1000;
     EFetch "https://bob.example/feed"; ESleep 1000;
     EFetch "https://bob.example/feed"].
Proof.
  cbv zeta.
  rewrite (source_recovers_within_three_retries
             (utc_env (fun _ n => match n with 0%nat | 1%nat => None | _ => Some bob_feed end)
                (inr sample_config))
             bob "https://bob.example/feed" blank_world 2 bob_feed).
  - reflexivity.
  - lia.
  - intros k Hk. destruct k as [|[|k]]; [reflexivity | reflexivity | lia].
  - reflexivity.
Defined.

(** ** Further properties: how many requests a run makes *)

Lemma occurrences_app (url : string) (l l' : list string) :
  occurrences url (l ++ l') = (occurrences url l + occurrences url l')%nat.
Proof. unfold occurrences. now rewrite filter_app, length_app. Qed.

Lemma occurrences_cons (url s : string) (l : list string) :
  occurrences url (s :: l)
  = ((if String.eqb url s then 1 else 0) + occurrences url l)%nat.
Proof. unfold occurrences. cbn [filter]. now destruct (String.eqb url s). Qed.

Lemma occurrences_filter_le (url : string) (f : string -> bool) (l : list string) :
  (occurrences url (filter f l) <= occurrences url l)%nat.
Proof.
  induction l as [|s l IH]; [apply Nat.le_refl|]. cbn [filter].
  destruct (f s); rewrite ?occurrences_cons; lia.
Qed.

Lemma occurrences_In (url : string) (l : list string) :
  In url l <-> (1 <= occurrences url l)%nat.
Proof.
  induction l as [|s l IH]; [cbn; split; [contradiction | lia]|].
  rewrite occurrences_cons. cbn [In].
  destruct (String.eqb_spec url s) as [->|Hne].
  - split; [lia | now left].
  - rewrite IH. split; [intros [H|H]; [congruence | lia] | intros H; right; lia].
Qed.

Lemma requests_to_one (url s : string) :
  requests_to url [EFetch s] = if String.eqb url s then 1%nat else 0%nat.
Proof.
  unfold requests_to. cbn [filter is_fetch].
  rewrite (String.eqb_sym s url). now destruct (String.eqb url s).
Qed.

Lemma requests_to_attempts_any (url s : string) (k : nat) :
  requests_to url (attempts s k) = if String.eqb url s then S k else 0%nat.
Proof.
  destruct (String.eqb_spec url s) as [->|Hne].
  - apply requests_to_attempts.
  - now apply requests_to_attempts_other.
Qed.

Lemma source_articles_requests (E : Env) (user : User) (s url : string) (w : World) :
  exists k, (k <= 3)%nat
    /\ requests_to url (events (snd (Generator.source_articles E user s w)))
       = (requests_to url (events w) + if String.eqb url s then S k else 0)%nat.
Proof.
  unfold Generator.source_articles. rewrite bind_run.
  destruct (fetchFeedWithRetry_run E s 3 w) as (k & Hk & Hsnd & _).
  exists k. split; [exact Hk|]. rewrite Hsnd.
  destruct (fst (Generator.fetchFeedWithRetry E s 3 w)).
  - cbn [ret snd with_events events].
    now rewrite requests_to_app, requests_to_attempts_any.
  - rewrite bind_run, emit_run. cbn [ret fst snd with_events events].
    rewrite !requests_to_app, requests_to_attempts_any.
    change (requests_to url [EFeedError s]) with 0%nat. lia.
Qed.

Lemma mapM_sources_requests (E : Env) (user : User) (url : string) (todo : list string) :
  forall w, exists n,
    requests_to url (events (snd (mapM (Generator.source_articles E user) todo w)))
    = (requests_to url (events w) + n)%nat
    /\ (occurrences url todo <= n <= 4 * occurrences url todo)%nat.
Proof.
  induction todo as [|s todo IH]; intros w; cbn [mapM].
  - exists 0%nat. cbn. split; lia.
  - rewrite !bind_run. cbn [ret snd].
    destruct (source_articles_requests E user s url w) as (k & Hk & Hs).
    destruct (IH (snd (Generator.source_articles E user s w))) as (n & Hn & Hb).
    exists ((if String.eqb url s then S k else 0) + n)%nat.
    rewrite Hn, Hs, occurrences_cons.
    split; [lia|]. destruct (String.eqb url s); lia.
Qed.

Lemma listed_sources_cons (u : User) (us : list User) :
  listed_sources (u :: us) = filter truthy_string (sources u) ++ listed_sources us.
Proof. unfold listed_sources. cbn [flat_map]. now rewrite filter_app. Qed.

Lemma todo_le_listed (url : string) (processedUrls srcs : list string) :
  (occurrences url (filter (Generator.to_process processedUrls) srcs)
   <= occurrences url (filter truthy_string srcs))%nat.
Proof.
  rewrite <- (filter_idem truthy_string (Generator.to_process processedUrls) srcs).
  - apply occurrences_filter_le.
  - intros s H. unfold Generator.to_process in H. now apply andb_true_iff in H.
Qed.

Lemma generator_collect_requests (E : Env) (url : string) (us : list User) :
  forall processedUrls w, exists n,
    requests_to url (events (snd (Generator.collect E us processedUrls w)))
    = (requests_to url (events w) + n)%nat
    /\ (n <= 4 * occurrences url (listed_sources us))%nat
    /\ (In url processedUrls -> n = 0%nat)
    /\ (In url (listed_sources us) -> ~ In url processedUrls -> (1 <= n)%nat).
Proof.
  induction us as [|u us IH]; intros processedUrls w; cbn [Generator.collect].
  - exists 0%nat. cbn [ret snd listed_sources flat_map filter In].
    split; [lia|]. split; [lia|]. split; [reflexivity | contradiction].
  - rewrite !bind_run. cbn [ret snd].
    set (todo := filter (Generator.to_process processedUrls) (sources u)).
    destruct (mapM_sources_requests E u url todo w) as (n1 & Hn1 & Hb1).
    destruct (IH (processedUrls ++ todo)
                (snd (mapM (Generator.source_articles E u) todo w)))
      as (n2 & Hn2 & Hup & Hzero & Hone).
    exists (n1 + n2)%nat. rewrite Hn2, Hn1, listed_sources_cons, occurrences_app.
    pose proof (todo_le_listed url processedUrls (sources u)) as Hle. fold todo in Hle.
    split; [lia|]. split; [lia|]. split.
    + intros Hin.
      assert (Htodo : occurrences url todo = 0%nat).
      { destruct (occurrences url todo) eqn:Ho; [reflexivity|].
        assert (Hi : In url todo) by (apply occurrences_In; lia).
        apply filter_In in Hi. destruct Hi as [_ Hp].
        unfold Generator.to_process in Hp. apply andb_true_iff in Hp.
        destruct Hp as [_ Hp]. apply negb_true_iff in Hp.
        apply includes_In in Hin. congruence. }
      rewrite (Hzero (in_or_app _ _ _ (or_introl Hin))). lia.
    + intros Hlisted Hnot.
      destruct (in_dec string_dec url todo) as [Hin|Hout].
      * apply occurrences_In in Hin. lia.
      * rewrite in_app_iff in Hlisted. destruct Hlisted as [Hu|Hrest].
        -- elim Hout. apply filter_In in Hu. destruct Hu as [Hu Ht].
           apply filter_In. split; [exact Hu|].
           unfold Generator.to_process. rewrite Ht. cbn [andb].
           apply negb_true_iff.
           destruct (includes processedUrls url) eqn:Hp; [|reflexivity].
           apply includes_In in Hp. contradiction.
        -- assert (1 <= n2)%nat; [|lia]. apply Hone; [exact Hrest|].
           rewrite in_app_iff. tauto.
Qed.

(** X19.  The generator makes, for every URL, at least one request when
    a user lists it as a non-empty source, no request when no user does,
    and never more than four requests for each time it is listed. *)
Theorem generator_requests_are_bounded (E : Env) (config : ConfigYaml) (w : World)
  (url : string) :
  config_yaml E = inr config ->
  let w' := snd (Generator.generateFeedJson E w) in
  let listed := occurrences url (listed_sources (users config)) in
  exists n,
    requests_to url (events w') = (requests_to url (events w) + n)%nat
    /\ (n <= 4 * listed)%nat
    /\ (listed = 0%nat -> n = 0%nat)
    /\ ((1 <= listed)%nat -> (1 <= n)%nat).
Proof.
  intros Hc w' listed.
  destruct (generator_collect_requests E url (users config) [] w)
    as (n & Hn & Hup & _ & Hone).
  exists n. split; [|split; [exact Hup | split]].
  - subst w'. unfold Generator.generateFeedJson. rewrite Hc, bind_run.
    destruct (fs_write_error E); [destruct (fs_error_at_users_json E)|];
      rewrite ?bind_run;
      cbn [ret fst snd Generator.write_feed_json Generator.write_users_json
           events]; exact Hn.
  - intros Hz. fold listed in Hup. lia.
  - intros Hl. apply Hone; [|intros []]. now apply occurrences_In.
Qed.

Lemma generator_requests_are_bounded_witness :
  exists n,
    requests_to "https://bob.example/dead"
      (events (snd (Generator.generateFeedJson sample_env blank_world)))
    = (0 + n)%nat
    /\ (n <= 4 * 1)%nat.
Proof.
  destruct (generator_requests_are_bounded sample_env sample_config blank_world
              "https://bob.example/dead" eq_refl) as (n & Hn & Hup & _).
  exists n. split; [exact Hn | exact Hup].
Defined.

Lemma fallback_sources_requests (E : Env) (user : User) (joinDate leftDate : option Z)
  (url : string) (srcs : list string) :
  forall w,
    requests_to url
      (events (snd (ArticlesApi.collect_sources E user joinDate leftDate srcs w)))
    = (requests_to url (events w) + occurrences url (filter truthy_string srcs))%nat.
Proof.
  induction srcs as [|s srcs IH]; intros w; cbn [ArticlesApi.collect_sources filter].
  - cbn. lia.
  - destruct (truthy_string s); [|apply IH].
    rewrite bind_run, parseURL_run. cbn [fst snd].
    rewrite occurrences_cons.
    destruct (parseURL_outcome E s (requests_to s (events w)));
      rewrite ?bind_run; cbn [ret fst snd]; rewrite ?emit_run; cbn [fst snd];
      rewrite IH; cbn [with_events events]; rewrite !requests_to_app, requests_to_one.
    + lia.
    + change (requests_to url [EFeedError s]) with 0%nat. lia.
Qed.

Lemma fallback_collect_requests (E : Env) (url : string) (us : list User) :
  (forall user, In user us -> joined user <> None) ->
  forall w,
    requests_to url (events (snd (ArticlesApi.collect E us w)))
    = (requests_to url (events w) + occurrences url (listed_sources us))%nat.
Proof.
  induction us as [|u us IH]; intros Hall w; cbn [ArticlesApi.collect].
  - cbn. lia.
  - destruct (joined u) as [j|] eqn:Hj; [|elim (Hall u (or_introl eq_refl) Hj)].
    rewrite !bind_run. cbn [ret snd].
    rewrite IH by (intros user H; apply Hall; now right).
    rewrite fallback_sources_requests, listed_sources_cons, occurrences_app. lia.
Qed.

(** X20.  The live fetch asks every listed source once for each time it
    is listed.  When it is needed (no cache, no article in [feed.json])
    and every user of a readable configuration has [joined], the number
    of requests that [getAllArticles] makes to a URL is the number of
    times the URL stands as a non-empty source in the configuration:
    there is no retry after a failure, and a feed that two users share
    is fetched for both. *)
Theorem live_fetch_requests_every_listing
  (E : Env) (w : World) (config : ConfigYaml) (url : string) :
  ArticlesApi.cache_hit w (Date_now E (events w)) = None ->
  feed_json w = None \/ feed_json w = Some [] ->
  config_yaml E = inr config ->
  (forall user, In user (users config) -> joined user <> None) ->
  requests_to url (events (snd (ArticlesApi.getAllArticles E w)))
  = (requests_to url (events w)
     + occurrences url (listed_sources (users config)))%nat.
Proof.
  intros Hhit Hfile Hc Hall. apply snapshot_unusable in Hfile.
  rewrite (getAllArticles_live E w Hhit Hfile).
  unfold ArticlesApi.live_fetch. rewrite Hc, bind_run.
  destruct (fallback_collect_all_joined E (users config) Hall w) as [collected Hcol].
  rewrite Hcol. cbn [snd]. rewrite events_save.
  cbn [ArticlesApi.set_cache events].
  now apply fallback_collect_requests.
Qed.

(** Alice, Bob and a second Bob with the same feeds: the dead feed is
    asked twice by the live fetch, and four times by the generator. *)
Lemma live_fetch_requests_every_listing_witness :
  let E := utc_env sample_net (inr {| users := [alice; bob; bob] |}) in
  requests_to "https://bob.example/dead"
    (events (snd (ArticlesApi.getAllArticles E blank_world))) = 2%nat
  /\ requests_to "https://bob.example/dead"
       (events (snd (Generator.generateFeedJson E blank_world))) = 4%nat.
Proof.
  split; [|reflexivity].
  rewrite (live_fetch_requests_every_listing
             (utc_env sample_net (inr {| users := [alice; bob; bob] |}))
             blank_world {| users := [alice; bob; bob] |}
             "https://bob.example/dead" eq_refl (or_introl eq_refl) eq_refl).
  - reflexivity.
  - intros user [<-|[<-|[<-|[]]]]; discriminate.
Defined.

(** ** Further properties: the timeline of the pages *)

Lemma respond_request (base : ArticlesQuery) (all : list RSSItem) (p : Z) :
  let filtered := apply_filters base all in
  let T := Z.max 1 (Math_ceil_div (Z.of_nat (List.length filtered)) 12) in
  1 <= p <= T ->
  articles (respond (Timeline.request base p) all) = window filtered p 12
  /\ page (pagination (respond (Timeline.request base p) all)) = p
  /\ totalPages (pagination (respond (Timeline.request base p) all)) = T.
Proof.
  intros filtered T Hp.
  assert (Hpage : requested_page (Timeline.request base p) = p).
  { unfold requested_page, Timeline.request, or_default. cbn [q_page].
    destruct p; lia. }
  unfold respond. rewrite Hpage.
  change (requested_perPage (Timeline.request base p)) with 12.
  change (apply_filters (Timeline.request base p) all) with filtered.
  cbn [articles pagination page totalPages]. fold T.
  replace (Z.min (Z.max 1 p) T) with p by lia.
  split; [|now split].
  unfold window. apply slice_window; lia.
Qed.

Lemma scroll_at_the_end (base : ArticlesQuery) (all : list RSSItem)
  (s : Timeline.State) :
  Timeline.hasMore s = false -> Timeline.scroll base all s = s.
Proof.
  intros H. unfold Timeline.scroll, Timeline.intersect. rewrite H, andb_false_r.
  now rewrite Z.eqb_refl.
Qed.

Lemma visit_in_range (base : ArticlesQuery) (all : list RSSItem) (k : nat) :
  let filtered := apply_filters base all in
  let T := Z.max 1 (Math_ceil_div (Z.of_nat (List.length filtered)) 12) in
  Z.of_nat k < T ->
  Timeline.shown (Timeline.visit base all k) = firstn (12 * S k) filtered
  /\ Timeline.currentPage (Timeline.visit base all k) = Z.of_nat (S k)
  /\ Timeline.hasMore (Timeline.visit base all k) = (Z.of_nat (S k) <? T)
  /\ Timeline.isLoading (Timeline.visit base all k) = false.
Proof.
  intros filtered T. induction k as [|k IH]; intros Hk.
  - cbn [Timeline.visit Timeline.loadInitialArticles Timeline.shown
         Timeline.currentPage Timeline.hasMore Timeline.isLoading Timeline.initial].
    destruct (respond_request base all 1 ltac:(fold filtered; fold T; lia))
      as (Ha & Hp & Ht).
    fold filtered in Ha. fold filtered T in Ht. rewrite Ha, Hp, Ht.
    repeat split.
  - destruct (IH ltac:(lia)) as (Hshown & Hcur & Hmore & Hload).
    assert (Hm : Timeline.hasMore (Timeline.visit base all k) = true).
    { rewrite Hmore. apply Z.ltb_lt. lia. }
    cbn [Timeline.visit]. unfold Timeline.scroll, Timeline.intersect.
    rewrite Hload, Hm. cbn [negb andb Timeline.currentPage]. rewrite Hcur.
    destruct (Z.eqb_spec (Z.of_nat (S k) + 1) (Z.of_nat (S k))) as [|_]; [lia|].
    destruct (Z.eqb_spec (Z.of_nat (S k) + 1) 1) as [|_]; [lia|].
    destruct (respond_request base all (Z.of_nat (S k) + 1)
                ltac:(fold filtered; fold T; lia)) as (Ha & Hp & Ht).
    fold filtered in Ha. fold filtered T in Ht.
    cbn [Timeline.loadMoreArticles Timeline.shown Timeline.currentPage
         Timeline.hasMore Timeline.isLoading].
    rewrite Ha, Hp, Ht, Hshown.
    split; [|split; [lia | split; [f_equal; lia | reflexivity]]].
    unfold window.
    replace (Z.to_nat ((Z.of_nat (S k) + 1 - 1) * 12)) with (12 * S k)%nat by lia.
    replace (12 * S (S k))%nat with (12 * S k + 12)%nat by lia.
    now rewrite firstn_add.
Qed.

(** X21.  Scrolling a timeline to its end shows the whole filtered
    collection once.  After the first load and [k] scrolls to the end of
    the list, with [k + 1] no more than the number of pages, the page
    shows the first [12 * (k + 1)] articles of the filtered collection
    and knows whether more are to come; once the last page is loaded it
    shows the filtered collection, each article once and in order, and
    further scrolls ask for nothing and change nothing. *)
Theorem timeline_shows_the_whole_collection
  (base : ArticlesQuery) (all : list RSSItem) :
  let filtered := apply_filters base all in
  let T := totalPages (pagination (respond (Timeline.request base 1) all)) in
  (forall k,
     Z.of_nat k < T ->
     Timeline.shown (Timeline.visit base all k) = firstn (12 * S k) filtered
     /\ Timeline.currentPage (Timeline.visit base all k) = Z.of_nat (S k)
     /\ Timeline.hasMore (Timeline.visit base all k) = (Z.of_nat (S k) <? T))
  /\ (forall k,
        T - 1 <= Z.of_nat k ->
        Timeline.shown (Timeline.visit base all k) = filtered
        /\ Timeline.hasMore (Timeline.visit base all k) = false
        /\ Timeline.visit base all (S k) = Timeline.visit base all k).
Proof.
  intros filtered T.
  assert (HT : T = Z.max 1 (Math_ceil_div (Z.of_nat (List.length filtered)) 12))
    by reflexivity.
  assert (Hcover : Z.of_nat (List.length filtered) <= 12 * T).
  { pose proof (ceil_div_bounds (Z.of_nat (List.length filtered)) 12 ltac:(lia)).
    lia. }
  split.
  - intros k Hk. rewrite HT in Hk.
    destruct (visit_in_range base all k Hk) as (H1 & H2 & H3 & _).
    fold filtered in H1. rewrite HT. now repeat split.
  - assert (Hlast : forall k, Z.of_nat k = T - 1 ->
              Timeline.shown (Timeline.visit base all k) = filtered
              /\ Timeline.hasMore (Timeline.visit base all k) = false).
    { intros k Hk.
      destruct (visit_in_range base all k ltac:(fold filtered; lia))
        as (H1 & _ & H3 & _).
      fold filtered in H1, H3. rewrite <- HT in H3. split.
      - rewrite H1. apply firstn_all2. lia.
      - rewrite H3. apply Z.ltb_ge. lia. }
    assert (Hend : forall k, T - 1 <= Z.of_nat k ->
              Timeline.shown (Timeline.visit base all k) = filtered
              /\ Timeline.hasMore (Timeline.visit base all k) = false).
    { induction k as [|k IH]; intros Hk.
      - apply Hlast. lia.
      - destruct (Z.eq_dec (Z.of_nat (S k)) (T - 1)) as [Heq|Hne];
          [now apply Hlast|].
        destruct (IH ltac:(lia)) as [Hs Hm].
        cbn [Timeline.visit]. rewrite scroll_at_the_end by exact Hm. now split. }
    intros k Hk. destruct (Hend k Hk) as [Hs Hm].
    split; [exact Hs|]. split; [exact Hm|].
    cbn [Timeline.visit]. now apply scroll_at_the_end.
Qed.

Example sample_timeline :
  map pubDate (Timeline.shown (Timeline.visit sample_query sample_snapshot 3))
  = [Some "2021-07-01"; Some "2021-06-15"; Some "2021-05-01"].
Proof. reflexivity. Qed.
